(** * Debris Tracker CubeSat: the detection pipeline

    A shallow embedding of [src/algorithm/detector.py] and
    [src/algorithm/live_detector.py].

    Conventions of the embedding.
    - A NumPy 2-D array is a record of its shape and of its row-major data.
    - Camera frames hold integer samples ([Z]); every floating-point array
      (background, residual) holds exact rationals ([Q]): a finite float is a
      rational, comparisons of floats are exact, and the arithmetic of the
      pipeline is taken without rounding error.  NaN and the infinities are
      not represented.
    - A Python exception is the [Raise] case of [result].
    - What comes from a library outside the repository (connected-component
      labelling and region properties of scikit-image, [np.degrees],
      [datetime]) is a variable of the section that uses it; the camera is
      the list of frames it will deliver, and the clock readings and key
      presses of the live loop are its inputs. *)

From Stdlib Require Import ZArith QArith Qabs Qround Qminmax.
From Stdlib Require Import String Ascii DecimalString.
From Stdlib Require Import Bool Arith Lia List.
From Stdlib Require Import Sorting.Permutation Sorting.Sorted.
Import ListNotations.

Set Implicit Arguments.

(** ** Exceptions *)

Inductive exn : Type :=
| ValueError    (* NumPy: bad shapes, empty stack, empty reduction *)
| RuntimeError  (* camera.py: the camera could not supply a frame *)
| IndexError    (* a list indexed past its end *)
| Cv2Error.     (* OpenCV: an image without pixels *)

Inductive result (A : Type) : Type :=
| Ok (a : A)
| Raise (e : exn).
Arguments Ok {A} a.
Arguments Raise {A} e.

Definition rbind {A B : Type} (m : result A) (f : A -> result B) : result B :=
  match m with
  | Ok a => f a
  | Raise e => Raise e
  end.

(** ** NumPy arrays *)

Record ndarray (A : Type) : Type := mk_ndarray {
  shape : nat * nat;          (* (rows, columns) *)
  data : list A               (* row-major *)
}.

Definition size {A : Type} (a : ndarray A) : nat :=
  (fst (shape a) * snd (shape a))%nat.

Definition shape_eqb (s t : nat * nat) : bool :=
  Nat.eqb (fst s) (fst t) && Nat.eqb (snd s) (snd t).

(** [a.astype(np.float32)] on integer samples. *)
Definition astype_float (a : list Z) : list Q := map inject_Z a.

(** Sorting, as [np.sort] / the selection inside [np.median] orders values. *)
Fixpoint insert_sorted (x : Q) (l : list Q) : list Q :=
  match l with
  | [] => [x]
  | y :: l' => if Qle_bool x y then x :: l else y :: insert_sorted x l'
  end.

Fixpoint np_sort (l : list Q) : list Q :=
  match l with
  | [] => []
  | x :: l' => insert_sorted x (np_sort l')
  end.

(** [np.median] of a 1-D sample: with [sz] values and [index = sz // 2], the
    mean of the sorted slice [index-1 : index+1] when [sz] is even and the
    value at [index] when it is odd.  On an empty sample NumPy gives nan; the
    embedding has no nan and leaves 0 there. *)
Definition np_median (a : list Q) : Q :=
  let part := np_sort a in
  let sz := length a in
  let index := (sz / 2)%nat in
  if Nat.even sz
  then (nth (index - 1) part 0 + nth index part 0) / 2
  else nth index part 0.

(** ** STEP 1: the median background *)

(** [np.stack(frames, axis=0)]: refuses an empty list and arrays whose shapes
    differ; otherwise the planes, with their common shape. *)
Definition np_stack (frames : list (ndarray Z))
  : result ((nat * nat) * list (list Z)) :=
  match frames with
  | [] => Raise ValueError
  | f :: rest =>
      if forallb (fun g => shape_eqb (shape g) (shape f)) rest
      then Ok (shape f, map (@data Z) frames)
      else Raise ValueError
  end.

(** The samples of pixel [p] through the stack. *)
Definition column (p : nat) (planes : list (list Q)) : list Q :=
  map (fun plane => nth p plane 0) planes.

(** [np.median(stack, axis=0)]. *)
Definition np_median_axis0 (sh : nat * nat) (planes : list (list Q)) : list Q :=
  map (fun p => np_median (column p planes)) (seq 0 (fst sh * snd sh)).

(** [calcola_fondo_mediano].  The closing [print] evaluates [fondo.min()] and
    [fondo.max()], which raise ValueError on an array without elements. *)
Definition calcola_fondo_mediano (frames : list (ndarray Z))
  : result (ndarray Q) :=
  rbind (np_stack frames) (fun st =>
    let '(sh, planes) := st in
    let stack := map astype_float planes in
    let fondo := mk_ndarray sh (np_median_axis0 sh stack) in
    if Nat.eqb (size fondo) 0 then Raise ValueError else Ok fondo).

(** ** STEP 2: background subtraction *)

(** NumPy broadcasting of one dimension. *)
Definition broadcast_dim (a b : nat) : option nat :=
  if Nat.eqb a b then Some a
  else if Nat.eqb a 1 then Some b
  else if Nat.eqb b 1 then Some a
  else None.

(** Element [(i, j)] of the broadcast view of an array. *)
Definition bget {A : Type} (d : A) (a : ndarray A) (i j : nat) : A :=
  let bi := if Nat.eqb (fst (shape a)) 1 then 0%nat else i in
  let bj := if Nat.eqb (snd (shape a)) 1 then 0%nat else j in
  nth (bi * snd (shape a) + bj) (data a) d.

(** [np.clip(x, 0, None)]. *)
Definition clip0 (x : Q) : Q := Qmax x 0.

(** [sottrai_fondo]: [frame.astype(np.float32) - fondo], clipped below at 0.
    Shapes that do not broadcast raise ValueError. *)
Definition sottrai_fondo (frame : ndarray Z) (fondo : ndarray Q)
  : result (ndarray Q) :=
  match broadcast_dim (fst (shape frame)) (fst (shape fondo)),
        broadcast_dim (snd (shape frame)) (snd (shape fondo)) with
  | Some r, Some c =>
      let frame_f := mk_ndarray (shape frame) (astype_float (data frame)) in
      let residuo :=
        map (fun p => bget 0 frame_f (p / c) (p mod c)
                      - bget 0 fondo (p / c) (p mod c))
            (seq 0 (r * c)) in
      Ok (mk_ndarray (r, c) (map clip0 residuo))
  | _, _ => Raise ValueError
  end.

(** ** STEP 3: statistical thresholding *)

Definition SIGMA_SOGLIA : Q := 4.0.

(** [residuo > soglia] on one sample. *)
Definition Qgtb (x y : Q) : bool := negb (Qle_bool x y).

(** [sogliatura]: the mask as [uint8] samples, the threshold and sigma. *)
Definition sogliatura (residuo : ndarray Q) (sigma_threshold : Q)
  : ndarray Z * Q * Q :=
  let mediana := np_median (data residuo) in
  let mad := np_median (map (fun x => Qabs (x - mediana)) (data residuo)) in
  let sigma := mad * 1.4826 in
  let soglia := mediana + sigma_threshold * sigma in
  let maschera :=
    mk_ndarray (shape residuo)
               (map (fun x => if Qgtb x soglia then 1%Z else 0%Z)
                    (data residuo)) in
  (maschera, soglia, sigma).

(** Number of flagged pixels of a mask. *)
Definition flagged (maschera : ndarray Z) : nat :=
  length (filter (fun v => Z.eqb v 1) (data maschera)).

(** ** Python numbers and values of a detection record *)

(** The numeric objects that reach a record.  [np.float64] is a subclass of
    the Python [float] and is not told apart from it; a NumPy integer scalar
    ([np.int64]) is not a Python [int], and a NumPy [float32] scalar, which
    is what the statistics of the float32 residual are, is not a Python
    [float]. *)
Inductive pynum : Type :=
| PyInt (z : Z)
| PyFloat (q : Q)
| NpInt (z : Z)
| NpFloat32 (q : Q).

Inductive pyval : Type :=
| PyNum (n : pynum)
| PyStr (s : string).

(** The value a comparison sees. *)
Definition num (n : pynum) : Q :=
  match n with
  | PyInt z => inject_Z z
  | PyFloat q => q
  | NpInt z => inject_Z z
  | NpFloat32 q => q
  end.

(** A record is a Python [dict] with string keys, in insertion order. *)
Definition rilevamento : Type := list (string * pyval).

Definition keys (r : rilevamento) : list string := map fst r.

Fixpoint dict_get (k : string) (r : rilevamento) : option pyval :=
  match r with
  | [] => None
  | (k', v) :: r' => if String.eqb k k' then Some v else dict_get k r'
  end.

(** Rounding to the nearest integer, ties to even. *)
Definition round_half_even (q : Q) : Z :=
  let f := Qfloor q in
  match Qcompare (q - inject_Z f) (1 # 2) with
  | Lt => f
  | Gt => (f + 1)%Z
  | Eq => if Z.even f then f else (f + 1)%Z
  end.

(** [round(x, ndigits)] on a float. *)
Definition py_round (x : Q) (ndigits : nat) : Q :=
  Qmake (round_half_even (x * inject_Z (10 ^ Z.of_nat ndigits)))
        (Z.to_pos (10 ^ Z.of_nat ndigits)).

(** ** STEP 4: classification *)

Definition ECCENTRICITA_MIN : Q := 0.90.
Definition AREA_MIN_STREAK : Q := 15.
Definition AREA_MIN_STELLA : Q := 3.

(** What [skimage.measure.regionprops] exposes of a connected region. *)
Record RegionProps : Type := mk_region {
  area : pynum;
  eccentricity : Q;
  centroid : Q * Q;                 (* (row, column) *)
  bbox : Z * Z * Z * Z;
  orientation : Q;                  (* radians *)
  major_axis_length : Q;
  minor_axis_length : Q
}.

(** The dictionaries [classifica_oggetti] builds. *)
Record detrito : Type := mk_detrito {
  d_centroid : Q * Q;
  d_bbox : Z * Z * Z * Z;
  d_area : pynum;
  d_eccentricita : Q;
  d_orientazione : Q;
  d_lunghezza : Q;
  d_larghezza : Q
}.

Record stella : Type := mk_stella {
  s_centroid : Q * Q;
  s_area : pynum;
  s_eccentricita : Q
}.

(** The two classes of the specification, and its rule read word for word:
    discard below the noise floor, else Debris when both floors are reached,
    else Star. *)
Inductive classe : Type := Star | Debris.

Definition spec_rule (a e : Q) : option classe :=
  if Qgtb AREA_MIN_STELLA a then None
  else if Qle_bool ECCENTRICITA_MIN e && Qle_bool AREA_MIN_STREAK a
       then Some Debris
       else Some Star.

Definition spec_is (c : classe) (obj : RegionProps) : bool :=
  match spec_rule (num (area obj)) (eccentricity obj), c with
  | Some Debris, Debris => true
  | Some Star, Star => true
  | _, _ => false
  end.

(** Call trace of the pipeline stages, with exceptions. *)
Inductive call : Type :=
| CFondo        (* calcola_fondo_mediano *)
| CResiduo      (* sottrai_fondo *)
| CSoglia       (* sogliatura *)
| CClassifica.  (* classifica_oggetti *)

Definition M (A : Type) : Type := list call -> list call * result A.

Definition ret {A : Type} (a : A) : M A := fun t => (t, Ok a).

Definition bind {A B : Type} (m : M A) (f : A -> M B) : M B :=
  fun t =>
    match m t with
    | (t', Ok a) => f a t'
    | (t', Raise e) => (t', Raise e)
    end.

(** A stage is entered, then it returns or raises. *)
Definition invoke {A : Type} (c : call) (r : result A) : M A :=
  fun t => (t ++ [c], r).

Definition lift {A : Type} (r : result A) : M A := fun t => (t, r).

Notation "x <- m ;; k" := (bind m (fun x => k))
  (at level 61, m at next level, right associativity).
Notation "' p <- m ;; k" := (bind m (fun x => let p := x in k))
  (at level 61, p pattern, m at next level, right associativity).

(** [f"{i:04d}"] and [f"{i:05d}"]: decimal digits, zero-padded on the left. *)
Fixpoint zeros (n : nat) : string :=
  match n with
  | O => EmptyString
  | S n' => String "0" (zeros n')
  end.

Definition zero_pad (width i : nat) : string :=
  let digits := NilZero.string_of_uint (Nat.to_uint i) in
  append (zeros (width - String.length digits)) digits.

(** [str] of an integer. *)
Definition str_int (z : Z) : string := NilZero.string_of_int (Z.to_int z).

(** [str] of a NumPy [float32]: the integer part, the point, and the digits
    after it, at least one.  NumPy prints the shortest digits that identify
    the value, at most 9 for a [float32]; for a value rounded to a few
    places they are those places.  The exponent form NumPy uses for very
    large and very small values is not represented. *)
Fixpoint cifre (n : nat) (r d : Z) : string :=
  match n with
  | O => EmptyString
  | S n' =>
      if Z.eqb r 0 then EmptyString
      else append (str_int (r * 10 / d)) (cifre n' ((r * 10) mod d) d)
  end.

Definition str_float32 (q : Q) : string :=
  let d := Z.pos (Qden q) in
  let a := Z.abs (Qnum q) in
  let frac := cifre 9 (a mod d) d in
  append (if Z.ltb (Qnum q) 0 then "-" else EmptyString)
    (append (str_int (a / d))
       (String "." (match frac with EmptyString => "0" | _ => frac end))).

(** ** Persistence: [salva_risultati] *)

(** The JSON document [json.dump] writes for a list of flat dictionaries: an
    array of objects whose members are scalars.  The text layer of the [json]
    module (printing, [indent=4], parsing) is the library's and is not
    modelled: a document stands for its text. *)
Inductive json : Type :=
| JInt (z : Z)
| JFloat (q : Q)
| JString (s : string).

Definition json_doc : Type := list (list (string * json)).

(** The encoder of [json.dump(..., default=str)]: [int], [float] and [str]
    are written natively; any other object goes through [default], here
    [str], and is written as a JSON string. *)
Definition json_encode (v : pyval) : json :=
  match v with
  | PyStr s => JString s
  | PyNum (PyInt z) => JInt z
  | PyNum (PyFloat q) => JFloat q
  | PyNum (NpInt z) => JString (str_int z)
  | PyNum (NpFloat32 q) => JString (str_float32 q)
  end.

Definition json_dump (rilevamenti : list rilevamento) : json_doc :=
  map (map (fun kv => (fst kv, json_encode (snd kv)))) rilevamenti.

(** [json.load]. *)
Definition json_decode (j : json) : pyval :=
  match j with
  | JInt z => PyNum (PyInt z)
  | JFloat q => PyNum (PyFloat q)
  | JString s => PyStr s
  end.

Definition json_load (doc : json_doc) : list rilevamento :=
  map (map (fun kv => (fst kv, json_decode (snd kv)))) doc.

(** [os.path.join(session_dir, "detections.json")]. *)
Fixpoint ends_with_slash (s : string) : bool :=
  match s with
  | EmptyString => false
  | String c EmptyString => Ascii.eqb c "/"
  | String _ s' => ends_with_slash s'
  end.

Definition path_join (a b : string) : string :=
  match a with
  | EmptyString => b
  | _ => if ends_with_slash a then append a b
         else append a (String "/" b)
  end.

(** [salva_risultati]: the path and the document written there. *)
Definition salva_risultati (rilevamenti : list rilevamento)
  (session_dir : string) : string * json_doc :=
  (path_join session_dir "detections.json", json_dump rilevamenti).

(** ** Live mode: configuration, camera and rolling buffer *)

Definition N_FRAME_CALIBRAZIONE : nat := 50.
Definition BUFFER_SIZE : nat := 100.
Definition aggiorna_fondo_ogni : nat := 30.

(** The camera is the supply of frames [cap.read()] will still deliver,
    each given by its grayscale samples.  [acquisisci_frame] raises
    RuntimeError when [cap.read()] fails, and [cv2.cvtColor] raises
    [cv2.error] on a frame without pixels. *)
Definition camera : Type := list (ndarray Z).

Definition acquisisci_frame (cap : camera) : result (ndarray Z * camera) :=
  match cap with
  | [] => Raise RuntimeError
  | gray :: cap' =>
      if Nat.eqb (size gray) 0 then Raise Cv2Error else Ok (gray, cap')
  end.

(** Every frame of the supply has at least one pixel. *)
Definition con_pixel (cap : camera) : Prop :=
  Forall (fun gray => size gray <> O) cap.

(** [collections.deque(iterable, maxlen)]: the last [maxlen] items. *)
Definition deque_new {A : Type} (l : list A) (maxlen : nat) : list A :=
  skipn (length l - maxlen) l.

(** [deque.append] with a [maxlen]: the item is added on the right and, when
    the length then exceeds [maxlen], the leftmost item is dropped. *)
Definition deque_append {A : Type} (maxlen : nat) (b : list A) (x : A)
  : list A :=
  let b' := b ++ [x] in
  if Nat.ltb maxlen (length b') then tl b' else b'.

(** The [for i in range(N)] acquisition loop of [calibra]. *)
Fixpoint acquisisci_n (n : nat) (cap : camera) (frames_cal : list (ndarray Z))
  : result (list (ndarray Z) * camera) :=
  match n with
  | O => Ok (frames_cal, cap)
  | S n' =>
      rbind (acquisisci_frame cap) (fun gc =>
        acquisisci_n n' (snd gc) (frames_cal ++ [fst gc]))
  end.

(** [calibra]: the initial background and buffer, and the camera after it. *)
Definition calibra (cap : camera)
  : M (ndarray Q * list (ndarray Z) * camera) :=
  '(frames_cal, cap') <- lift (acquisisci_n N_FRAME_CALIBRAZIONE cap []) ;;
  fondo <- invoke CFondo (calcola_fondo_mediano frames_cal) ;;
  ret (fondo, deque_new frames_cal BUFFER_SIZE, cap').

(** The session state of [live_detector.main]. *)
Record live_state : Type := mk_live {
  fondo : ndarray Q;
  buffer : list (ndarray Z);
  n_frame : nat;
  tutti_rilevamenti : list rilevamento
}.

Section Pipeline.

(** scikit-image: [regionprops(label(maschera, connectivity=2))]. *)
Variable regionprops_label : ndarray Z -> list RegionProps.

(** [np.degrees]. *)
Variable np_degrees : Q -> Q.

(** [datetime] objects and their [isoformat()]. *)
Variable datetime : Type.
Variable isoformat : datetime -> string.

Definition to_detrito (obj : RegionProps) : detrito :=
  {| d_centroid := centroid obj;
     d_bbox := bbox obj;
     d_area := area obj;
     d_eccentricita := py_round (eccentricity obj) 4;
     d_orientazione := py_round (np_degrees (orientation obj)) 2;
     d_lunghezza := py_round (major_axis_length obj) 2;
     d_larghezza := py_round (minor_axis_length obj) 2 |}.

Definition to_stella (obj : RegionProps) : stella :=
  {| s_centroid := centroid obj;
     s_area := area obj;
     s_eccentricita := py_round (eccentricity obj) 4 |}.

(** The [for obj in proprieta] loop of [classifica_oggetti]; the two lists
    grow by [append], so they keep the labelling order. *)
Fixpoint classifica_loop (proprieta : list RegionProps)
  (detriti : list detrito) (stelle : list stella)
  : list detrito * list stella :=
  match proprieta with
  | [] => (detriti, stelle)
  | obj :: rest =>
      let area := num (area obj) in
      let eccentricita := eccentricity obj in
      if Qgtb AREA_MIN_STELLA area
      then classifica_loop rest detriti stelle
      else if Qle_bool ECCENTRICITA_MIN eccentricita
              && Qle_bool AREA_MIN_STREAK area
      then classifica_loop rest (detriti ++ [to_detrito obj]) stelle
      else classifica_loop rest detriti (stelle ++ [to_stella obj])
  end.

Definition classifica_oggetti (maschera : ndarray Z)
  : list detrito * list stella :=
  classifica_loop (regionprops_label maschera) [] [].

(** ** STEP 5: the whole sequence *)

(** The record of [processa_sequenza].  The centroid, the rounded shape
    values and the area are Python floats or what scikit-image gives;
    [sigma] is the [float32] statistic of the residual, and [round] keeps
    its type. *)
Definition rilevamento_batch (i : nat) (ts : string) (d : detrito) (sigma : Q)
  : rilevamento :=
  [ ("frame_index"%string, PyNum (PyInt (Z.of_nat i)));
    ("timestamp"%string, PyStr ts);
    ("centroid_y"%string, PyNum (PyFloat (py_round (fst (d_centroid d)) 2)));
    ("centroid_x"%string, PyNum (PyFloat (py_round (snd (d_centroid d)) 2)));
    ("area_px"%string, PyNum (d_area d));
    ("eccentricita"%string, PyNum (PyFloat (d_eccentricita d)));
    ("orientazione"%string, PyNum (PyFloat (d_orientazione d)));
    ("lunghezza_px"%string, PyNum (PyFloat (d_lunghezza d)));
    ("sigma_soglia"%string, PyNum (NpFloat32 (py_round sigma 3))) ].

(** [timestamps[i].isoformat() if timestamps else f"frame_{i:04d}"]. *)
Definition timestamp_of (timestamps : option (list datetime)) (i : nat)
  : result string :=
  match timestamps with
  | None | Some [] => Ok (append "frame_" (zero_pad 4 i))
  | Some l =>
      match nth_error l i with
      | Some t => Ok (isoformat t)
      | None => Raise IndexError
      end
  end.

(** One frame of the detection chain, as both drivers run it. *)
Definition detect (frame : ndarray Z) (fondo : ndarray Q)
  : M (list detrito * list stella * Q * Q) :=
  residuo <- invoke CResiduo (sottrai_fondo frame fondo) ;;
  '(maschera, soglia, sigma) <- invoke CSoglia (Ok (sogliatura residuo SIGMA_SOGLIA)) ;;
  '(detriti, stelle) <- invoke CClassifica (Ok (classifica_oggetti maschera)) ;;
  ret (detriti, stelle, soglia, sigma).

(** The [for i, frame in enumerate(frames)] loop. *)
Fixpoint processa_loop (timestamps : option (list datetime))
  (fondo : ndarray Q) (i : nat) (frames : list (ndarray Z))
  (rilevamenti : list rilevamento) : M (list rilevamento) :=
  match frames with
  | [] => ret rilevamenti
  | frame :: rest =>
      '(detriti, _, _, sigma) <- detect frame fondo ;;
      match detriti with
      | [] => processa_loop timestamps fondo (S i) rest rilevamenti
      | _ =>
          ts <- lift (timestamp_of timestamps i) ;;
          processa_loop timestamps fondo (S i) rest
            (rilevamenti ++ map (fun d => rilevamento_batch i ts d sigma) detriti)
      end
  end.

Definition processa_sequenza (frames : list (ndarray Z))
  (timestamps : option (list datetime))
  : M (list rilevamento * ndarray Q) :=
  fondo <- invoke CFondo (calcola_fondo_mediano frames) ;;
  rilevamenti <- processa_loop timestamps fondo 0 frames [] ;;
  ret (rilevamenti, fondo).

(** ** Live mode: the detection loop *)

(** The record of [live_detector.main]. *)
Definition rilevamento_live (n_frame : nat) (ts : datetime) (d : detrito)
  : rilevamento :=
  [ ("frame"%string, PyNum (PyInt (Z.of_nat n_frame)));
    ("timestamp"%string, PyStr (isoformat ts));
    ("centroid_x"%string, PyNum (PyFloat (py_round (snd (d_centroid d)) 2)));
    ("centroid_y"%string, PyNum (PyFloat (py_round (fst (d_centroid d)) 2)));
    ("eccentricita"%string, PyNum (PyFloat (d_eccentricita d)));
    ("orientazione"%string, PyNum (PyFloat (d_orientazione d)));
    ("lunghezza_px"%string, PyNum (PyFloat (d_lunghezza d)));
    ("area_px"%string, PyNum (d_area d)) ].

(** What one turn of the loop reads from outside: the clock ([utcnow()]) and
    the key code [cv2.waitKey(1)] returns. *)
Record tick : Type := mk_tick {
  now : datetime;
  key : Z
}.

(** The body of [while True] up to the background refresh: acquisition,
    detection, logging, buffer and periodic rebuild.  The PNG written next to
    a detection and the overlay window are left out. *)
Definition scansiona (st : live_state) (cap : camera) (ts : datetime)
  : M (live_state * camera) :=
  '(gray, cap') <- lift (acquisisci_frame cap) ;;
  let n_frame' := S (n_frame st) in
  '(detriti, _, _, _) <- detect gray (fondo st) ;;
  let tutti :=
    match detriti with
    | [] => tutti_rilevamenti st
    | _ => tutti_rilevamenti st ++ map (rilevamento_live n_frame' ts) detriti
    end in
  let buffer' := deque_append BUFFER_SIZE (buffer st) gray in
  fondo' <- (if Nat.eqb (n_frame' mod aggiorna_fondo_ogni) 0
             then invoke CFondo (calcola_fondo_mediano buffer')
             else ret (fondo st)) ;;
  ret (mk_live fondo' buffer' n_frame' tutti, cap').

Definition ord (c : ascii) : Z := Z.of_nat (nat_of_ascii c).

(** The key handling that ends the body; [true] is [break]. *)
Definition comando (st : live_state) (cap : camera) (k : Z)
  : M (live_state * camera * bool) :=
  let tasto := Z.land k 255 in
  if Z.eqb tasto (ord "q") then ret (st, cap, true)
  else if Z.eqb tasto (ord "s") then ret (st, cap, false)
  else if Z.eqb tasto (ord "r") then
    '(fondo', buffer', cap') <- calibra cap ;;
    ret (mk_live fondo' buffer' (n_frame st) (tutti_rilevamenti st), cap', false)
  else ret (st, cap, false).

Definition iterazione (st : live_state) (cap : camera) (tk : tick)
  : M (live_state * camera * bool) :=
  '(st1, cap1) <- scansiona st cap (now tk) ;;
  comando st1 cap1 (key tk).

(** The loop over the turns that are given; [true] when it left by [break]. *)
Fixpoint ciclo (ticks : list tick) (st : live_state) (cap : camera)
  : M (live_state * camera * bool) :=
  match ticks with
  | [] => ret (st, cap, false)
  | tk :: rest =>
      '(st', cap', esci) <- iterazione st cap tk ;;
      if (esci : bool) then ret (st', cap', true) else ciclo rest st' cap'
  end.

(** [live_detector.main]: calibration, the loop, and on exit the detections
    saved when there are any. *)
Definition live_main (cap : camera) (ticks : list tick) (session_dir : string)
  : M (live_state * option (string * json_doc)) :=
  '(fondo0, buffer0, cap0) <- calibra cap ;;
  '(st, _, esci) <- ciclo ticks (mk_live fondo0 buffer0 0 []) cap0 ;;
  match esci, tutti_rilevamenti st with
  | true, _ :: _ => ret (st, Some (salva_risultati (tutti_rilevamenti st) session_dir))
  | _, _ => ret (st, None)
  end.

(** * Properties *)

(** ** Ordering and the median *)

Lemma Qgtb_true (x y : Q) : Qgtb x y = true <-> (y < x)%Q.
Proof.
  unfold Qgtb. rewrite negb_true_iff. split; intro H.
  - apply Qnot_le_lt. intro Hle. apply Qle_bool_iff in Hle. congruence.
  - destruct (Qle_bool x y) eqn:E; [|reflexivity].
    apply Qle_bool_iff in E. exfalso. apply (Qlt_not_le _ _ H E).
Qed.

Lemma Qgtb_false (x y : Q) : Qgtb x y = false <-> (x <= y)%Q.
Proof.
  unfold Qgtb. rewrite negb_false_iff. apply Qle_bool_iff.
Qed.

Lemma insert_sorted_length (x : Q) (l : list Q) :
  length (insert_sorted x l) = S (length l).
Proof.
  induction l as [|y l IH]; simpl; [reflexivity|].
  destruct (Qle_bool x y); simpl; [reflexivity | now rewrite IH].
Qed.

Lemma np_sort_length (l : list Q) : length (np_sort l) = length l.
Proof.
  induction l as [|x l IH]; simpl; [reflexivity|].
  now rewrite insert_sorted_length, IH.
Qed.

Lemma insert_sorted_perm (x : Q) (l : list Q) :
  Permutation (x :: l) (insert_sorted x l).
Proof.
  induction l as [|y l IH]; simpl; [apply Permutation_refl|].
  destruct (Qle_bool x y); [apply Permutation_refl|].
  eapply perm_trans; [apply perm_swap|]. now apply perm_skip.
Qed.

Lemma np_sort_perm (l : list Q) : Permutation l (np_sort l).
Proof.
  induction l as [|x l IH]; simpl; [constructor|].
  eapply perm_trans; [apply perm_skip, IH | apply insert_sorted_perm].
Qed.

Lemma insert_sorted_Forall (P : Q -> Prop) (x : Q) (l : list Q) :
  P x -> Forall P l -> Forall P (insert_sorted x l).
Proof.
  intros Hx Hl. eapply Permutation_Forall; [apply insert_sorted_perm|].
  now constructor.
Qed.

Lemma insert_sorted_sorted (x : Q) (l : list Q) :
  StronglySorted Qle l -> StronglySorted Qle (insert_sorted x l).
Proof.
  induction 1 as [|y l Hs IH Hall]; simpl.
  - repeat constructor.
  - destruct (Qle_bool x y) eqn:E.
    + apply Qle_bool_iff in E. constructor; [now constructor|].
      constructor; [exact E|].
      eapply Forall_impl; [|exact Hall]. intros z Hz. eapply Qle_trans; eauto.
    + constructor; [exact IH|].
      apply insert_sorted_Forall; [|exact Hall].
      apply Qlt_le_weak. apply Qgtb_true. unfold Qgtb. now rewrite E.
Qed.

Lemma np_sort_sorted (l : list Q) : StronglySorted Qle (np_sort l).
Proof.
  induction l as [|x l IH]; simpl; [constructor|].
  now apply insert_sorted_sorted.
Qed.

(** The median of the specification: the mean of the two middle order
    statistics (which coincide when the number of samples is odd). *)
Definition is_median (l : list Q) (m : Q) : Prop :=
  exists s, Permutation l s /\ StronglySorted Qle s /\
    (m == (nth ((length l - 1) / 2) s 0 + nth (length l / 2) s 0) / 2)%Q.

Lemma even_half_pred (n : nat) :
  Nat.even n = true -> n <> O -> ((n - 1) / 2 = n / 2 - 1)%nat.
Proof.
  intros He Hn. apply Nat.even_spec in He. destruct He as [k ->].
  assert (Hk : (k <> 0)%nat) by lia.
  replace (2 * k)%nat with (k * 2)%nat by lia. rewrite Nat.div_mul by lia.
  replace (k * 2 - 1)%nat with (1 + (k - 1) * 2)%nat by lia.
  rewrite Nat.div_add by lia. simpl. lia.
Qed.

Lemma odd_half_pred (n : nat) :
  Nat.even n = false -> ((n - 1) / 2 = n / 2)%nat.
Proof.
  intros He.
  assert (Ho : Nat.odd n = true) by (unfold Nat.odd; now rewrite He).
  apply Nat.odd_spec in Ho. destruct Ho as [k ->].
  replace (2 * k + 1 - 1)%nat with (k * 2)%nat by lia.
  rewrite Nat.div_mul by lia.
  replace (2 * k + 1)%nat with (1 + k * 2)%nat by lia.
  rewrite Nat.div_add by lia. reflexivity.
Qed.

Lemma np_median_is_median (l : list Q) :
  l <> [] -> is_median l (np_median l).
Proof.
  intros Hne. exists (np_sort l).
  split; [apply np_sort_perm|]. split; [apply np_sort_sorted|].
  unfold np_median. destruct (Nat.even (length l)) eqn:E.
  - rewrite even_half_pred; [reflexivity | exact E |].
    destruct l; [congruence | simpl; lia].
  - rewrite (odd_half_pred _ E). field.
Qed.

(** Counting the samples below a value and equal to it. *)
Definition count_lt (v : Q) (l : list Q) : nat :=
  length (filter (fun x => Qgtb v x) l).

Definition count_eq (v : Q) (l : list Q) : nat :=
  length (filter (fun x => Qeq_bool x v) l).

Lemma count_perm (f : Q -> bool) (l s : list Q) :
  Permutation l s -> length (filter f l) = length (filter f s).
Proof.
  induction 1; simpl; try congruence.
  - destruct (f x); simpl; congruence.
  - destruct (f x), (f y); reflexivity.
Qed.

Lemma count_lt_eq_le (v : Q) (l : list Q) :
  (count_lt v l + count_eq v l <= length l)%nat.
Proof.
  unfold count_lt, count_eq. induction l as [|x l IH]; simpl; [lia|].
  destruct (Qgtb v x) eqn:E1, (Qeq_bool x v) eqn:E2; simpl; try lia.
  apply Qgtb_true in E1. apply Qeq_bool_iff in E2.
  rewrite E2 in E1. exfalso. apply (Qlt_irrefl _ E1).
Qed.

Lemma count_above_zero (v : Q) (l : list Q) :
  Forall (fun x => v < x)%Q l -> count_lt v l = O /\ count_eq v l = O.
Proof.
  unfold count_lt, count_eq. induction 1 as [|x l Hx _ [IH1 IH2]]; simpl; [auto|].
  assert (E1 : Qgtb v x = false) by (apply Qgtb_false; now apply Qlt_le_weak).
  assert (E2 : Qeq_bool x v = false).
  { destruct (Qeq_bool x v) eqn:E; [|reflexivity]. apply Qeq_bool_iff in E.
    rewrite E in Hx. exfalso. apply (Qlt_irrefl _ Hx). }
  rewrite E1, E2. auto.
Qed.

Lemma count_lt_zero_ge (v : Q) (l : list Q) :
  Forall (fun x => v <= x)%Q l -> count_lt v l = O.
Proof.
  unfold count_lt. induction 1 as [|x l Hx _ IH]; simpl; [auto|].
  assert (E1 : Qgtb v x = false) by (now apply Qgtb_false).
  now rewrite E1.
Qed.

(** In a sorted sample, the positions after the smaller values and within the
    run of values equal to [v] hold [v]. *)
Lemma sorted_nth_run (v : Q) (s : list Q) :
  StronglySorted Qle s ->
  forall i, (count_lt v s <= i < count_lt v s + count_eq v s)%nat ->
  (nth i s 0 == v)%Q.
Proof.
  induction 1 as [|x s Hs IH Hall]; intros i Hi.
  - unfold count_lt, count_eq in Hi. simpl in Hi. lia.
  - destruct (Qlt_le_dec x v) as [Hlt | Hge].
    + assert (E1 : Qgtb v x = true) by (now apply Qgtb_true).
      assert (E2 : Qeq_bool x v = false).
      { destruct (Qeq_bool x v) eqn:E; [|reflexivity]. apply Qeq_bool_iff in E.
        rewrite E in Hlt. exfalso. apply (Qlt_irrefl _ Hlt). }
      unfold count_lt, count_eq in Hi. simpl in Hi. rewrite E1, E2 in Hi.
      simpl in Hi. destruct i as [|i]; [lia|]. simpl. apply IH.
      unfold count_lt, count_eq. lia.
    + assert (Hall' : Forall (fun y => v <= y)%Q s).
      { eapply Forall_impl; [|exact Hall]. intros z Hz. eapply Qle_trans; eauto. }
      assert (E1 : Qgtb v x = false) by (now apply Qgtb_false).
      pose proof (count_lt_zero_ge Hall') as Hz.
      destruct (Qeq_bool x v) eqn:E2.
      * destruct i as [|i]; [now apply Qeq_bool_iff|].
        simpl. apply IH. unfold count_lt, count_eq in *. simpl in Hi.
        rewrite E1, E2 in Hi. simpl in Hi. lia.
      * assert (Hgt : (v < x)%Q).
        { apply Qle_lt_or_eq in Hge. destruct Hge as [Hgt | Heq]; [exact Hgt|].
          apply Qeq_bool_neq in E2. exfalso. apply E2. now symmetry. }
        assert (Hall2 : Forall (fun y => v < y)%Q s).
        { eapply Forall_impl; [|exact Hall]. intros z Hz'.
          eapply Qlt_le_trans; eauto. }
        destruct (count_above_zero Hall2) as [Ha Hb].
        unfold count_lt, count_eq in *. simpl in Hi.
        rewrite E1, E2 in Hi. lia.
Qed.

(** A value held by a strict majority of the samples is their median. *)
Lemma np_median_majority (v : Q) (l : list Q) :
  (length l < 2 * count_eq v l)%nat -> (np_median l == v)%Q.
Proof.
  intros Hmaj.
  pose proof (count_lt_eq_le v l) as Hle.
  set (n := length l) in *.
  assert (Ha : count_lt v (np_sort l) = count_lt v l)
    by (symmetry; apply count_perm, np_sort_perm).
  assert (Hb : count_eq v (np_sort l) = count_eq v l)
    by (symmetry; apply count_perm, np_sort_perm).
  assert (Hrun : forall i, (count_lt v l <= i < count_lt v l + count_eq v l)%nat ->
                           (nth i (np_sort l) 0 == v)%Q).
  { intros i Hi. apply sorted_nth_run; [apply np_sort_sorted|]. now rewrite Ha, Hb. }
  pose proof (Nat.div_mod_eq n 2) as Hdm.
  pose proof (Nat.mod_upper_bound n 2 ltac:(lia)) as Hmod.
  unfold np_median. fold n. destruct (Nat.even n) eqn:E.
  - assert (Hm : (n mod 2 = 0)%nat).
    { apply Nat.even_spec in E. destruct E as [k Hk]. rewrite Hk.
      replace (2 * k)%nat with (k * 2)%nat by lia. apply Nat.Div0.mod_mul. }
    rewrite (Hrun (n / 2 - 1)%nat) by lia.
    rewrite (Hrun (n / 2)%nat) by lia. field.
  - apply Hrun. lia.
Qed.

(** ** The background model *)

(** All frames of a collection have the resolution [sh]. *)
Definition same_resolution (sh : nat * nat) (frames : list (ndarray Z)) : Prop :=
  Forall (fun f => shape f = sh) frames.

(** Two frames of the collection differ in resolution. *)
Definition mismatched (frames : list (ndarray Z)) : Prop :=
  exists f g, In f frames /\ In g frames /\ shape f <> shape g.

(** The samples of pixel [p] through the collection, as floats. *)
Definition pixel_samples (p : nat) (frames : list (ndarray Z)) : list Q :=
  map (fun f => inject_Z (nth p (data f) 0%Z)) frames.

(** The number of frames in which pixel [p] holds the value [v]. *)
Definition frames_holding (p : nat) (v : Z) (frames : list (ndarray Z)) : nat :=
  length (filter (fun f => Z.eqb (nth p (data f) 0%Z) v) frames).

Lemma shape_eqb_eq (s t : nat * nat) : shape_eqb s t = true <-> s = t.
Proof.
  destruct s as [a b], t as [c d]. unfold shape_eqb. simpl.
  rewrite andb_true_iff, !Nat.eqb_eq. split.
  - intros [-> ->]. reflexivity.
  - intros H. inversion H. auto.
Qed.

Lemma np_stack_same (sh : nat * nat) (frames : list (ndarray Z)) :
  frames <> [] -> same_resolution sh frames ->
  np_stack frames = Ok (sh, map (@data Z) frames).
Proof.
  intros Hne Hsame. destruct frames as [|f rest]; [congruence|].
  inversion Hsame as [|? ? Hf Hrest]; subst. unfold np_stack.
  replace (forallb (fun g => shape_eqb (shape g) (shape f)) rest) with true;
    [reflexivity|].
  symmetry. apply forallb_forall. intros g Hg. apply shape_eqb_eq.
  rewrite Forall_forall in Hrest. now apply Hrest.
Qed.

Lemma np_stack_mismatched (frames : list (ndarray Z)) :
  mismatched frames -> np_stack frames = Raise ValueError.
Proof.
  intros (f & g & Hf & Hg & Hd). destruct frames as [|h rest]; [reflexivity|].
  unfold np_stack.
  destruct (forallb (fun g0 => shape_eqb (shape g0) (shape h)) rest) eqn:E;
    [|reflexivity].
  exfalso. rewrite forallb_forall in E.
  assert (Hh : forall x, In x (h :: rest) -> shape x = shape h).
  { intros x [<- | Hx]; [reflexivity|]. now apply shape_eqb_eq, E. }
  apply Hd. now rewrite (Hh f Hf), (Hh g Hg).
Qed.

Lemma np_stack_Ok_inv (frames : list (ndarray Z)) sh planes :
  np_stack frames = Ok (sh, planes) ->
  frames <> [] /\ same_resolution sh frames /\ planes = map (@data Z) frames.
Proof.
  destruct frames as [|f rest]; [discriminate|]. unfold np_stack.
  destruct (forallb _ rest) eqn:E; [|discriminate].
  intros H. inversion H; subst. split; [discriminate|]. split; [|reflexivity].
  constructor; [reflexivity|]. apply Forall_forall. intros g Hg.
  rewrite forallb_forall in E. now apply shape_eqb_eq, E.
Qed.

Lemma column_astype (p : nat) (frames : list (ndarray Z)) :
  column p (map astype_float (map (@data Z) frames)) = pixel_samples p frames.
Proof.
  unfold column, pixel_samples, astype_float. rewrite !map_map.
  apply map_ext. intros f. change 0%Q with (inject_Z 0). apply map_nth.
Qed.

(** The background of a well-formed collection, in closed form. *)
Definition fondo_atteso (sh : nat * nat) (frames : list (ndarray Z)) : ndarray Q :=
  mk_ndarray sh (map (fun p => np_median (pixel_samples p frames))
                     (seq 0 (fst sh * snd sh))).

Lemma calcola_fondo_mediano_ok (sh : nat * nat) (frames : list (ndarray Z)) :
  frames <> [] -> same_resolution sh frames -> (0 < fst sh * snd sh)%nat ->
  calcola_fondo_mediano frames = Ok (fondo_atteso sh frames).
Proof.
  intros Hne Hsame Hpos. unfold calcola_fondo_mediano.
  rewrite (np_stack_same Hne Hsame). simpl. unfold size. simpl.
  destruct (Nat.eqb_spec (fst sh * snd sh) 0) as [E | _]; [lia|].
  unfold fondo_atteso, np_median_axis0. f_equal. f_equal.
  apply map_ext. intros p. now rewrite column_astype.
Qed.

Lemma calcola_fondo_mediano_no_pixels (sh : nat * nat) (frames : list (ndarray Z)) :
  frames <> [] -> same_resolution sh frames -> (fst sh * snd sh = 0)%nat ->
  calcola_fondo_mediano frames = Raise ValueError.
Proof.
  intros Hne Hsame Hz. unfold calcola_fondo_mediano.
  rewrite (np_stack_same Hne Hsame). simpl. unfold size. simpl.
  now rewrite Hz.
Qed.

Lemma calcola_fondo_mediano_exn (frames : list (ndarray Z)) e :
  calcola_fondo_mediano frames = Raise e -> e = ValueError.
Proof.
  unfold calcola_fondo_mediano. destruct frames as [|f rest]; simpl.
  - congruence.
  - destruct (forallb _ rest); simpl; [|congruence].
    destruct (Nat.eqb _ 0); congruence.
Qed.

Lemma nth_map_seq {A : Type} (f : nat -> A) (n p : nat) (d : A) :
  (p < n)%nat -> nth p (map f (seq 0 n)) d = f p.
Proof.
  intros Hp. rewrite (nth_indep _ d (f O)) by (now rewrite length_map, length_seq).
  rewrite (map_nth f). now rewrite seq_nth.
Qed.

Lemma nth_fondo_atteso (sh : nat * nat) (frames : list (ndarray Z)) (p : nat) :
  (p < fst sh * snd sh)%nat ->
  nth p (data (fondo_atteso sh frames)) 0 = np_median (pixel_samples p frames).
Proof.
  intros Hp. unfold fondo_atteso. simpl.
  now apply (nth_map_seq (fun q => np_median (pixel_samples q frames))).
Qed.

Lemma count_eq_pixel_samples (p : nat) (v : Z) (frames : list (ndarray Z)) :
  count_eq (inject_Z v) (pixel_samples p frames) = frames_holding p v frames.
Proof.
  unfold count_eq, pixel_samples, frames_holding.
  induction frames as [|f rest IH]; simpl; [reflexivity|].
  assert (E : Qeq_bool (inject_Z (nth p (data f) 0%Z)) (inject_Z v)
              = Z.eqb (nth p (data f) 0%Z) v).
  { unfold Qeq_bool, inject_Z. simpl. now rewrite !Z.mul_1_r. }
  rewrite E. destruct (Z.eqb _ v); simpl; now rewrite IH.
Qed.

(** C5. For a non-empty collection of frames of one resolution and any pixel
    of that resolution, [calcola_fondo_mediano] returns a grid of the same
    resolution whose value at the pixel is the median of the pixel's samples
    across the collection; and when one value is held at that pixel by at
    least 90% of the frames, the background there is exactly that value. *)
Theorem calcola_fondo_mediano_median :
  forall (sh : nat * nat) (frames : list (ndarray Z)) (p : nat),
    frames <> [] -> same_resolution sh frames -> (p < fst sh * snd sh)%nat ->
    exists fondo,
      calcola_fondo_mediano frames = Ok fondo /\
      shape fondo = sh /\
      length (data fondo) = (fst sh * snd sh)%nat /\
      is_median (pixel_samples p frames) (nth p (data fondo) 0) /\
      (forall v : Z,
          (9 * length frames <= 10 * frames_holding p v frames)%nat ->
          (nth p (data fondo) 0 == inject_Z v)%Q).
Proof.
  intros sh frames p Hne Hsame Hp. exists (fondo_atteso sh frames).
  split; [apply calcola_fondo_mediano_ok; auto; lia|].
  split; [reflexivity|].
  split; [simpl; now rewrite length_map, length_seq|].
  rewrite (nth_fondo_atteso _ _ Hp). split.
  - apply np_median_is_median. unfold pixel_samples.
    destruct frames; [congruence | discriminate].
  - intros v Hv. apply np_median_majority.
    rewrite count_eq_pixel_samples. unfold pixel_samples. rewrite length_map.
    assert (length frames <> 0)%nat by (destruct frames; simpl; congruence).
    lia.
Qed.

(** ** The residual *)

Lemma broadcast_dim_refl (a : nat) : broadcast_dim a a = Some a.
Proof. unfold broadcast_dim. now rewrite Nat.eqb_refl. Qed.

(** With the array's own shape, the broadcast view is the array. *)
Lemma bget_flat {A : Type} (d : A) (a : ndarray A) (p : nat) :
  (p < size a)%nat ->
  bget d a (p / snd (shape a)) (p mod snd (shape a)) = nth p (data a) d.
Proof.
  unfold size, bget. destruct (shape a) as [r c]. simpl. intros Hp.
  assert (Hc : c <> O) by (intro; subst; lia).
  pose proof (Nat.div_mod_eq p c) as Hdm.
  f_equal.
  destruct (Nat.eqb_spec r 1) as [-> | _], (Nat.eqb_spec c 1) as [-> | _].
  - lia.
  - rewrite Nat.mod_small by lia. lia.
  - rewrite Nat.div_1_r. lia.
  - lia.
Qed.

Lemma clip0_nonneg (x : Q) : (0 <= clip0 x)%Q.
Proof. unfold clip0. apply Q.le_max_r. Qed.

Lemma clip0_pos (x : Q) : (0 <= x)%Q -> (clip0 x == x)%Q.
Proof. unfold clip0. intros H. now apply Q.max_l. Qed.

Lemma clip0_neg (x : Q) : (x <= 0)%Q -> (clip0 x == 0)%Q.
Proof. unfold clip0. intros H. now apply Q.max_r. Qed.

(** C7. For a frame and a background of the same resolution, [sottrai_fondo]
    returns a residual of that resolution in which every pixel is
    non-negative, equals [frame - background] where the frame is at least as
    bright as the background, and is 0 where the frame is darker. *)
Theorem sottrai_fondo_clip :
  forall (frame : ndarray Z) (fondo : ndarray Q),
    shape frame = shape fondo ->
    exists residuo,
      sottrai_fondo frame fondo = Ok residuo /\
      shape residuo = shape frame /\
      length (data residuo) = size frame /\
      Forall (fun x => 0 <= x)%Q (data residuo) /\
      forall p, (p < size frame)%nat ->
        let f := inject_Z (nth p (data frame) 0%Z) in
        let b := nth p (data fondo) 0 in
        let r := nth p (data residuo) 0 in
        (b <= f -> r == f - b)%Q /\ (f < b -> r == 0)%Q.
Proof.
  intros frame fondo Hsh. unfold sottrai_fondo. rewrite <- Hsh.
  rewrite !broadcast_dim_refl. eexists. split; [reflexivity|]. simpl.
  split; [now destruct (shape frame)|].
  split; [now rewrite !length_map, length_seq|].
  split.
  - apply Forall_forall. intros x Hx. apply in_map_iff in Hx.
    destruct Hx as (y & <- & _). apply clip0_nonneg.
  - intros p Hp. rewrite map_map.
    rewrite (nth_map_seq (fun q => clip0 _)) by exact Hp.
    assert (Hf : bget 0 (mk_ndarray (shape frame) (astype_float (data frame)))
                      (p / snd (shape frame)) (p mod snd (shape frame))
                 = inject_Z (nth p (data frame) 0%Z)).
    { pose proof (@bget_flat Q 0 (mk_ndarray (shape frame) (astype_float (data frame))) p)
        as H.
      unfold size in H. cbn [shape data] in H. rewrite H by exact Hp.
      unfold astype_float. change 0%Q with (inject_Z 0). apply map_nth. }
    assert (Hb : bget 0 fondo (p / snd (shape frame)) (p mod snd (shape frame))
                 = nth p (data fondo) 0).
    { rewrite Hsh. apply bget_flat. unfold size in *. now rewrite <- Hsh. }
    rewrite Hf, Hb. split; intros H.
    + apply clip0_pos. now apply (Qle_minus_iff (nth p (data fondo) 0)).
    + apply clip0_neg. apply Qlt_le_weak in H.
      apply (Qle_minus_iff (inject_Z (nth p (data frame) 0%Z))) in H.
      apply Qopp_le_compat in H. 
      setoid_replace (inject_Z (nth p (data frame) 0%Z) - nth p (data fondo) 0)%Q
        with (- (nth p (data fondo) 0 + - inject_Z (nth p (data frame) 0%Z)))%Q
        by ring.
      exact H.
Qed.

(** ** The threshold *)

Lemma Forall_nth_default {A : Type} (P : A -> Prop) (l : list A) (d : A) (i : nat) :
  P d -> Forall P l -> P (nth i l d).
Proof.
  intros Hd Hl. revert i. induction Hl as [|x l Hx _ IH]; intros [|i]; simpl; auto.
Qed.

Lemma np_median_nonneg (l : list Q) :
  Forall (fun x => 0 <= x)%Q l -> (0 <= np_median l)%Q.
Proof.
  intros H.
  assert (Hs : Forall (fun x => 0 <= x)%Q (np_sort l))
    by (eapply Permutation_Forall; [apply np_sort_perm | exact H]).
  assert (Hn : forall i, (0 <= nth i (np_sort l) 0)%Q)
    by (intro i; apply Forall_nth_default; [apply Qle_refl | exact Hs]).
  unfold np_median. destruct (Nat.even (length l)); [|apply Hn].
  apply Qle_shift_div_l; [reflexivity|]. rewrite Qmult_0_l.
  replace 0%Q with (0 + 0)%Q by reflexivity. apply Qplus_le_compat; apply Hn.
Qed.

Lemma sigma_nonneg (residuo : ndarray Q) (k : Q) :
  (0 <= snd (sogliatura residuo k))%Q.
Proof.
  unfold sogliatura. cbn [snd]. apply Qmult_le_0_compat; [|discriminate].
  apply np_median_nonneg. apply Forall_forall. intros x Hx.
  apply in_map_iff in Hx. destruct Hx as (y & <- & _). apply Qabs_nonneg.
Qed.

Lemma mask_count (soglia : Q) (l : list Q) :
  length (filter (fun v => Z.eqb v 1)
                 (map (fun x => if Qgtb x soglia then 1%Z else 0%Z) l))
  = length (filter (fun x => Qgtb x soglia) l).
Proof.
  induction l as [|x l IH]; [reflexivity|].
  cbn [map filter]. destruct (Qgtb x soglia); cbn [Z.eqb Pos.eqb filter length];
    now rewrite IH.
Qed.

Lemma flagged_count (residuo : ndarray Q) (k : Q) :
  flagged (fst (fst (sogliatura residuo k)))
  = length (filter (fun x => Qgtb x (snd (fst (sogliatura residuo k))))
                   (data residuo)).
Proof.
  unfold flagged, sogliatura. cbn [fst snd data]. apply mask_count.
Qed.

Lemma filter_length_mono {A : Type} (f g : A -> bool) (l : list A) :
  (forall x, f x = true -> g x = true) ->
  (length (filter f l) <= length (filter g l))%nat.
Proof.
  intros H. induction l as [|x l IH]; simpl; [lia|].
  destruct (f x) eqn:E.
  - rewrite (H x E). simpl. lia.
  - destruct (g x); simpl; lia.
Qed.

(** C2. [sogliatura] returns a mask of the residual's shape in which a pixel
    is 1 exactly when its residual is strictly above the threshold (and 0
    otherwise), with [sigma = 1.4826 * MAD] and
    [threshold = median_r + k * sigma], where [median_r] is the median of the
    residual and MAD the median of the absolute deviations from it. *)
Theorem sogliatura_spec :
  forall (residuo : ndarray Q) (k : Q),
    let '(maschera, soglia, sigma) := sogliatura residuo k in
    shape maschera = shape residuo /\
    length (data maschera) = length (data residuo) /\
    (forall p, (p < length (data residuo))%nat ->
       (nth p (data maschera) 0%Z = 1%Z <-> (soglia < nth p (data residuo) 0)%Q) /\
       (nth p (data maschera) 0%Z = 0%Z <-> (nth p (data residuo) 0 <= soglia)%Q)) /\
    exists median_r mad,
      (data residuo <> [] ->
         is_median (data residuo) median_r /\
         is_median (map (fun x => Qabs (x - median_r)) (data residuo)) mad) /\
      (sigma == 1.4826 * mad)%Q /\
      (soglia == median_r + k * sigma)%Q.
Proof.
  intros residuo k. unfold sogliatura.
  set (mediana := np_median (data residuo)).
  set (mad := np_median (map (fun x => Qabs (x - mediana)) (data residuo))).
  set (soglia := (mediana + k * (mad * 1.4826))%Q).
  cbn [shape data]. split; [reflexivity|]. split; [now rewrite length_map|]. split.
  - intros p Hp.
    rewrite (nth_indep _ 0%Z ((fun x => if Qgtb x soglia then 1%Z else 0%Z) 0%Q))
      by (now rewrite length_map).
    rewrite (map_nth (fun x => if Qgtb x soglia then 1%Z else 0%Z)).
    destruct (Qgtb (nth p (data residuo) 0) soglia) eqn:E.
    + pose proof (proj1 (Qgtb_true _ _) E) as Hgt. split; split; intro H;
        try reflexivity; try exact Hgt; try discriminate.
      exfalso. apply (Qlt_not_le _ _ Hgt H).
    + pose proof (proj1 (Qgtb_false _ _) E) as Hle. split; split; intro H;
        try reflexivity; try exact Hle; try discriminate.
      exfalso. apply (Qlt_not_le _ _ H Hle).
  - exists mediana, mad. split; [|split; [apply Qmult_comm | reflexivity]].
    intros Hne. split; apply np_median_is_median; [exact Hne|].
    destruct (data residuo); [congruence | discriminate].
Qed.

(** C4. For a fixed residual, the number of flagged pixels does not grow
    with the sigma multiplier: for [0 <= k1 <= k2], the mask of [k2] flags at
    most as many pixels as the mask of [k1]. *)
Theorem sogliatura_antitone :
  forall (residuo : ndarray Q) (k1 k2 : Q),
    (0 <= k1)%Q -> (k1 <= k2)%Q ->
    (flagged (fst (fst (sogliatura residuo k2)))
     <= flagged (fst (fst (sogliatura residuo k1))))%nat.
Proof.
  intros residuo k1 k2 _ Hk. rewrite !flagged_count.
  apply filter_length_mono. intros x Hx.
  apply Qgtb_true in Hx. apply Qgtb_true.
  eapply Qle_lt_trans; [|exact Hx].
  pose proof (sigma_nonneg residuo k1) as Hs.
  unfold sogliatura in *. cbn [fst snd] in *.
  apply Qplus_le_r. apply Qmult_le_compat_r; assumption.
Qed.

(** ** Classification *)

Lemma classifica_loop_closed (proprieta : list RegionProps)
  (detriti : list detrito) (stelle : list stella) :
  classifica_loop proprieta detriti stelle
  = (detriti ++ map to_detrito (filter (spec_is Debris) proprieta),
     stelle ++ map to_stella (filter (spec_is Star) proprieta)).
Proof.
  revert detriti stelle.
  induction proprieta as [|obj rest IH]; intros detriti stelle.
  - simpl. now rewrite !app_nil_r.
  - cbn [classifica_loop filter].
    destruct (Qgtb AREA_MIN_STELLA (num (area obj))) eqn:E1.
    + replace (spec_is Debris obj) with false
        by (unfold spec_is, spec_rule; now rewrite E1).
      replace (spec_is Star obj) with false
        by (unfold spec_is, spec_rule; now rewrite E1).
      apply IH.
    + destruct (Qle_bool ECCENTRICITA_MIN (eccentricity obj)
                && Qle_bool AREA_MIN_STREAK (num (area obj))) eqn:E2.
      * replace (spec_is Debris obj) with true
          by (unfold spec_is, spec_rule; now rewrite E1, E2).
        replace (spec_is Star obj) with false
          by (unfold spec_is, spec_rule; now rewrite E1, E2).
        rewrite IH. cbn [map]. now rewrite <- app_assoc.
      * replace (spec_is Debris obj) with false
          by (unfold spec_is, spec_rule; now rewrite E1, E2).
        replace (spec_is Star obj) with true
          by (unfold spec_is, spec_rule; now rewrite E1, E2).
        rewrite IH. cbn [map]. now rewrite <- app_assoc.
Qed.

Lemma classifica_oggetti_closed (maschera : ndarray Z) :
  classifica_oggetti maschera
  = (map to_detrito (filter (spec_is Debris) (regionprops_label maschera)),
     map to_stella (filter (spec_is Star) (regionprops_label maschera))).
Proof. unfold classifica_oggetti. now rewrite classifica_loop_closed. Qed.

Lemma spec_is_Debris_iff (obj : RegionProps) :
  spec_is Debris obj = true <->
  (AREA_MIN_STELLA <= num (area obj) /\
   ECCENTRICITA_MIN <= eccentricity obj /\
   AREA_MIN_STREAK <= num (area obj))%Q.
Proof.
  unfold spec_is, spec_rule.
  destruct (Qgtb AREA_MIN_STELLA (num (area obj))) eqn:E1.
  - apply Qgtb_true in E1. split; [discriminate|]. intros (H & _).
    exfalso. apply (Qlt_not_le _ _ E1 H).
  - apply Qgtb_false in E1.
    destruct (Qle_bool ECCENTRICITA_MIN (eccentricity obj)) eqn:E2;
      destruct (Qle_bool AREA_MIN_STREAK (num (area obj))) eqn:E3; cbn [andb].
    + apply Qle_bool_iff in E2, E3. tauto.
    + split; [discriminate|]. intros (_ & _ & H). apply Qle_bool_iff in H. congruence.
    + split; [discriminate|]. intros (_ & H & _). apply Qle_bool_iff in H. congruence.
    + split; [discriminate|]. intros (_ & H & _). apply Qle_bool_iff in H. congruence.
Qed.

Lemma spec_is_Star_iff (obj : RegionProps) :
  spec_is Star obj = true <->
  (AREA_MIN_STELLA <= num (area obj) /\
   ~ (ECCENTRICITA_MIN <= eccentricity obj /\
      AREA_MIN_STREAK <= num (area obj)))%Q.
Proof.
  unfold spec_is, spec_rule.
  destruct (Qgtb AREA_MIN_STELLA (num (area obj))) eqn:E1.
  - apply Qgtb_true in E1. split; [discriminate|]. intros (H & _).
    exfalso. apply (Qlt_not_le _ _ E1 H).
  - apply Qgtb_false in E1.
    destruct (Qle_bool ECCENTRICITA_MIN (eccentricity obj)) eqn:E2;
      destruct (Qle_bool AREA_MIN_STREAK (num (area obj))) eqn:E3; cbn [andb].
    + apply Qle_bool_iff in E2, E3. split; [discriminate|]. tauto.
    + split; [|reflexivity]. intros _. split; [exact E1|].
      intros (_ & H). apply Qle_bool_iff in H. congruence.
    + split; [|reflexivity]. intros _. split; [exact E1|].
      intros (H & _). apply Qle_bool_iff in H. congruence.
    + split; [|reflexivity]. intros _. split; [exact E1|].
      intros (H & _). apply Qle_bool_iff in H. congruence.
Qed.

(** C1. For every mask, [classifica_oggetti] returns, in labelling order, the
    Debris built from the regions with area >= 3, eccentricity >= 0.90 and
    area >= 15, and the Stars built from the other regions of area >= 3;
    regions of area < 3 appear in neither list and no region appears in
    both.  Both Debris comparisons are inclusive: area 15 with eccentricity
    0.90 is Debris, area 14 with eccentricity 0.90 is Star. *)
Theorem classifica_oggetti_rule :
  forall maschera : ndarray Z,
    let proprieta := regionprops_label maschera in
    classifica_oggetti maschera
    = (map to_detrito (filter (spec_is Debris) proprieta),
       map to_stella (filter (spec_is Star) proprieta)) /\
    (forall obj,
        (spec_is Debris obj = true <->
         (3 <= num (area obj) /\ 0.90 <= eccentricity obj /\
          15 <= num (area obj))%Q) /\
        (spec_is Star obj = true <->
         (3 <= num (area obj) /\
          ~ (0.90 <= eccentricity obj /\ 15 <= num (area obj)))%Q) /\
        ((num (area obj) < 3)%Q <->
         spec_is Debris obj = false /\ spec_is Star obj = false) /\
        (spec_is Debris obj = true -> spec_is Star obj = false) /\
        ((num (area obj) == 15)%Q -> (eccentricity obj == 0.90)%Q ->
         spec_is Debris obj = true) /\
        ((num (area obj) == 14)%Q -> (eccentricity obj == 0.90)%Q ->
         spec_is Star obj = true)).
Proof.
  intros maschera proprieta. split; [apply classifica_oggetti_closed|].
  intros obj.
  pose proof (spec_is_Debris_iff obj) as HD.
  pose proof (spec_is_Star_iff obj) as HS.
  change AREA_MIN_STELLA with 3%Q in *. change AREA_MIN_STREAK with 15%Q in *.
  change ECCENTRICITA_MIN with 0.90%Q in *.
  split; [exact HD|]. split; [exact HS|].
  assert (Hex : spec_is Debris obj = true -> spec_is Star obj = false).
  { intros H. apply not_true_is_false. intros E.
    apply HD in H. apply HS in E. tauto. }
  split; [|split; [exact Hex|split]].
  - split.
    + intros Hlt. split.
      * apply not_true_is_false. intros E.
        apply HD in E. destruct E as (E & _). apply (Qlt_not_le _ _ Hlt E).
      * apply not_true_is_false. intros E.
        apply HS in E. destruct E as (E & _). apply (Qlt_not_le _ _ Hlt E).
    + intros (H1 & H2). apply Qnot_le_lt. intros Hle.
      destruct (Qlt_le_dec (eccentricity obj) 0.90) as [He | He].
      * assert (spec_is Star obj = true); [|congruence].
        apply HS. split; [exact Hle|]. intros (H & _). apply (Qlt_not_le _ _ He H).
      * destruct (Qlt_le_dec (num (area obj)) 15) as [Ha | Ha].
        -- assert (spec_is Star obj = true); [|congruence].
           apply HS. split; [exact Hle|]. intros (_ & H). apply (Qlt_not_le _ _ Ha H).
        -- assert (spec_is Debris obj = true); [|congruence].
           apply HD. auto.
  - intros Ha He. apply HD. rewrite Ha, He. repeat split; discriminate.
  - intros Ha He. apply HS. rewrite Ha, He. split; [discriminate|].
    intros (_ & H). apply H. reflexivity.
Qed.

(** ** Exceptions and the call trace *)

Lemma bind_Ok {A B : Type} (m : M A) (f : A -> M B) t t1 a :
  m t = (t1, Ok a) -> bind m f t = f a t1.
Proof. unfold bind. now intros ->. Qed.

Lemma bind_Raise {A B : Type} (m : M A) (f : A -> M B) t t1 e :
  m t = (t1, Raise e) -> bind m f t = (t1, Raise e).
Proof. unfold bind. now intros ->. Qed.

Lemma bind_Ok_inv {A B : Type} (m : M A) (f : A -> M B) t t' b :
  bind m f t = (t', Ok b) ->
  exists a t1, m t = (t1, Ok a) /\ f a t1 = (t', Ok b).
Proof.
  unfold bind. destruct (m t) as [t1 [a | e]]; intros H.
  - now exists a, t1.
  - discriminate.
Qed.

Lemma forallb_false_ex {A : Type} (f : A -> bool) (l : list A) :
  forallb f l = false -> exists x, In x l /\ f x = false.
Proof.
  induction l as [|x l IH]; simpl; [discriminate|].
  destruct (f x) eqn:E; simpl.
  - intros H. destruct (IH H) as (y & Hy & Hfy). exists y. auto.
  - intros _. exists x. auto.
Qed.

(** When [calcola_fondo_mediano] raises, the collection is empty, or two of
    its frames differ in resolution, or its frames have no pixel. *)
Lemma calcola_fondo_mediano_Raise_inv (frames : list (ndarray Z)) e :
  calcola_fondo_mediano frames = Raise e ->
  frames = [] \/ mismatched frames \/
  exists sh, same_resolution sh frames /\ (fst sh * snd sh = 0)%nat.
Proof.
  intros H. destruct frames as [|f rest]; [now left|]. right.
  unfold calcola_fondo_mediano in H.
  destruct (np_stack (f :: rest)) as [[sh planes] | e'] eqn:Es.
  - right. apply np_stack_Ok_inv in Es. destruct Es as (_ & Hsame & _).
    exists sh. split; [exact Hsame|]. simpl in H. unfold size in H. simpl in H.
    destruct (Nat.eqb_spec (fst sh * snd sh) 0); [assumption | discriminate].
  - left. unfold np_stack in Es.
    destruct (forallb (fun g => shape_eqb (shape g) (shape f)) rest) eqn:E;
      [discriminate|].
    apply forallb_false_ex in E. destruct E as (g & Hg & Hne).
    exists g, f. split; [now right|]. split; [now left|].
    intros Heq. apply shape_eqb_eq in Heq. congruence.
Qed.

Lemma processa_sequenza_fondo_raises (frames : list (ndarray Z))
  (timestamps : option (list datetime)) (t : list call) e :
  calcola_fondo_mediano frames = Raise e ->
  processa_sequenza frames timestamps t = (t ++ [CFondo], Raise e).
Proof.
  intros H. unfold processa_sequenza. apply bind_Raise.
  unfold invoke. now rewrite H.
Qed.

Lemma calibra_fondo_raises (cap cap' : camera) frames_cal (t : list call) e :
  acquisisci_n N_FRAME_CALIBRAZIONE cap [] = Ok (frames_cal, cap') ->
  calcola_fondo_mediano frames_cal = Raise e ->
  calibra cap t = (t ++ [CFondo], Raise e).
Proof.
  intros Ha Hf. unfold calibra.
  erewrite bind_Ok by (unfold lift; rewrite Ha; reflexivity).
  cbv zeta. apply bind_Raise. unfold invoke. now rewrite Hf.
Qed.

Lemma detect_trace (frame : ndarray Z) (fnd : ndarray Q) residuo (t : list call) :
  sottrai_fondo frame fnd = Ok residuo ->
  detect frame fnd t
  = (t ++ [CResiduo; CSoglia; CClassifica],
     Ok (classifica_oggetti (fst (fst (sogliatura residuo SIGMA_SOGLIA))),
         snd (fst (sogliatura residuo SIGMA_SOGLIA)),
         snd (sogliatura residuo SIGMA_SOGLIA))).
Proof.
  intros H. unfold detect, bind, invoke, ret. rewrite H.
  destruct (sogliatura residuo SIGMA_SOGLIA) as [[maschera soglia] sigma].
  cbn [fst snd]. destruct (classifica_oggetti maschera) as [detriti stelle].
  now rewrite <- !app_assoc.
Qed.

(** C6. [calcola_fondo_mediano] raises ValueError on an empty collection, on
    a collection with two resolutions and on frames without pixels, and only
    then; on a non-empty collection of one resolution with at least one
    pixel it returns a background.  When it raises, [processa_sequenza],
    the calibration of [live_main], a recalibration and the periodic refresh
    of the live loop end with the same exception right after the call: no
    residual is computed afterwards. *)
Theorem calcola_fondo_mediano_errors :
  calcola_fondo_mediano [] = Raise ValueError /\
  (forall frames, mismatched frames ->
     calcola_fondo_mediano frames = Raise ValueError) /\
  (forall sh frames, frames <> [] -> same_resolution sh frames ->
     (fst sh * snd sh = 0)%nat ->
     calcola_fondo_mediano frames = Raise ValueError) /\
  (forall sh frames, frames <> [] -> same_resolution sh frames ->
     (0 < fst sh * snd sh)%nat ->
     exists fnd, calcola_fondo_mediano frames = Ok fnd) /\
  (forall frames e, calcola_fondo_mediano frames = Raise e ->
     e = ValueError /\
     (frames = [] \/ mismatched frames \/
      exists sh, same_resolution sh frames /\ (fst sh * snd sh = 0)%nat)) /\
  (forall frames timestamps t e,
     calcola_fondo_mediano frames = Raise e ->
     processa_sequenza frames timestamps t = (t ++ [CFondo], Raise e)) /\
  (forall cap cap' frames_cal ticks session_dir t e,
     acquisisci_n N_FRAME_CALIBRAZIONE cap [] = Ok (frames_cal, cap') ->
     calcola_fondo_mediano frames_cal = Raise e ->
     live_main cap ticks session_dir t = (t ++ [CFondo], Raise e)) /\
  (forall st cap cap' frames_cal k t e,
     Z.land k 255 = ord "r" ->
     acquisisci_n N_FRAME_CALIBRAZIONE cap [] = Ok (frames_cal, cap') ->
     calcola_fondo_mediano frames_cal = Raise e ->
     comando st cap k t = (t ++ [CFondo], Raise e)) /\
  (forall st cap gray cap' ts residuo t e,
     acquisisci_frame cap = Ok (gray, cap') ->
     sottrai_fondo gray (fondo st) = Ok residuo ->
     (S (n_frame st) mod aggiorna_fondo_ogni = 0)%nat ->
     calcola_fondo_mediano (deque_append BUFFER_SIZE (buffer st) gray) = Raise e ->
     scansiona st cap ts t
     = (t ++ [CResiduo; CSoglia; CClassifica; CFondo], Raise e)) /\
  (forall st cap tk rest t t1 e,
     iterazione st cap tk t = (t1, Raise e) ->
     ciclo (tk :: rest) st cap t = (t1, Raise e)).
Proof.
  split; [reflexivity|].
  split; [intros frames H; unfold calcola_fondo_mediano;
          now rewrite (np_stack_mismatched H)|].
  split; [intros sh frames; apply calcola_fondo_mediano_no_pixels|].
  split; [intros sh frames H1 H2 H3; eexists;
          exact (calcola_fondo_mediano_ok H1 H2 H3)|].
  split; [intros frames e H; split;
          [eapply calcola_fondo_mediano_exn; eauto
          | eapply calcola_fondo_mediano_Raise_inv; eauto]|].
  split; [intros; now apply processa_sequenza_fondo_raises|].
  split.
  { intros cap cap' frames_cal ticks session_dir t e Ha Hf.
    unfold live_main. apply bind_Raise. eapply calibra_fondo_raises; eauto. }
  split.
  { intros st cap cap' frames_cal k t e Hk Ha Hf. unfold comando. rewrite Hk.
    cbn. apply bind_Raise. eapply calibra_fondo_raises; eauto. }
  split.
  { intros st cap gray cap' ts residuo t e Ha Hr Hn Hf.
    unfold scansiona, bind, lift. rewrite Ha.
    rewrite (@detect_trace _ _ _ _ Hr).
    destruct (classifica_oggetti _) as [detriti stelle].
    rewrite Hn. cbn [Nat.eqb]. unfold invoke. rewrite Hf.
    now rewrite <- app_assoc. }
  intros st cap tk rest t t1 e H. cbn [ciclo]. now apply bind_Raise.
Qed.

(** ** The rolling buffer and the live loop *)

Lemma deque_append_below {A : Type} (maxlen : nat) (b : list A) (x : A) :
  (length b < maxlen)%nat -> deque_append maxlen b x = b ++ [x].
Proof.
  intros H. unfold deque_append. rewrite length_app. simpl.
  destruct (Nat.ltb_spec maxlen (length b + 1)); [lia | reflexivity].
Qed.

Lemma deque_append_full {A : Type} (maxlen : nat) (b : list A) (x : A) :
  length b = maxlen -> (0 < maxlen)%nat ->
  deque_append maxlen b x = tl b ++ [x].
Proof.
  intros H Hpos. unfold deque_append. rewrite length_app. simpl.
  destruct (Nat.ltb_spec maxlen (length b + 1)); [|lia].
  destruct b; [simpl in H; lia | reflexivity].
Qed.

Lemma deque_append_length {A : Type} (maxlen : nat) (b : list A) (x : A) :
  (length b <= maxlen)%nat -> (length (deque_append maxlen b x) <= maxlen)%nat.
Proof.
  intros H. unfold deque_append. rewrite length_app. simpl.
  destruct (Nat.ltb_spec maxlen (length b + 1)).
  - destruct b; simpl in *; [lia|]. rewrite length_app. simpl. lia.
  - rewrite length_app. simpl. lia.
Qed.

Lemma deque_append_Forall {A : Type} (P : A -> Prop) (maxlen : nat)
  (b : list A) (x : A) :
  Forall P b -> P x -> Forall P (deque_append maxlen b x).
Proof.
  intros Hb Hx. unfold deque_append.
  assert (H : Forall P (b ++ [x])) by (apply Forall_app; auto).
  destruct (Nat.ltb maxlen (length (b ++ [x]))); [|exact H].
  destruct (b ++ [x]); [constructor | now inversion H].
Qed.

Lemma deque_append_nonempty {A : Type} (maxlen : nat) (b : list A) (x : A) :
  (0 < maxlen)%nat -> deque_append maxlen b x <> [].
Proof.
  intros Hpos. unfold deque_append.
  destruct (Nat.ltb_spec maxlen (length (b ++ [x]))) as [H | H].
  - destruct (b ++ [x]) as [|y [|z l]]; simpl in *; try lia. discriminate.
  - destruct b; discriminate.
Qed.

Lemma deque_new_short {A : Type} (l : list A) (maxlen : nat) :
  (length l <= maxlen)%nat -> deque_new l maxlen = l.
Proof.
  intros H. unfold deque_new.
  replace (length l - maxlen)%nat with O by lia. reflexivity.
Qed.

Lemma acquisisci_frame_pixel (gray : ndarray Z) (cap' : camera) :
  size gray <> O -> acquisisci_frame (gray :: cap') = Ok (gray, cap').
Proof.
  intros H. cbn [acquisisci_frame].
  destruct (Nat.eqb_spec (size gray) 0); [contradiction | reflexivity].
Qed.

Lemma same_resolution_con_pixel (sh : nat * nat) (frames : list (ndarray Z)) :
  same_resolution sh frames -> (0 < fst sh * snd sh)%nat -> con_pixel frames.
Proof.
  intros Hsame Hpos. unfold con_pixel. eapply Forall_impl; [|exact Hsame].
  intros g Hg. unfold size. rewrite Hg. lia.
Qed.

Lemma acquisisci_n_app (l acc : list (ndarray Z)) (cap' : camera) :
  con_pixel l ->
  acquisisci_n (length l) (l ++ cap') acc = Ok (acc ++ l, cap').
Proof.
  intros Hpx. revert acc.
  induction Hpx as [|g l Hg _ IH]; intros acc; cbn [length acquisisci_n app].
  - now rewrite app_nil_r.
  - rewrite (@acquisisci_frame_pixel g (l ++ cap') Hg). cbn [rbind fst snd].
    rewrite IH. now rewrite <- app_assoc.
Qed.

Lemma sottrai_fondo_same_shape (frame : ndarray Z) (fnd : ndarray Q) :
  shape frame = shape fnd -> exists residuo, sottrai_fondo frame fnd = Ok residuo.
Proof.
  intros H. unfold sottrai_fondo. rewrite H, !broadcast_dim_refl. eauto.
Qed.

Lemma calibra_ok (sh : nat * nat) (frames_cal : list (ndarray Z))
  (cap' : camera) (t : list call) :
  length frames_cal = N_FRAME_CALIBRAZIONE ->
  same_resolution sh frames_cal -> (0 < fst sh * snd sh)%nat ->
  calibra (frames_cal ++ cap') t
  = (t ++ [CFondo], Ok (fondo_atteso sh frames_cal, frames_cal, cap')).
Proof.
  intros Hlen Hsame Hpos. unfold calibra, bind, lift, invoke, ret.
  rewrite <- Hlen, acquisisci_n_app
    by exact (@same_resolution_con_pixel sh frames_cal Hsame Hpos).
  cbn [app].
  assert (Hne : frames_cal <> [])
    by (destruct frames_cal; [discriminate Hlen | discriminate]).
  rewrite (calcola_fondo_mediano_ok Hne Hsame Hpos).
  rewrite deque_new_short; [reflexivity|].
  rewrite Hlen. unfold N_FRAME_CALIBRAZIONE, BUFFER_SIZE. lia.
Qed.

(** C8. One scanning step on frames of the session's resolution appends the
    new frame to the rolling buffer, which holds at most 100 frames and
    drops its oldest frame when it is full.  When the frame counter reaches
    a multiple of 30 the background builder is called once, after the three
    detection stages, and the background becomes what it returns on the
    buffer as it is after the append: at every pixel the median of the
    pixel's samples through the buffer, the mean of the two middle order
    statistics.  On every other frame the builder is not called and the
    background is unchanged. *)
Theorem scansiona_buffer_refresh :
  forall (sh : nat * nat) (st : live_state) (gray : ndarray Z) (cap' : camera)
         (ts : datetime) (t : list call),
    shape (fondo st) = sh -> shape gray = sh ->
    same_resolution sh (buffer st) -> (0 < fst sh * snd sh)%nat ->
    exists t' st',
      scansiona st (gray :: cap') ts t = (t', Ok (st', cap')) /\
      n_frame st' = S (n_frame st) /\
      buffer st' = deque_append 100 (buffer st) gray /\
      ((length (buffer st) < 100)%nat -> buffer st' = buffer st ++ [gray]) /\
      (length (buffer st) = 100%nat -> buffer st' = tl (buffer st) ++ [gray]) /\
      ((length (buffer st) <= 100)%nat -> (length (buffer st') <= 100)%nat) /\
      same_resolution sh (buffer st') /\
      shape (fondo st') = sh /\
      ((S (n_frame st) mod 30 = 0)%nat ->
       t' = t ++ [CResiduo; CSoglia; CClassifica; CFondo] /\
       calcola_fondo_mediano (buffer st') = Ok (fondo st') /\
       length (data (fondo st')) = (fst sh * snd sh)%nat /\
       forall p, (p < fst sh * snd sh)%nat ->
         is_median (pixel_samples p (buffer st')) (nth p (data (fondo st')) 0) /\
         forall v : Z,
           (length (buffer st') < 2 * frames_holding p v (buffer st'))%nat ->
           (nth p (data (fondo st')) 0 == inject_Z v)%Q) /\
      ((S (n_frame st) mod 30 <> 0)%nat ->
       t' = t ++ [CResiduo; CSoglia; CClassifica] /\ fondo st' = fondo st).
Proof.
  intros sh st gray cap' ts t Hf Hg Hb Hpos.
  destruct (@sottrai_fondo_same_shape gray (fondo st)) as [residuo Hr];
    [congruence|].
  assert (Hpx : size gray <> O) by (unfold size; rewrite Hg; lia).
  unfold scansiona, bind, lift. rewrite (@acquisisci_frame_pixel gray cap' Hpx).
  rewrite (@detect_trace _ _ _ _ Hr).
  destruct (classifica_oggetti _) as [detriti stelle].
  change BUFFER_SIZE with 100%nat. change aggiorna_fondo_ogni with 30%nat.
  set (buffer' := deque_append 100 (buffer st) gray).
  assert (Hb' : same_resolution sh buffer')
    by (apply deque_append_Forall; assumption).
  assert (Hne : buffer' <> []) by (apply deque_append_nonempty; lia).
  assert (Hdq : ((length (buffer st) < 100)%nat -> buffer' = buffer st ++ [gray]) /\
                (length (buffer st) = 100%nat -> buffer' = tl (buffer st) ++ [gray]) /\
                ((length (buffer st) <= 100)%nat -> (length buffer' <= 100)%nat)).
  { split; [apply deque_append_below|].
    split; [intros H; apply deque_append_full; [exact H | lia]|].
    apply deque_append_length. }
  destruct Hdq as (Hd1 & Hd2 & Hd3).
  destruct (Nat.eqb_spec (S (n_frame st) mod 30) 0) as [E | E].
  - unfold invoke, ret. rewrite (calcola_fondo_mediano_ok Hne Hb' Hpos).
    do 2 eexists. split; [reflexivity|]. cbn [n_frame buffer fondo].
    repeat (split; [solve [auto]|]).
    split; [|intros; congruence]. intros _.
    split; [now rewrite <- app_assoc|].
    split; [now apply calcola_fondo_mediano_ok|].
    split; [cbn [fondo_atteso data]; now rewrite length_map, length_seq|].
    intros p Hp. rewrite (nth_fondo_atteso _ _ Hp). split.
    + apply np_median_is_median. unfold pixel_samples.
      destruct buffer'; [congruence | discriminate].
    + intros v Hv. apply np_median_majority.
      rewrite count_eq_pixel_samples. unfold pixel_samples.
      now rewrite length_map.
  - unfold ret. do 2 eexists. split; [reflexivity|]. cbn [n_frame buffer fondo].
    repeat (split; [solve [auto]|]).
    split; [intros; congruence|]. intros _. split; reflexivity.
Qed.

Lemma comando_keeps (st : live_state) (cap : camera) (k : Z) t t' st' cap' b :
  comando st cap k t = (t', Ok (st', cap', b)) ->
  n_frame st' = n_frame st /\ tutti_rilevamenti st' = tutti_rilevamenti st.
Proof.
  unfold comando.
  destruct (Z.eqb (Z.land k 255) (ord "q")); [unfold ret; intros H; now inversion H|].
  destruct (Z.eqb (Z.land k 255) (ord "s")); [unfold ret; intros H; now inversion H|].
  destruct (Z.eqb (Z.land k 255) (ord "r")); [|unfold ret; intros H; now inversion H].
  intros H. apply bind_Ok_inv in H. destruct H as ([[f0 b0] c0] & t1 & _ & H).
  unfold ret in H. now inversion H.
Qed.

(** C10. A Recalibrate command on a camera that supplies 50 frames of one
    resolution replaces the background by the median of those frames and
    the buffer by those frames, and keeps the frame counter and the session
    detection list as they were; whenever the command returns, counter and
    list are unchanged, and the next scanning step numbers its frame one
    above the counter held before the recalibration. *)
Theorem comando_recalibrate_frame :
  forall (sh : nat * nat) (st : live_state) (frames_cal : list (ndarray Z))
         (cap' : camera) (k : Z) (t : list call),
    Z.land k 255 = ord "r" ->
    length frames_cal = 50%nat ->
    same_resolution sh frames_cal -> (0 < fst sh * snd sh)%nat ->
    (exists st',
       comando st (frames_cal ++ cap') k t = (t ++ [CFondo], Ok (st', cap', false)) /\
       fondo st' = fondo_atteso sh frames_cal /\
       buffer st' = frames_cal /\
       n_frame st' = n_frame st /\
       tutti_rilevamenti st' = tutti_rilevamenti st /\
       forall ts t2 t3 st2 cap2,
         scansiona st' cap' ts t2 = (t3, Ok (st2, cap2)) ->
         n_frame st2 = S (n_frame st) /\
         exists nuovi, tutti_rilevamenti st2 = tutti_rilevamenti st ++ nuovi) /\
    (forall cap t1 st1 cap1 b,
       comando st cap k t = (t1, Ok (st1, cap1, b)) ->
       n_frame st1 = n_frame st /\
       tutti_rilevamenti st1 = tutti_rilevamenti st).
Proof.
  intros sh st frames_cal cap' k t Hk Hlen Hsame Hpos. split.
  - eexists. split.
    + unfold comando. rewrite Hk. cbn [Z.eqb ord nat_of_ascii].
      change (Z.eqb (ord "r") (ord "q")) with false.
      change (Z.eqb (ord "r") (ord "s")) with false.
      change (Z.eqb (ord "r") (ord "r")) with true. cbv iota.
      unfold bind. rewrite (calibra_ok cap' t Hlen Hsame Hpos). reflexivity.
    + cbn [fondo buffer n_frame tutti_rilevamenti].
      repeat (split; [reflexivity|]).
      intros ts t2 t3 st2 cap2 H. unfold scansiona in H.
      apply bind_Ok_inv in H. destruct H as ([g c] & t4 & _ & H).
      apply bind_Ok_inv in H. destruct H as ([[[detriti stelle] soglia] sigma] & t5 & _ & H).
      apply bind_Ok_inv in H. destruct H as (f' & t6 & _ & H).
      unfold ret in H. inversion H; subst. cbn [n_frame tutti_rilevamenti].
      split; [reflexivity|].
      destruct detriti; [exists []; now rewrite app_nil_r | eexists; reflexivity].
  - intros cap t1 st1 cap1 b H. eapply comando_keeps; eauto.
Qed.

(** ** Detection records *)

(** A region of the mask that the classifier takes for Debris. *)
Definition debris_of (maschera : ndarray Z) (obj : RegionProps) : Prop :=
  In obj (regionprops_label maschera) /\ spec_is Debris obj = true.

(** A record of the batch driver: frame [i] of the sequence, a Debris region
    of its mask, and the sigma of its residual. *)
Definition batch_record (frames : list (ndarray Z))
  (timestamps : option (list datetime)) (fnd : ndarray Q) (r : rilevamento)
  : Prop :=
  exists i frame residuo obj ts,
    nth_error frames i = Some frame /\
    sottrai_fondo frame fnd = Ok residuo /\
    debris_of (fst (fst (sogliatura residuo SIGMA_SOGLIA))) obj /\
    timestamp_of timestamps i = Ok ts /\
    r = [ ("frame_index"%string, PyNum (PyInt (Z.of_nat i)));
          ("timestamp"%string, PyStr ts);
          ("centroid_y"%string, PyNum (PyFloat (py_round (fst (centroid obj)) 2)));
          ("centroid_x"%string, PyNum (PyFloat (py_round (snd (centroid obj)) 2)));
          ("area_px"%string, PyNum (area obj));
          ("eccentricita"%string, PyNum (PyFloat (py_round (eccentricity obj) 4)));
          ("orientazione"%string,
           PyNum (PyFloat (py_round (np_degrees (orientation obj)) 2)));
          ("lunghezza_px"%string,
           PyNum (PyFloat (py_round (major_axis_length obj) 2)));
          ("sigma_soglia"%string,
           PyNum (NpFloat32 (py_round (snd (sogliatura residuo SIGMA_SOGLIA)) 3))) ].

(** A record of the live driver: a frame number, the clock reading and a
    Debris region of some mask; it has no entry for sigma or the threshold. *)
Definition live_record (r : rilevamento) : Prop :=
  exists n ts maschera obj,
    debris_of maschera obj /\
    r = [ ("frame"%string, PyNum (PyInt (Z.of_nat n)));
          ("timestamp"%string, PyStr (isoformat ts));
          ("centroid_x"%string, PyNum (PyFloat (py_round (snd (centroid obj)) 2)));
          ("centroid_y"%string, PyNum (PyFloat (py_round (fst (centroid obj)) 2)));
          ("eccentricita"%string, PyNum (PyFloat (py_round (eccentricity obj) 4)));
          ("orientazione"%string,
           PyNum (PyFloat (py_round (np_degrees (orientation obj)) 2)));
          ("lunghezza_px"%string,
           PyNum (PyFloat (py_round (major_axis_length obj) 2)));
          ("area_px"%string, PyNum (area obj)) ].

Lemma detect_Ok_inv (frame : ndarray Z) (fnd : ndarray Q) t t' detriti stelle soglia sigma :
  detect frame fnd t = (t', Ok (detriti, stelle, soglia, sigma)) ->
  exists residuo,
    sottrai_fondo frame fnd = Ok residuo /\
    (detriti, stelle) = classifica_oggetti (fst (fst (sogliatura residuo SIGMA_SOGLIA))) /\
    soglia = snd (fst (sogliatura residuo SIGMA_SOGLIA)) /\
    sigma = snd (sogliatura residuo SIGMA_SOGLIA).
Proof.
  destruct (sottrai_fondo frame fnd) as [residuo | e] eqn:E.
  - rewrite (@detect_trace _ _ _ _ E). intros H. exists residuo.
    inversion H as [[Ht Hc Hs Hg]]. rewrite Hc. auto.
  - unfold detect, bind, invoke. rewrite E. discriminate.
Qed.

Lemma detriti_debris (maschera : ndarray Z) (d : detrito) :
  In d (fst (classifica_oggetti maschera)) ->
  exists obj, debris_of maschera obj /\ d = to_detrito obj.
Proof.
  rewrite classifica_oggetti_closed. cbn [fst]. intros H.
  apply in_map_iff in H. destruct H as (obj & <- & Hobj).
  apply filter_In in Hobj. exists obj. split; [exact Hobj | reflexivity].
Qed.

Lemma processa_loop_records (frames : list (ndarray Z))
  (timestamps : option (list datetime)) (fnd : ndarray Q)
  (rest : list (ndarray Z)) :
  forall i acc t t' out,
    processa_loop timestamps fnd i rest acc t = (t', Ok out) ->
    (forall j frame, nth_error rest j = Some frame ->
                     nth_error frames (i + j) = Some frame) ->
    Forall (batch_record frames timestamps fnd) acc ->
    Forall (batch_record frames timestamps fnd) out.
Proof.
  induction rest as [|frame rest IH]; intros i acc t t' out H Hidx Hacc.
  - unfold processa_loop, ret in H. now inversion H; subst.
  - cbn [processa_loop] in H. apply bind_Ok_inv in H.
    destruct H as ([[[detriti stelle] soglia] sigma] & t1 & Hd & H).
    apply detect_Ok_inv in Hd. destruct Hd as (residuo & Hr & Hc & _ & Hs).
    assert (Hidx' : forall j fr, nth_error rest j = Some fr ->
                                 nth_error frames (S i + j) = Some fr).
    { intros j fr Hj. replace (S i + j)%nat with (i + S j)%nat by lia.
      now apply Hidx. }
    assert (Hi : nth_error frames i = Some frame).
    { replace i with (i + 0)%nat by lia. now apply Hidx. }
    destruct detriti as [|d0 detriti'].
    + eapply IH; eauto.
    + apply bind_Ok_inv in H. destruct H as (ts & t2 & Hts & H).
      unfold lift in Hts. inversion Hts as [[Ht2 Hts']]. subst t2.
      eapply IH; [exact H | exact Hidx' |].
      apply Forall_app. split; [exact Hacc|].
      apply Forall_forall. intros r Hin. apply in_map_iff in Hin.
      destruct Hin as (d & <- & Hd).
      assert (Hd' : In d (fst (classifica_oggetti
                                 (fst (fst (sogliatura residuo SIGMA_SOGLIA)))))).
      { rewrite <- Hc. exact Hd. }
      apply detriti_debris in Hd'. destruct Hd' as (obj & Hobj & ->).
      exists i, frame, residuo, obj, ts. rewrite Hs. auto.
Qed.

Lemma scansiona_records (st : live_state) (cap : camera) (ts : datetime)
  t t' st' cap' :
  scansiona st cap ts t = (t', Ok (st', cap')) ->
  Forall live_record (tutti_rilevamenti st) ->
  Forall live_record (tutti_rilevamenti st').
Proof.
  intros H Hall. unfold scansiona in H.
  apply bind_Ok_inv in H. destruct H as ([g c] & t1 & _ & H).
  apply bind_Ok_inv in H.
  destruct H as ([[[detriti stelle] soglia] sigma] & t2 & Hd & H).
  apply bind_Ok_inv in H. destruct H as (f' & t3 & _ & H).
  unfold ret in H. inversion H; subst. cbn [tutti_rilevamenti].
  apply detect_Ok_inv in Hd. destruct Hd as (residuo & _ & Hc & _).
  destruct detriti as [|d0 detriti']; [exact Hall|].
  apply Forall_app. split; [exact Hall|].
  apply Forall_forall. intros r Hin. apply in_map_iff in Hin.
  destruct Hin as (d & <- & Hd).
  assert (Hd' : In d (fst (classifica_oggetti
                             (fst (fst (sogliatura residuo SIGMA_SOGLIA)))))).
  { rewrite <- Hc. exact Hd. }
  apply detriti_debris in Hd'. destruct Hd' as (obj & Hobj & ->).
  exists (S (n_frame st)), ts, (fst (fst (sogliatura residuo SIGMA_SOGLIA))), obj.
  auto.
Qed.

Lemma ciclo_records (ticks : list tick) :
  forall st cap t t' st' cap' b,
    ciclo ticks st cap t = (t', Ok (st', cap', b)) ->
    Forall live_record (tutti_rilevamenti st) ->
    Forall live_record (tutti_rilevamenti st').
Proof.
  induction ticks as [|tk rest IH]; intros st cap t t' st' cap' b H Hall.
  - unfold ciclo, ret in H. now inversion H; subst.
  - cbn [ciclo] in H. apply bind_Ok_inv in H.
    destruct H as ([[st1 cap1] esci] & t1 & Hit & H).
    unfold iterazione in Hit. apply bind_Ok_inv in Hit.
    destruct Hit as ([st0 cap0] & t0 & Hsc & Hcmd).
    apply scansiona_records in Hsc; [|exact Hall].
    apply comando_keeps in Hcmd. destruct Hcmd as (_ & Hk).
    assert (H1 : Forall live_record (tutti_rilevamenti st1)) by (now rewrite Hk).
    destruct esci.
    + unfold ret in H. now inversion H; subst.
    + eapply IH; eauto.
Qed.

(** C3. Every record of [processa_sequenza] belongs to a frame of the
    sequence and to a region of its mask classified Debris, and holds, in
    this order, the frame index, the timestamp (ISO text or [frame_NNNN]),
    centroid y and x rounded to 2 places, the area, the eccentricity rounded
    to 4 places, the orientation in degrees and the major-axis length
    rounded to 2 places, and under [sigma_soglia] the frame's sigma
    (1.4826 * MAD) rounded to 3 places.  Every record of the live session
    belongs to a region classified Debris and holds the frame number, the
    ISO timestamp, centroid x and y, eccentricity, orientation, length and
    area, and nothing about sigma or the threshold. *)
Theorem rilevamenti_fields :
  (forall frames timestamps t t' rilevamenti fnd,
     processa_sequenza frames timestamps t = (t', Ok (rilevamenti, fnd)) ->
     calcola_fondo_mediano frames = Ok fnd /\
     Forall (batch_record frames timestamps fnd) rilevamenti) /\
  (forall cap ticks session_dir t t' st out,
     live_main cap ticks session_dir t = (t', Ok (st, out)) ->
     Forall live_record (tutti_rilevamenti st)) /\
  (forall frames timestamps fnd r,
     batch_record frames timestamps fnd r ->
     keys r = [ "frame_index"; "timestamp"; "centroid_y"; "centroid_x";
                "area_px"; "eccentricita"; "orientazione"; "lunghezza_px";
                "sigma_soglia" ]%string) /\
  (forall r,
     live_record r ->
     keys r = [ "frame"; "timestamp"; "centroid_x"; "centroid_y";
                "eccentricita"; "orientazione"; "lunghezza_px";
                "area_px" ]%string /\
     dict_get "sigma_soglia" r = None).
Proof.
  split; [|split; [|split]].
  - intros frames timestamps t t' rilevamenti fnd H.
    unfold processa_sequenza in H. apply bind_Ok_inv in H.
    destruct H as (fnd0 & t1 & Hf & H).
    apply bind_Ok_inv in H. destruct H as (ril & t2 & Hl & H).
    unfold ret in H. inversion H; subst.
    unfold invoke in Hf.
    assert (Hf' : calcola_fondo_mediano frames = Ok fnd) by congruence.
    split; [exact Hf'|].
    eapply processa_loop_records; [exact Hl | | constructor].
    intros j frame Hj. exact Hj.
  - intros cap ticks session_dir t t' st out H. unfold live_main in H.
    apply bind_Ok_inv in H. destruct H as ([[f0 b0] c0] & t1 & _ & H).
    apply bind_Ok_inv in H. destruct H as ([[st1 c1] esci] & t2 & Hc & H).
    apply ciclo_records in Hc; [|constructor].
    destruct esci; [destruct (tutti_rilevamenti st1) eqn:E|];
      unfold ret in H; inversion H; subst; try rewrite E; exact Hc.
  - intros frames timestamps fnd r (i & frame & residuo & obj & ts & _ & _ & _ & _ & ->).
    reflexivity.
  - intros r (n & ts & maschera & obj & _ & ->). split; reflexivity.
Qed.

(** What the two drivers hand to [salva_risultati]. *)
Lemma processa_sequenza_records (frames : list (ndarray Z))
  (timestamps : option (list datetime)) t t' rilevamenti fnd :
  processa_sequenza frames timestamps t = (t', Ok (rilevamenti, fnd)) ->
  Forall (batch_record frames timestamps fnd) rilevamenti.
Proof.
  intros H. unfold processa_sequenza in H. apply bind_Ok_inv in H.
  destruct H as (fnd0 & t1 & Hf & H).
  apply bind_Ok_inv in H. destruct H as (ril & t2 & Hl & H).
  unfold ret in H. inversion H; subst.
  eapply processa_loop_records; [exact Hl | | constructor].
  intros j frame Hj. exact Hj.
Qed.

Lemma live_main_saved (cap : camera) (ticks : list tick) (session_dir : string)
  t t' st path doc :
  live_main cap ticks session_dir t = (t', Ok (st, Some (path, doc))) ->
  Forall live_record (tutti_rilevamenti st) /\
  tutti_rilevamenti st <> [] /\
  (path, doc) = salva_risultati (tutti_rilevamenti st) session_dir.
Proof.
  intros H. unfold live_main in H.
  apply bind_Ok_inv in H. destruct H as ([[f0 b0] c0] & t1 & _ & H).
  apply bind_Ok_inv in H. destruct H as ([[st1 c1] esci] & t2 & Hc & H).
  apply ciclo_records in Hc; [|constructor].
  destruct esci; [destruct (tutti_rilevamenti st1) eqn:E|];
    unfold ret in H; inversion H; subst.
  rewrite E. split; [exact Hc|]. split; [discriminate | reflexivity].
Qed.

End Pipeline.

(** ** Persistence *)

(** The values [json.dump] writes natively. *)
Definition json_native (v : pyval) : Prop :=
  match v with
  | PyNum (NpInt _) | PyNum (NpFloat32 _) => False
  | _ => True
  end.

(** What a value has become once written and read back. *)
Definition riletto (v : pyval) : pyval :=
  match v with
  | PyNum (NpInt z) => PyStr (str_int z)
  | PyNum (NpFloat32 q) => PyStr (str_float32 q)
  | _ => v
  end.

Lemma json_decode_encode (v : pyval) : json_decode (json_encode v) = riletto v.
Proof. destruct v as [[z | q | z | q] | s]; reflexivity. Qed.

Lemma riletto_native (v : pyval) : json_native v -> riletto v = v.
Proof. destruct v as [[z | q | z | q] | s]; simpl; tauto. Qed.

Lemma riletto_foreign (v : pyval) : ~ json_native v -> riletto v <> v.
Proof.
  destruct v as [[z | q | z | q] | s]; simpl; intros H; try discriminate;
    exfalso; now apply H.
Qed.

Lemma json_load_dump (rilevamenti : list rilevamento) :
  json_load (json_dump rilevamenti)
  = map (map (fun kv => (fst kv, riletto (snd kv)))) rilevamenti.
Proof.
  unfold json_load, json_dump. rewrite map_map. apply map_ext. intros r.
  rewrite map_map. apply map_ext. intros [k v]. simpl.
  now rewrite json_decode_encode.
Qed.

Lemma map_fixed {A : Type} (f : A -> A) (l : list A) :
  map f l = l -> forall x, In x l -> f x = x.
Proof.
  induction l as [|y l IH]; intros H x Hx; [contradiction|].
  cbn [map] in H. injection H as Hy Hl.
  destruct Hx as [<- | Hx]; [exact Hy | now apply IH].
Qed.

Lemma riletti_native (rilevamenti : list rilevamento) :
  Forall (Forall (fun kv => json_native (snd kv))) rilevamenti ->
  map (map (fun kv => (fst kv, riletto (snd kv)))) rilevamenti = rilevamenti.
Proof.
  intros Hall. induction Hall as [|r rs Hr _ IH]; [reflexivity|].
  cbn [map]. rewrite IH. f_equal.
  induction Hr as [|[k v] r' Hv _ IHr]; [reflexivity|].
  cbn [map fst snd]. rewrite IHr. simpl in Hv. now rewrite (riletto_native _ Hv).
Qed.

(** C9. Reading back the document [salva_risultati] writes gives the same
    records in the same order, each with the same keys in the same order; a
    value that is a Python int, float or str comes back equal, and any other
    value (a NumPy [float32], a NumPy integer) comes back as the string
    [str] makes of it.  So a list is read back unchanged exactly when all
    its values are int, float or str.  The records [processa_sequenza]
    returns never are: the [sigma_soglia] of each, a [float32], comes back
    as a string.  The records the live session saves hold no sigma, and are
    read back unchanged when scikit-image gives the areas as Python
    numbers. *)
Theorem salva_risultati_roundtrip :
  forall (rilevamenti : list rilevamento) (session_dir : string),
    let riletti := json_load (snd (salva_risultati rilevamenti session_dir)) in
    riletti = map (map (fun kv => (fst kv, riletto (snd kv)))) rilevamenti /\
    map keys riletti = map keys rilevamenti /\
    (forall z, riletto (PyNum (PyInt z)) = PyNum (PyInt z)) /\
    (forall q, riletto (PyNum (PyFloat q)) = PyNum (PyFloat q)) /\
    (forall s, riletto (PyStr s) = PyStr s) /\
    (forall z, riletto (PyNum (NpInt z)) = PyStr (str_int z)) /\
    (forall q, riletto (PyNum (NpFloat32 q)) = PyStr (str_float32 q)) /\
    (Forall (Forall (fun kv => json_native (snd kv))) rilevamenti ->
     riletti = rilevamenti) /\
    (forall r k v, In r rilevamenti -> In (k, v) r -> ~ json_native v ->
                   riletti <> rilevamenti) /\
    (forall regionprops_label np_degrees (datetime : Type)
            (isoformat : datetime -> string) frames timestamps t t' fnd,
       processa_sequenza regionprops_label np_degrees isoformat
                         frames timestamps t
       = (t', Ok (rilevamenti, fnd)) ->
       Forall (fun r => exists sigma,
                 dict_get "sigma_soglia" r
                 = Some (PyNum (NpFloat32 (py_round sigma 3))) /\
                 dict_get "sigma_soglia"
                   (map (fun kv => (fst kv, riletto (snd kv))) r)
                 = Some (PyStr (str_float32 (py_round sigma 3))))
              rilevamenti /\
       (rilevamenti <> [] -> riletti <> rilevamenti)) /\
    (forall regionprops_label np_degrees (datetime : Type)
            (isoformat : datetime -> string) cap ticks t t' st path doc,
       live_main regionprops_label np_degrees isoformat cap ticks session_dir t
       = (t', Ok (st, Some (path, doc))) ->
       (forall maschera obj, In obj (regionprops_label maschera) ->
                             json_native (PyNum (area obj))) ->
       path = path_join session_dir "detections.json" /\
       json_load doc = tutti_rilevamenti st).
Proof.
  intros rilevamenti session_dir riletti. subst riletti.
  unfold salva_risultati. cbn [snd]. rewrite json_load_dump.
  assert (Hforeign : forall r k v, In r rilevamenti -> In (k, v) r ->
            ~ json_native v ->
            map (map (fun kv => (fst kv, riletto (snd kv)))) rilevamenti
            <> rilevamenti).
  { intros r k v Hr Hkv Hv Heq.
    pose proof (@map_fixed _ _ _ Heq r Hr) as Hr'.
    pose proof (@map_fixed _ _ _ Hr' (k, v) Hkv) as Hv'. cbn [fst snd] in Hv'.
    apply (@riletto_foreign v Hv). exact (f_equal snd Hv'). }
  split; [reflexivity|]. split.
  { rewrite map_map. apply map_ext. intros r. unfold keys. rewrite map_map.
    apply map_ext. now intros [k v]. }
  do 5 (split; [reflexivity|]).
  split; [apply riletti_native|]. split; [exact Hforeign|]. split.
  - intros regionprops_label np_degrees datetime isoformat frames timestamps
           t t' fnd Hrun.
    apply processa_sequenza_records in Hrun. split.
    + eapply Forall_impl; [|exact Hrun].
      intros r (i & frame & residuo & obj & ts & _ & _ & _ & _ & ->).
      eexists. split; reflexivity.
    + intros Hne. destruct rilevamenti as [|r rest]; [congruence|].
      inversion Hrun as [|? ? Hr _]; subst.
      destruct Hr as (i & frame & residuo & obj & ts & _ & _ & _ & _ & Er).
      apply (Hforeign r "sigma_soglia"%string
               (PyNum (NpFloat32
                  (py_round (snd (sogliatura residuo SIGMA_SOGLIA)) 3)))).
      * now left.
      * rewrite Er. do 8 right. now left.
      * intros H. exact H.
  - intros regionprops_label np_degrees datetime isoformat cap ticks
           t t' st path doc Hrun Harea.
    apply live_main_saved in Hrun. destruct Hrun as (Hrec & _ & Hsave).
    unfold salva_risultati in Hsave. inversion Hsave; subst path doc.
    split; [reflexivity|]. rewrite json_load_dump. apply riletti_native.
    eapply Forall_impl; [|exact Hrec].
    intros r (n & ts & maschera & obj & (Hin & _) & ->).
    repeat constructor. exact (Harea maschera obj Hin).
Qed.

(** * A worked scene

    The collaborators outside the repository are instantiated for masks of
    one row, where labelling is the splitting into maximal runs: a run of
    [n] pixels starting at column [s] is a region of area [n], with centroid
    [(0, s + (n-1)/2)], bounding box [(0, s, 1, s+n)], inertia eigenvalues
    [((n*n-1)/12, 0)], hence eccentricity 1 and major-axis length
    [4 * sqrt((n*n-1)/12)] when [n > 1]; the area is a float, and the
    major axis of a run of several pixels lies at a right angle to the row
    axis. *)

Fixpoint runs (l : list Z) (pos : nat) (cur : option (nat * nat))
  : list (nat * nat) :=
  match l with
  | [] => match cur with Some r => [r] | None => [] end
  | v :: l' =>
      if Z.eqb v 0 then
        match cur with
        | Some r => r :: runs l' (S pos) None
        | None => runs l' (S pos) None
        end
      else
        runs l' (S pos)
             (match cur with
              | Some (s, n) => Some (s, S n)
              | None => Some (pos, 1%nat)
              end)
  end.

Definition region_of_run (r : nat * nat) : RegionProps :=
  let '(s, n) := r in
  let l1 := (inject_Z (Z.of_nat n * Z.of_nat n - 1) / 12)%Q in
  {| area := PyFloat (inject_Z (Z.of_nat n));
     eccentricity := if Nat.ltb 1 n then 1 else 0;
     centroid := (0, inject_Z (Z.of_nat s) + inject_Z (Z.of_nat n - 1) / 2)%Q;
     bbox := (0, Z.of_nat s, 1, Z.of_nat (s + n))%Z;
     orientation := if Nat.ltb 1 n then 1.5707963267948966%Q
                    else 0.7853981633974483%Q;
     major_axis_length :=
       Qmake (Z.sqrt (Qfloor (16 * l1 * 1000000000000))) 1000000;
     minor_axis_length := 0 |}.

Definition regionprops_riga (m : ndarray Z) : list RegionProps :=
  if Nat.eqb (fst (shape m)) 1 then map region_of_run (runs (data m) 0 None)
  else [].

Definition gradi (x : Q) : Q := (x * 57.29577951308232)%Q.

Definition iso_testo (s : string) : string := s.

(** A flat sky of 1 x 40 pixels, and a frame with faint noise and a streak of
    16 pixels over it. *)
Definition cielo : ndarray Z := mk_ndarray (1, 40)%nat (repeat 100%Z 40).

Definition scia : ndarray Z :=
  mk_ndarray (1, 40)%nat
    (map (fun p => if Nat.leb 10 p && Nat.ltb p 26 then 190%Z
                   else (100 + Z.of_nat (p mod 3))%Z)
         (seq 0 40)).

Definition cielo_f : ndarray Q := mk_ndarray (1, 40)%nat (repeat 100%Q 40).

Definition residuo_scia : ndarray Q :=
  mk_ndarray (1, 40)%nat
    (map (fun p => if Nat.leb 10 p && Nat.ltb p 26 then 90%Q
                   else inject_Z (Z.of_nat (p mod 3)))
         (seq 0 40)).

(** The record the batch driver emits for the streak in [cielo; cielo; scia]. *)
Definition rilevamento_scia : rilevamento :=
  [ ("frame_index"%string, PyNum (PyInt 2));
    ("timestamp"%string, PyStr "frame_0002");
    ("centroid_y"%string, PyNum (PyFloat (0 # 100)));
    ("centroid_x"%string, PyNum (PyFloat (1750 # 100)));
    ("area_px"%string, PyNum (PyFloat (16 # 1)));
    ("eccentricita"%string, PyNum (PyFloat (10000 # 10000)));
    ("orientazione"%string, PyNum (PyFloat (9000 # 100)));
    ("lunghezza_px"%string, PyNum (PyFloat (1844 # 100)));
    ("sigma_soglia"%string, PyNum (NpFloat32 (2965 # 1000))) ].

(** The record the live driver emits for the same streak as frame 1. *)
Definition rilevamento_scia_live : rilevamento :=
  [ ("frame"%string, PyNum (PyInt 1));
    ("timestamp"%string, PyStr "2025-03-01T21:45:00.000000");
    ("centroid_x"%string, PyNum (PyFloat (1750 # 100)));
    ("centroid_y"%string, PyNum (PyFloat (0 # 100)));
    ("eccentricita"%string, PyNum (PyFloat (10000 # 10000)));
    ("orientazione"%string, PyNum (PyFloat (9000 # 100)));
    ("lunghezza_px"%string, PyNum (PyFloat (1844 # 100)));
    ("area_px"%string, PyNum (PyFloat (16 # 1))) ].

Example processa_sequenza_scia :
  processa_sequenza regionprops_riga gradi iso_testo [cielo; cielo; scia] None []
  = ([CFondo; CResiduo; CSoglia; CClassifica; CResiduo; CSoglia; CClassifica;
      CResiduo; CSoglia; CClassifica],
     Ok ([rilevamento_scia], cielo_f)).
Proof. vm_compute. reflexivity. Qed.

Example sottrai_fondo_scia : sottrai_fondo scia cielo_f = Ok residuo_scia.
Proof. vm_compute. reflexivity. Qed.

Example soglia_scia :
  py_round (snd (fst (sogliatura residuo_scia SIGMA_SOGLIA))) 3 = 13861 # 1000 /\
  py_round (snd (sogliatura residuo_scia SIGMA_SOGLIA)) 3 = 2965 # 1000.
Proof. vm_compute. split; reflexivity. Qed.

Example live_main_scia :
  exists t' fnd buf,
    live_main regionprops_riga gradi iso_testo (repeat cielo 50 ++ [scia])
              [mk_tick "2025-03-01T21:45:00.000000"%string (ord "q")]
              "sessione" []
    = (t', Ok (mk_live fnd buf 1 [rilevamento_scia_live],
               Some ("sessione/detections.json"%string,
                     json_dump [rilevamento_scia_live]))).
Proof. do 3 eexists. vm_compute. reflexivity. Qed.

(** ** The theorems at work on the scene *)

Lemma classifica_oggetti_rule_witness :
  spec_is Debris (mk_region (NpInt 15) 0.90 (0, 0) (0, 0, 1, 15)%Z 0 0 0) = true /\
  spec_is Star (mk_region (NpInt 14) 0.90 (0, 0) (0, 0, 1, 14)%Z 0 0 0) = true.
Proof.
  pose proof (proj2 (classifica_oggetti_rule regionprops_riga gradi scia)) as H.
  split.
  - apply (H (mk_region (NpInt 15) 0.90 (0, 0) (0, 0, 1, 15)%Z 0 0 0));
      reflexivity.
  - apply (H (mk_region (NpInt 14) 0.90 (0, 0) (0, 0, 1, 14)%Z 0 0 0));
      reflexivity.
Defined.

Lemma sogliatura_spec_witness :
  nth 12 (data (fst (fst (sogliatura residuo_scia SIGMA_SOGLIA)))) 0%Z = 1%Z /\
  nth 2 (data (fst (fst (sogliatura residuo_scia SIGMA_SOGLIA)))) 0%Z = 0%Z.
Proof.
  pose proof (sogliatura_spec residuo_scia SIGMA_SOGLIA) as H.
  destruct (sogliatura residuo_scia SIGMA_SOGLIA) as [[maschera soglia] sigma] eqn:E.
  destruct H as (_ & _ & H & _). cbn [fst snd].
  assert (Es : soglia = snd (fst (sogliatura residuo_scia SIGMA_SOGLIA)))
    by (now rewrite E).
  split.
  - apply (H 12%nat); [vm_compute; lia|]. rewrite Es. vm_compute. reflexivity.
  - apply (H 2%nat); [vm_compute; lia|]. rewrite Es. vm_compute. discriminate.
Defined.

Lemma rilevamenti_fields_witness :
  Forall (batch_record regionprops_riga gradi iso_testo
                       [cielo; cielo; scia] None cielo_f)
         [rilevamento_scia] /\
  keys rilevamento_scia_live
  = [ "frame"; "timestamp"; "centroid_x"; "centroid_y"; "eccentricita";
      "orientazione"; "lunghezza_px"; "area_px" ]%string.
Proof.
  destruct (rilevamenti_fields regionprops_riga gradi iso_testo)
    as (Hb & Hl & _ & Hk).
  split.
  - exact (proj2 (Hb _ _ _ _ _ _ processa_sequenza_scia)).
  - destruct live_main_scia as (t' & fnd & buf & Hrun).
    pose proof (Hl _ _ _ _ _ _ _ Hrun) as Hall. cbn [tutti_rilevamenti] in Hall.
    inversion Hall as [|r rs Hr _]; subst. exact (proj1 (Hk _ Hr)).
Defined.

Lemma sogliatura_antitone_witness :
  (flagged (fst (fst (sogliatura residuo_scia 6)))
   <= flagged (fst (fst (sogliatura residuo_scia SIGMA_SOGLIA))))%nat.
Proof.
  apply sogliatura_antitone; vm_compute; discriminate.
Defined.

Lemma calcola_fondo_mediano_median_witness :
  exists fnd,
    calcola_fondo_mediano (repeat cielo 9 ++ [scia]) = Ok fnd /\
    (nth 12 (data fnd) 0 == 100)%Q.
Proof.
  destruct (@calcola_fondo_mediano_median (1, 40)%nat (repeat cielo 9 ++ [scia]) 12)
    as (fnd & Hok & _ & _ & _ & Hst).
  - discriminate.
  - repeat constructor.
  - vm_compute. lia.
  - exists fnd. split; [exact Hok|]. apply (Hst 100%Z). vm_compute. lia.
Defined.

Lemma calcola_fondo_mediano_errors_witness :
  calcola_fondo_mediano [cielo; mk_ndarray (2, 20)%nat (repeat 100%Z 40)]
  = Raise ValueError /\
  exists fnd, calcola_fondo_mediano [cielo; scia] = Ok fnd.
Proof.
  destruct (calcola_fondo_mediano_errors regionprops_riga gradi iso_testo)
    as (_ & Hm & _ & Hok & _).
  split.
  - apply Hm. exists cielo, (mk_ndarray (2, 20)%nat (repeat 100%Z 40)).
    split; [now left|]. split; [right; now left|]. discriminate.
  - apply (Hok (1, 40)%nat); [discriminate | repeat constructor | vm_compute; lia].
Defined.

Lemma sottrai_fondo_clip_witness :
  exists residuo,
    sottrai_fondo scia cielo_f = Ok residuo /\
    Forall (fun x => 0 <= x)%Q (data residuo).
Proof.
  destruct (@sottrai_fondo_clip scia cielo_f) as (residuo & Hok & _ & _ & Hpos & _).
  - reflexivity.
  - exists residuo. split; assumption.
Defined.

Lemma scansiona_buffer_refresh_witness :
  exists st',
    scansiona regionprops_riga gradi iso_testo (mk_live cielo_f [cielo] 29 [])
              [scia] "2025-03-01T21:45:03.000000"%string []
    = ([CResiduo; CSoglia; CClassifica; CFondo], Ok (st', [])) /\
    n_frame st' = 30%nat /\
    buffer st' = [cielo; scia] /\
    calcola_fondo_mediano [cielo; scia] = Ok (fondo st') /\
    is_median (pixel_samples 12 [cielo; scia]) (nth 12 (data (fondo st')) 0).
Proof.
  destruct (@scansiona_buffer_refresh regionprops_riga gradi string iso_testo
              (1, 40)%nat (mk_live cielo_f [cielo] 29 []) scia []
              "2025-03-01T21:45:03.000000"%string [])
    as (t' & st' & Hrun & Hn & Hb & _ & _ & _ & _ & _ & Hre & _).
  - reflexivity.
  - reflexivity.
  - repeat constructor.
  - vm_compute. lia.
  - destruct (Hre eq_refl) as (Ht & Hok & _ & Hmed).
    assert (Hb' : buffer st' = [cielo; scia]) by (rewrite Hb; reflexivity).
    rewrite Hb' in Hok, Hmed. rewrite Ht in Hrun.
    exists st'. split; [exact Hrun|]. split; [exact Hn|].
    split; [exact Hb'|]. split; [exact Hok|].
    apply (Hmed 12%nat). vm_compute. lia.
Defined.

Lemma salva_risultati_roundtrip_witness :
  json_load (snd (salva_risultati [rilevamento_scia_live] "sessione"))
  = [rilevamento_scia_live] /\
  exists t' st path doc,
    live_main regionprops_riga gradi iso_testo (repeat cielo 50 ++ [scia])
              [mk_tick "2025-03-01T21:45:00.000000"%string (ord "q")]
              "sessione" []
    = (t', Ok (st, Some (path, doc))) /\
    path = "sessione/detections.json"%string /\
    json_load doc = tutti_rilevamenti st /\
    tutti_rilevamenti st = [rilevamento_scia_live].
Proof.
  destruct live_main_scia as (t' & fnd & buf & Hrun).
  destruct (salva_risultati_roundtrip [rilevamento_scia_live] "sessione")
    as (_ & _ & _ & _ & _ & _ & _ & Hnat & _ & _ & Hlive).
  split; [apply Hnat; repeat constructor|].
  destruct (Hlive regionprops_riga gradi string iso_testo _ _ _ _ _ _ _ Hrun)
    as (Hpath & Hload).
  - intros maschera obj Hin. unfold regionprops_riga in Hin.
    destruct (Nat.eqb (fst (shape maschera)) 1); [|contradiction].
    apply in_map_iff in Hin. destruct Hin as ([s n] & <- & _). exact I.
  - do 4 eexists. split; [exact Hrun|]. split; [exact Hpath|].
    split; [exact Hload | reflexivity].
Defined.

Lemma comando_recalibrate_frame_witness :
  exists st',
    comando (mk_live cielo_f [cielo; scia] 7 [rilevamento_scia_live])
            (repeat cielo 50 ++ [scia]) (ord "r") []
    = ([CFondo], Ok (st', [scia], false)) /\
    buffer st' = repeat cielo 50 /\
    n_frame st' = 7%nat /\
    tutti_rilevamenti st' = [rilevamento_scia_live].
Proof.
  destruct (@comando_recalibrate_frame regionprops_riga gradi string iso_testo
              (1, 40)%nat (mk_live cielo_f [cielo; scia] 7 [rilevamento_scia_live])
              (repeat cielo 50) [scia] (ord "r") [])
    as ((st' & Hrun & _ & Hb & Hn & Ht & _) & _).
  - reflexivity.
  - reflexivity.
  - repeat constructor.
  - vm_compute. lia.
  - exists st'. repeat split; assumption.
Defined.

(** ** Where the specification and the code part *)

(** The live record of the streak has eight entries and none for sigma or the
    threshold; the batch record holds under [sigma_soglia] the rounded sigma
    2.965 of its frame, whose rounded threshold is 13.861. *)
Lemma rilevamenti_fields_counterexample :
  (exists t' st out,
     live_main regionprops_riga gradi iso_testo (repeat cielo 50 ++ [scia])
               [mk_tick "2025-03-01T21:45:00.000000"%string (ord "q")]
               "sessione" []
     = (t', Ok (st, out)) /\
     tutti_rilevamenti st = [rilevamento_scia_live] /\
     length rilevamento_scia_live = 8%nat /\
     dict_get "sigma_soglia" rilevamento_scia_live = None) /\
  (exists t' fnd residuo,
     processa_sequenza regionprops_riga gradi iso_testo [cielo; cielo; scia] None []
     = (t', Ok ([rilevamento_scia], fnd)) /\
     sottrai_fondo scia fnd = Ok residuo /\
     py_round (snd (fst (sogliatura residuo SIGMA_SOGLIA))) 3 = 13861 # 1000 /\
     dict_get "sigma_soglia" rilevamento_scia
     = Some (PyNum (NpFloat32 (2965 # 1000)))).
Proof.
  split.
  - destruct live_main_scia as (t' & fnd & buf & Hrun).
    eexists t', _, _. split; [exact Hrun|]. repeat split.
  - eexists _, cielo_f, residuo_scia.
    split; [exact processa_sequenza_scia|].
    split; [exact sottrai_fondo_scia|].
    split; [exact (proj1 soglia_scia) | reflexivity].
Qed.

(** A non-empty collection of one resolution on which
    [calcola_fondo_mediano] raises: a frame of 0 x 640 pixels. *)
Lemma calcola_fondo_mediano_errors_counterexample :
  length [mk_ndarray (0, 640)%nat (@nil Z)] = 1%nat /\
  same_resolution (0, 640)%nat [mk_ndarray (0, 640)%nat (@nil Z)] /\
  calcola_fondo_mediano [mk_ndarray (0, 640)%nat (@nil Z)] = Raise ValueError.
Proof.
  split; [reflexivity|]. split; [repeat constructor | reflexivity].
Qed.

(** The record the batch driver emits for the streak holds its sigma as a
    [float32]; it is read back with [sigma_soglia] as the string "2.965",
    while its area comes back as the number it was. *)
Lemma salva_risultati_roundtrip_counterexample :
  (exists t' fnd,
     processa_sequenza regionprops_riga gradi iso_testo [cielo; cielo; scia] None []
     = (t', Ok ([rilevamento_scia], fnd))) /\
  json_load (snd (salva_risultati [rilevamento_scia] "sessione"))
  <> [rilevamento_scia] /\
  dict_get "sigma_soglia" rilevamento_scia
  = Some (PyNum (NpFloat32 (2965 # 1000))) /\
  map (dict_get "sigma_soglia")
      (json_load (snd (salva_risultati [rilevamento_scia] "sessione")))
  = [Some (PyStr "2.965")] /\
  map (dict_get "area_px")
      (json_load (snd (salva_risultati [rilevamento_scia] "sessione")))
  = [Some (PyNum (PyFloat (16 # 1)))].
Proof.
  split; [do 2 eexists; exact processa_sequenza_scia|].
  split; [vm_compute; discriminate|]. repeat split.
Qed.

(** * Further properties of the pipeline *)

(** ** The median: range and order of the samples *)

Definition count_gt (x : Q) (l : list Q) : nat :=
  length (filter (fun y => Qgtb y x) l).

Lemma half_bounds (n : nat) :
  (n <> 0)%nat -> (n / 2 < n)%nat /\ (n / 2 - 1 < n)%nat /\ (n <= 2 * (n / 2) + 1)%nat /\
                  (2 * (n / 2) <= n)%nat.
Proof.
  intros Hn. pose proof (Nat.div_mod_eq n 2) as Hdm.
  pose proof (Nat.mod_upper_bound n 2 ltac:(lia)) as Hmod. lia.
Qed.

Lemma even_double_half (n : nat) : Nat.even n = true -> (2 * (n / 2) = n)%nat.
Proof.
  intros E. apply Nat.even_spec in E. destruct E as [k ->].
  replace (2 * k)%nat with (k * 2)%nat at 1 by lia. rewrite Nat.div_mul; lia.
Qed.

Lemma np_sort_nth_In (l : list Q) (i : nat) :
  (i < length l)%nat -> In (nth i (np_sort l) 0) l.
Proof.
  intros Hi. eapply Permutation_in; [apply Permutation_sym, np_sort_perm|].
  apply nth_In. now rewrite np_sort_length.
Qed.

Lemma np_median_bounds (lo hi : Q) (l : list Q) :
  l <> [] -> Forall (fun x => lo <= x /\ x <= hi)%Q l ->
  (lo <= np_median l /\ np_median l <= hi)%Q.
Proof.
  intros Hne Hall.
  assert (Hn : length l <> O) by (destruct l; simpl; congruence).
  destruct (half_bounds Hn) as (H1 & H2 & _).
  assert (Hnth : forall i, (i < length l)%nat ->
                           (lo <= nth i (np_sort l) 0 /\ nth i (np_sort l) 0 <= hi)%Q).
  { intros i Hi. rewrite Forall_forall in Hall. apply Hall.
    now apply np_sort_nth_In. }
  unfold np_median. destruct (Nat.even (length l)); [|now apply Hnth].
  destruct (Hnth _ H1) as [Ha1 Ha2]. destruct (Hnth _ H2) as [Hb1 Hb2]. split.
  - apply Qle_shift_div_l; [reflexivity|].
    setoid_replace (lo * 2)%Q with (lo + lo)%Q by ring.
    now apply Qplus_le_compat.
  - apply Qle_shift_div_r; [reflexivity|].
    setoid_replace (hi * 2)%Q with (hi + hi)%Q by ring.
    now apply Qplus_le_compat.
Qed.

Lemma sorted_nth_counts (s : list Q) :
  StronglySorted Qle s ->
  forall i, (i < length s)%nat ->
    (count_lt (nth i s 0%Q) s <= i
     /\ i < count_lt (nth i s 0%Q) s + count_eq (nth i s 0%Q) s)%nat.
Proof.
  induction 1 as [|x s Hs IH Hall]; intros i Hi; [simpl in Hi; lia|].
  destruct i as [|j].
  - cbn [nth]. pose proof (count_lt_zero_ge Hall) as Hz.
    unfold count_lt, count_eq in *. cbn [filter].
    assert (E1 : Qgtb x x = false) by (apply Qgtb_false, Qle_refl).
    rewrite E1, (Qeq_bool_refl x). cbn [length]. lia.
  - cbn [nth]. simpl in Hi. assert (Hj : (j < length s)%nat) by lia.
    specialize (IH j Hj). set (v := nth j s 0) in *.
    assert (Hxv : (x <= v)%Q).
    { rewrite Forall_forall in Hall. apply Hall. now apply nth_In. }
    unfold count_lt, count_eq in *. cbn [filter].
    destruct (Qgtb v x) eqn:E1.
    + assert (E2 : Qeq_bool x v = false).
      { apply Qgtb_true in E1. destruct (Qeq_bool x v) eqn:E; [|reflexivity].
        apply Qeq_bool_iff in E. rewrite E in E1. exfalso. apply (Qlt_irrefl _ E1). }
      rewrite E2. cbn [length]. lia.
    + assert (E2 : Qeq_bool x v = true).
      { apply Qgtb_false in E1. apply Qeq_bool_iff. now apply Qle_antisym. }
      rewrite E2. cbn [length]. lia.
Qed.

Lemma np_sort_perm_nth (l l' : list Q) (i : nat) :
  Permutation l l' -> (i < length l)%nat ->
  (nth i (np_sort l) 0 == nth i (np_sort l') 0)%Q.
Proof.
  intros Hp Hi. apply sorted_nth_run; [apply np_sort_sorted|].
  assert (Hc : forall f, length (filter f (np_sort l)) = length (filter f (np_sort l'))).
  { intros f. rewrite <- (count_perm f (np_sort_perm l)).
    rewrite <- (count_perm f (np_sort_perm l')). now apply count_perm. }
  unfold count_lt, count_eq. rewrite !Hc.
  apply sorted_nth_counts; [apply np_sort_sorted|].
  rewrite np_sort_length. now rewrite <- (Permutation_length Hp).
Qed.

Lemma np_median_perm (l l' : list Q) :
  Permutation l l' -> (np_median l == np_median l')%Q.
Proof.
  intros Hp. destruct l as [|x l0].
  - apply Permutation_nil in Hp. subst. reflexivity.
  - set (l := x :: l0) in *.
    assert (Hn : length l <> O) by discriminate.
    destruct (half_bounds Hn) as (H1 & H2 & _).
    unfold np_median. rewrite <- (Permutation_length Hp).
    destruct (Nat.even (length l)).
    + rewrite (np_sort_perm_nth Hp H1), (np_sort_perm_nth Hp H2). reflexivity.
    + now apply np_sort_perm_nth.
Qed.

Lemma sorted_count_gt (x : Q) (s : list Q) :
  StronglySorted Qle s ->
  forall i, (i < length s)%nat -> (nth i s 0 <= x)%Q ->
            (count_gt x s <= length s - S i)%nat.
Proof.
  induction 1 as [|y s Hs IH Hall]; intros i Hi Hx; [simpl in Hi; lia|].
  assert (Hfl : (count_gt x s <= length s)%nat) by apply filter_length_le.
  simpl in Hi. unfold count_gt in *. cbn [filter].
  destruct i as [|j]; cbn [nth] in Hx.
  - assert (E : Qgtb y x = false) by (now apply Qgtb_false).
    rewrite E. cbn [length]. lia.
  - assert (Hj : (j < length s)%nat) by lia.
    assert (Hy : (y <= x)%Q).
    { eapply Qle_trans; [|exact Hx]. rewrite Forall_forall in Hall.
      apply Hall. now apply nth_In. }
    assert (E : Qgtb y x = false) by (now apply Qgtb_false).
    rewrite E. specialize (IH j Hj Hx). cbn [length]. lia.
Qed.

(** At most half of the samples are strictly above their median. *)
Lemma np_median_count_gt (l : list Q) :
  (2 * count_gt (np_median l) l <= length l)%nat.
Proof.
  destruct l as [|x0 l0]; [simpl; lia|]. set (l := x0 :: l0).
  assert (Hn : length l <> O) by discriminate.
  destruct (half_bounds Hn) as (H1 & H2 & H3 & H4).
  assert (Hc : forall x, count_gt x l = count_gt x (np_sort l))
    by (intro; apply count_perm, np_sort_perm).
  pose proof (np_sort_sorted l) as Hs.
  pose proof (np_sort_length l) as Hlen.
  unfold np_median. destruct (Nat.even (length l)) eqn:E.
  - pose proof (even_double_half _ E) as Hd.
    rewrite Hc.
    assert (Hle : (nth (length l / 2 - 1) (np_sort l) 0
                   <= (nth (length l / 2 - 1) (np_sort l) 0
                       + nth (length l / 2) (np_sort l) 0) / 2)%Q).
    { apply Qle_shift_div_l; [reflexivity|].
      setoid_replace (nth (length l / 2 - 1) (np_sort l) 0 * 2)%Q
        with (nth (length l / 2 - 1) (np_sort l) 0
              + nth (length l / 2 - 1) (np_sort l) 0)%Q by ring.
      apply Qplus_le_r.
      assert (Hmono : forall s, StronglySorted Qle s -> forall i,
                 (S i < length s)%nat -> (nth i s 0 <= nth (S i) s 0)%Q).
      { induction 1 as [|y s Hs' IH Hall]; intros i Hi; [simpl in Hi; lia|].
        destruct i as [|j]; cbn [nth].
        - rewrite Forall_forall in Hall. apply Hall. apply nth_In. simpl in Hi. lia.
        - apply IH. simpl in Hi. lia. }
      replace (length l / 2)%nat with (S (length l / 2 - 1)) at 2 by lia.
      apply Hmono; [exact Hs|]. rewrite Hlen. lia. }
    pose proof (@sorted_count_gt _ _ Hs (length l / 2 - 1)%nat
                  ltac:(rewrite Hlen; lia) Hle) as Hb.
    rewrite Hlen in Hb. lia.
  - rewrite Hc.
    pose proof (@sorted_count_gt _ _ Hs (length l / 2)%nat
                  ltac:(rewrite Hlen; lia) (Qle_refl _)) as Hb.
    rewrite Hlen in Hb. lia.
Qed.

Lemma np_median_uniform (c : Q) (l : list Q) :
  l <> [] -> Forall (fun x => x == c)%Q l -> (np_median l == c)%Q.
Proof.
  intros Hne Hall. apply np_median_majority.
  assert (Hc : count_eq c l = length l).
  { clear Hne. unfold count_eq. induction Hall as [|x l Hx _ IH]; [reflexivity|].
    cbn [filter]. apply Qeq_bool_iff in Hx. rewrite Hx. cbn [length].
    now rewrite IH. }
  rewrite Hc. destruct l; [congruence | simpl; lia].
Qed.

(** X1. The background never leaves the range of the samples: when pixel [p]
    lies between [lo] and [hi] in every frame of a valid collection, so does
    the background at [p]. *)
Theorem calcola_fondo_mediano_range :
  forall (sh : nat * nat) (frames : list (ndarray Z)) (p : nat) (lo hi : Z),
    frames <> [] -> same_resolution sh frames -> (p < fst sh * snd sh)%nat ->
    (forall f, In f frames -> (lo <= nth p (data f) 0 <= hi)%Z) ->
    exists fnd,
      calcola_fondo_mediano frames = Ok fnd /\
      (inject_Z lo <= nth p (data fnd) 0 /\ nth p (data fnd) 0 <= inject_Z hi)%Q.
Proof.
  intros sh frames p lo hi Hne Hsame Hp Hr. exists (fondo_atteso sh frames).
  split; [apply calcola_fondo_mediano_ok; auto; lia|].
  rewrite (nth_fondo_atteso _ _ Hp). apply np_median_bounds.
  - unfold pixel_samples. destruct frames; [congruence | discriminate].
  - unfold pixel_samples. apply Forall_forall. intros x Hx.
    apply in_map_iff in Hx. destruct Hx as (f & <- & Hf).
    destruct (Hr f Hf) as [H1 H2]. split; now rewrite <- Zle_Qle.
Qed.

(** X2. The background does not depend on the order of the frames: two
    orderings of one valid collection give, at every pixel, the same value. *)
Theorem calcola_fondo_mediano_order :
  forall (sh : nat * nat) (frames frames' : list (ndarray Z)) (p : nat),
    frames <> [] -> same_resolution sh frames -> Permutation frames frames' ->
    (p < fst sh * snd sh)%nat ->
    exists fnd fnd',
      calcola_fondo_mediano frames = Ok fnd /\
      calcola_fondo_mediano frames' = Ok fnd' /\
      shape fnd = shape fnd' /\
      (nth p (data fnd) 0 == nth p (data fnd') 0)%Q.
Proof.
  intros sh frames frames' p Hne Hsame Hperm Hp.
  assert (Hne' : frames' <> []).
  { intros ->. apply Permutation_sym, Permutation_nil in Hperm. congruence. }
  assert (Hsame' : same_resolution sh frames')
    by (eapply Permutation_Forall; eauto).
  exists (fondo_atteso sh frames), (fondo_atteso sh frames').
  split; [apply calcola_fondo_mediano_ok; auto; lia|].
  split; [apply calcola_fondo_mediano_ok; auto; lia|].
  split; [reflexivity|].
  rewrite !(nth_fondo_atteso _ _ Hp). apply np_median_perm.
  unfold pixel_samples. now apply Permutation_map.
Qed.

(** ** The residual: broadcasting and dark frames *)

Definition broadcastable (a b : nat) : Prop := a = b \/ a = 1%nat \/ b = 1%nat.

Lemma broadcast_dim_None (a b : nat) :
  broadcast_dim a b = None <-> ~ broadcastable a b.
Proof.
  unfold broadcast_dim, broadcastable.
  destruct (Nat.eqb_spec a b), (Nat.eqb_spec a 1), (Nat.eqb_spec b 1);
    split; intros H; try discriminate; try reflexivity; try tauto.
Qed.

Lemma broadcast_dim_Some (a b r : nat) :
  broadcast_dim a b = Some r -> broadcastable a b.
Proof.
  unfold broadcast_dim, broadcastable.
  destruct (Nat.eqb_spec a b), (Nat.eqb_spec a 1), (Nat.eqb_spec b 1);
    intros H; try discriminate; tauto.
Qed.

Lemma sottrai_fondo_same_shape_eq (frame : ndarray Z) (fnd : ndarray Q) :
  shape frame = shape fnd ->
  sottrai_fondo frame fnd
  = Ok (mk_ndarray (shape frame)
          (map (fun p => clip0 (inject_Z (nth p (data frame) 0%Z)
                                - nth p (data fnd) 0))
               (seq 0 (size frame)))).
Proof.
  intros Hsh. unfold sottrai_fondo. rewrite <- Hsh, !broadcast_dim_refl.
  f_equal. unfold size. f_equal; [now destruct (shape frame)|].
  rewrite map_map. apply map_ext_in. intros p Hp. apply in_seq in Hp.
  assert (Hp' : (p < fst (shape frame) * snd (shape frame))%nat) by lia.
  pose proof (@bget_flat Q 0 (mk_ndarray (shape frame) (astype_float (data frame))) p)
    as Hf.
  unfold size in Hf. cbn [shape data] in Hf. rewrite Hf by exact Hp'.
  pose proof (@bget_flat Q 0 fnd p) as Hb. unfold size in Hb.
  rewrite <- Hsh in Hb. rewrite Hb by exact Hp'.
  unfold astype_float. change 0%Q with (inject_Z 0) at 1. now rewrite map_nth.
Qed.

(** X3. [sottrai_fondo] raises exactly when the two shapes do not broadcast
    (a dimension differs and neither side has length 1 there), and then it
    raises ValueError; a background of shape 1 x 1 is accepted for a frame
    of any shape and its single value is subtracted from every pixel. *)
Theorem sottrai_fondo_broadcast :
  forall (frame : ndarray Z) (fnd : ndarray Q),
    (forall e, sottrai_fondo frame fnd = Raise e -> e = ValueError) /\
    (sottrai_fondo frame fnd = Raise ValueError <->
     ~ (broadcastable (fst (shape frame)) (fst (shape fnd)) /\
        broadcastable (snd (shape frame)) (snd (shape fnd)))) /\
    (shape fnd = (1, 1)%nat ->
     sottrai_fondo frame fnd
     = Ok (mk_ndarray (shape frame)
             (map (fun p => clip0 (inject_Z (nth p (data frame) 0%Z)
                                   - nth 0 (data fnd) 0))
                  (seq 0 (size frame))))).
Proof.
  intros frame fnd. split; [|split].
  - unfold sottrai_fondo. intros e.
    destruct (broadcast_dim _ _); [destruct (broadcast_dim _ _)|]; congruence.
  - unfold sottrai_fondo.
    destruct (broadcast_dim (fst (shape frame)) (fst (shape fnd))) as [r|] eqn:Er.
    + destruct (broadcast_dim (snd (shape frame)) (snd (shape fnd))) as [c|] eqn:Ec.
      * split; [discriminate|]. intros H. exfalso. apply H.
        split; eapply broadcast_dim_Some; eauto.
      * split; [|reflexivity]. intros _ [_ H].
        apply broadcast_dim_None in Ec. contradiction.
    + split; [|reflexivity]. intros _ [H _].
      apply broadcast_dim_None in Er. contradiction.
  - intros Hsh. unfold sottrai_fondo. rewrite Hsh. cbn [fst snd].
    assert (Hb : forall a, broadcast_dim a 1 = Some a).
    { intros a. unfold broadcast_dim. destruct (Nat.eqb_spec a 1); [reflexivity|].
      reflexivity. }
    rewrite !Hb. f_equal. unfold size. f_equal; [now destruct (shape frame)|].
    rewrite map_map. apply map_ext_in. intros p Hp. apply in_seq in Hp.
    assert (Hp' : (p < fst (shape frame) * snd (shape frame))%nat) by lia.
    pose proof (@bget_flat Q 0 (mk_ndarray (shape frame) (astype_float (data frame))) p)
      as Hf.
    unfold size in Hf. cbn [shape data] in Hf. rewrite Hf by exact Hp'.
    unfold bget. rewrite Hsh. cbn [fst snd Nat.eqb Nat.mul Nat.add].
    unfold astype_float. change 0%Q with (inject_Z 0) at 1. now rewrite map_nth.
Qed.

(** ** The threshold: how much a mask can flag *)

Lemma filter_none {A : Type} (f : A -> bool) (l : list A) :
  (forall x, In x l -> f x = false) -> length (filter f l) = O.
Proof.
  induction l as [|x l IH]; intros H; [reflexivity|]. cbn [filter].
  rewrite (H x (or_introl eq_refl)). apply IH. intros y Hy. apply H. now right.
Qed.

(** X4. With a non-negative multiplier the mask flags at most half of the
    pixels of the residual. *)
Theorem sogliatura_at_most_half :
  forall (residuo : ndarray Q) (k : Q),
    (0 <= k)%Q ->
    (2 * flagged (fst (fst (sogliatura residuo k))) <= length (data residuo))%nat.
Proof.
  intros residuo k Hk. rewrite flagged_count.
  pose proof (np_median_count_gt (data residuo)) as Hm.
  pose proof (sigma_nonneg residuo k) as Hs.
  unfold sogliatura in *. cbn [fst snd] in *. unfold count_gt in Hm.
  set (mediana := np_median (data residuo)) in *.
  set (sigma := (np_median (map (fun x => Qabs (x - mediana)) (data residuo))
                 * 1.4826)%Q) in *.
  assert (Hle : (length (filter (fun x => Qgtb x (mediana + k * sigma)) (data residuo))
                 <= length (filter (fun y => Qgtb y mediana) (data residuo)))%nat).
  { apply filter_length_mono. intros x Hx. apply Qgtb_true in Hx. apply Qgtb_true.
    eapply Qle_lt_trans; [|exact Hx].
    setoid_replace mediana with (mediana + 0)%Q at 1 by ring.
    apply Qplus_le_r. now apply Qmult_le_0_compat. }
  lia.
Qed.

Lemma uniform_stats (residuo : ndarray Q) (k c : Q) :
  data residuo <> [] -> Forall (fun x => x == c)%Q (data residuo) ->
  (snd (sogliatura residuo k) == 0)%Q /\
  (snd (fst (sogliatura residuo k)) == c)%Q.
Proof.
  intros Hne Hall. unfold sogliatura. cbn [fst snd].
  pose proof (np_median_uniform Hne Hall) as Hmed.
  set (mediana := np_median (data residuo)) in *.
  assert (Hmad : (np_median (map (fun x => Qabs (x - mediana)) (data residuo)) == 0)%Q).
  { apply np_median_uniform.
    - destruct (data residuo); [congruence | discriminate].
    - apply Forall_forall. intros y Hy. apply in_map_iff in Hy.
      destruct Hy as (x & <- & Hx). rewrite Forall_forall in Hall.
      rewrite (Hall x Hx), Hmed.
      setoid_replace (c - c)%Q with 0%Q by ring. reflexivity. }
  rewrite Hmad, Hmed. split; ring.
Qed.

Lemma uniform_flags_nothing (residuo : ndarray Q) (k c : Q) :
  Forall (fun x => x == c)%Q (data residuo) ->
  flagged (fst (fst (sogliatura residuo k))) = O.
Proof.
  intros Hall. rewrite flagged_count.
  destruct (data residuo) as [|x0 l0] eqn:El; [reflexivity|].
  rewrite <- El in *.
  assert (Hne : data residuo <> []) by (rewrite El; discriminate).
  destruct (@uniform_stats residuo k c Hne Hall) as [_ Hs].
  apply filter_none. intros x Hx. apply Qgtb_false.
  rewrite Forall_forall in Hall. rewrite (Hall x Hx), Hs. apply Qle_refl.
Qed.

(** X5. On a residual whose pixels all have one value, sigma is 0, the
    threshold is that value, and the mask flags nothing, whatever the
    multiplier. *)
Theorem sogliatura_uniform :
  forall (residuo : ndarray Q) (k c : Q),
    data residuo <> [] ->
    Forall (fun x => x == c)%Q (data residuo) ->
    let '(maschera, soglia, sigma) := sogliatura residuo k in
    (sigma == 0)%Q /\ (soglia == c)%Q /\
    Forall (fun v => v = 0%Z) (data maschera) /\
    flagged maschera = O.
Proof.
  intros residuo k c Hne Hall.
  pose proof (@uniform_stats residuo k c Hne Hall) as [Hsig Hsog].
  pose proof (@uniform_flags_nothing residuo k c Hall) as Hfl.
  destruct (sogliatura residuo k) as [[maschera soglia] sigma] eqn:E.
  cbn [fst snd] in *. split; [exact Hsig|]. split; [exact Hsog|].
  split; [|exact Hfl].
  assert (Em : maschera = fst (fst (sogliatura residuo k))) by (now rewrite E).
  assert (Es : soglia = snd (fst (sogliatura residuo k))) by (now rewrite E).
  rewrite Em. unfold sogliatura at 1. cbn [fst data].
  apply Forall_forall. intros v Hv. apply in_map_iff in Hv.
  destruct Hv as (x & <- & Hx).
  replace (np_median (data residuo) +
           k * (np_median (map (fun x1 => Qabs (x1 - np_median (data residuo)))
                               (data residuo)) * 1.4826))%Q
    with soglia by (rewrite Es; reflexivity).
  assert (Ef : Qgtb x soglia = false).
  { apply Qgtb_false. rewrite Forall_forall in Hall.
    rewrite (Hall x Hx), Hsog. apply Qle_refl. }
  now rewrite Ef.
Qed.

(** X6. A frame that is nowhere brighter than the background gives a
    residual that is 0 everywhere and a mask that flags nothing. *)
Theorem dark_frame_flags_nothing :
  forall (frame : ndarray Z) (fnd : ndarray Q) (k : Q),
    shape frame = shape fnd ->
    (forall p, (p < size frame)%nat ->
               (inject_Z (nth p (data frame) 0%Z) <= nth p (data fnd) 0)%Q) ->
    exists residuo,
      sottrai_fondo frame fnd = Ok residuo /\
      Forall (fun x => x == 0)%Q (data residuo) /\
      flagged (fst (fst (sogliatura residuo k))) = O.
Proof.
  intros frame fnd k Hsh Hdark. eexists.
  split; [now apply sottrai_fondo_same_shape_eq|].
  assert (Hz : Forall (fun x => x == 0)%Q
                 (map (fun p => clip0 (inject_Z (nth p (data frame) 0%Z)
                                       - nth p (data fnd) 0))
                      (seq 0 (size frame)))).
  { apply Forall_forall. intros x Hx. apply in_map_iff in Hx.
    destruct Hx as (p & <- & Hp). apply in_seq in Hp. apply clip0_neg.
    specialize (Hdark p ltac:(lia)).
    apply (Qplus_le_l _ _ (nth p (data fnd) 0)). ring_simplify. exact Hdark. }
  split; [exact Hz|]. now apply (@uniform_flags_nothing _ k 0%Q).
Qed.

(** ** Rounding *)

From Stdlib Require Import Lqa DecimalNat.

Lemma round_half_even_close (y : Q) :
  (inject_Z (round_half_even y) - (1 # 2) <= y
   /\ y <= inject_Z (round_half_even y) + (1 # 2))%Q.
Proof.
  unfold round_half_even.
  pose proof (Qfloor_le y) as Hlo. pose proof (Qlt_floor y) as Hhi.
  rewrite inject_Z_plus in Hhi. change (inject_Z 1) with 1%Q in Hhi.
  set (f := Qfloor y) in *.
  destruct (Qcompare_spec (y - inject_Z f) (1 # 2)) as [He | Hl | Hg].
  - destruct (Z.even f); [|rewrite inject_Z_plus; change (inject_Z 1) with 1%Q];
      split; lra.
  - split; lra.
  - rewrite inject_Z_plus. change (inject_Z 1) with 1%Q. split; lra.
Qed.

Lemma round_half_even_ge (k : Z) (y : Q) :
  (inject_Z k <= y)%Q -> (k <= round_half_even y)%Z.
Proof.
  intros H. apply Qfloor_resp_le in H. rewrite Qfloor_Z in H.
  unfold round_half_even.
  destruct (Qcompare _ _); [destruct (Z.even _)| |]; lia.
Qed.

Lemma Qmake_scaled (r : Z) (P : positive) :
  ((r # P) * inject_Z (Z.pos P) == inject_Z r)%Q.
Proof. unfold Qeq, Qmult, inject_Z. simpl. rewrite Pos.mul_1_r. ring. Qed.

Lemma pow10_pos (n : nat) : (0 < 10 ^ Z.of_nat n)%Z.
Proof. apply Z.pow_pos_nonneg; lia. Qed.

(** [round(x, n)] is within half a unit of the n-th decimal place of [x]. *)
Lemma py_round_close (x : Q) (n : nat) :
  (Qabs (py_round x n - x) <= 1 # (2 * Z.to_pos (10 ^ Z.of_nat n)))%Q.
Proof.
  unfold py_round. set (P := Z.to_pos (10 ^ Z.of_nat n)).
  assert (HP : inject_Z (10 ^ Z.of_nat n) = inject_Z (Z.pos P))
    by (unfold P; now rewrite Z2Pos.id by apply pow10_pos).
  rewrite HP. set (Pq := inject_Z (Z.pos P)).
  assert (Hpos : (0 < Pq)%Q) by (unfold Pq, Qlt, inject_Z; simpl; lia).
  destruct (round_half_even_close (x * Pq)) as [H1 H2].
  set (r := round_half_even (x * Pq)) in *.
  pose proof (Qmake_scaled r P) as Hr. fold Pq in Hr.
  assert (Hhalf : ((1 # (2 * P)) * Pq == 1 # 2)%Q).
  { unfold Pq, Qeq, Qmult, inject_Z. simpl. rewrite Pos.mul_1_r. lia. }
  apply Qabs_Qle_condition. split.
  - apply (Qmult_le_r _ _ Pq Hpos).
    setoid_replace (- (1 # 2 * P) * Pq)%Q with (- ((1 # 2 * P) * Pq))%Q by ring.
    setoid_replace (((r # P) - x) * Pq)%Q with ((r # P) * Pq - x * Pq)%Q by ring.
    rewrite Hhalf, Hr. lra.
  - apply (Qmult_le_r _ _ Pq Hpos).
    setoid_replace (((r # P) - x) * Pq)%Q with ((r # P) * Pq - x * Pq)%Q by ring.
    rewrite Hhalf, Hr. lra.
Qed.

(** Rounding does not take a value below a bound that has itself at most
    [n] decimal places. *)
Lemma py_round_ge (c : Z) (x : Q) (n : nat) :
  (c # Z.to_pos (10 ^ Z.of_nat n) <= x)%Q ->
  (c # Z.to_pos (10 ^ Z.of_nat n) <= py_round x n)%Q.
Proof.
  unfold py_round. set (P := Z.to_pos (10 ^ Z.of_nat n)).
  assert (HP : inject_Z (10 ^ Z.of_nat n) = inject_Z (Z.pos P))
    by (unfold P; now rewrite Z2Pos.id by apply pow10_pos).
  rewrite HP. set (Pq := inject_Z (Z.pos P)).
  assert (Hpos : (0 < Pq)%Q) by (unfold Pq, Qlt, inject_Z; simpl; lia).
  intros H.
  assert (Hk : (inject_Z c <= x * Pq)%Q).
  { rewrite <- (Qmake_scaled c P). fold Pq. now apply Qmult_le_r. }
  apply round_half_even_ge in Hk.
  unfold Qle. simpl. apply Z.mul_le_mono_nonneg_r; [lia | exact Hk].
Qed.

Section Oltre.

Variable regionprops_label : ndarray Z -> list RegionProps.
Variable np_degrees : Q -> Q.
Variable datetime : Type.
Variable isoformat : datetime -> string.

Local Abbreviation classifica := (classifica_oggetti regionprops_label np_degrees).
Local Abbreviation processa := (processa_sequenza regionprops_label np_degrees isoformat).
Local Abbreviation processa_ciclo := (processa_loop regionprops_label np_degrees isoformat).
Local Abbreviation rileva := (detect regionprops_label np_degrees).

(** ** What the classifier hands to its callers *)

Lemma spec_is_survivor (obj : RegionProps) :
  Qle_bool AREA_MIN_STELLA (num (area obj))
  = spec_is Debris obj || spec_is Star obj.
Proof.
  unfold spec_is, spec_rule, Qgtb.
  destruct (Qle_bool AREA_MIN_STELLA (num (area obj))); cbn [negb]; [|reflexivity].
  destruct (Qle_bool ECCENTRICITA_MIN (eccentricity obj)
            && Qle_bool AREA_MIN_STREAK (num (area obj))); reflexivity.
Qed.

Lemma spec_is_exclusive (obj : RegionProps) :
  spec_is Debris obj && spec_is Star obj = false.
Proof.
  unfold spec_is, spec_rule.
  destruct (Qgtb AREA_MIN_STELLA (num (area obj))); [reflexivity|].
  destruct (Qle_bool ECCENTRICITA_MIN (eccentricity obj)
            && Qle_bool AREA_MIN_STREAK (num (area obj))); reflexivity.
Qed.

Lemma partition_count (proprieta : list RegionProps) :
  (length (filter (spec_is Debris) proprieta)
   + length (filter (spec_is Star) proprieta)
   = length (filter (fun obj => Qle_bool AREA_MIN_STELLA (num (area obj)))
                    proprieta))%nat.
Proof.
  induction proprieta as [|obj rest IH]; [reflexivity|]. cbn [filter].
  rewrite spec_is_survivor. pose proof (spec_is_exclusive obj) as Hex.
  destruct (spec_is Debris obj), (spec_is Star obj); cbn [orb length] in *;
    try discriminate; lia.
Qed.

(** X7. Every Debris that [classifica_oggetti] returns has area >= 15 and a
    stored eccentricity >= 0.90 (rounding to 4 places does not take it below
    the floor), every Star has area >= 3, and the two lists together have
    exactly one entry per region of area >= 3. *)
Theorem classifica_oggetti_floors :
  forall maschera : ndarray Z,
    let '(detriti, stelle) := classifica maschera in
    Forall (fun d => 15 <= num (d_area d) /\ 0.90 <= d_eccentricita d)%Q detriti /\
    Forall (fun s => 3 <= num (s_area s))%Q stelle /\
    (length detriti + length stelle
     = length (filter (fun obj => Qle_bool 3 (num (area obj)))
                      (regionprops_label maschera)))%nat /\
    (length detriti + length stelle <= length (regionprops_label maschera))%nat.
Proof.
  intros maschera. rewrite classifica_oggetti_closed.
  split; [|split; [|split]].
  - apply Forall_forall. intros d Hd. apply in_map_iff in Hd.
    destruct Hd as (obj & <- & Hobj). apply filter_In in Hobj.
    destruct Hobj as [_ Hobj]. apply spec_is_Debris_iff in Hobj.
    destruct Hobj as (_ & He & Ha). cbn [to_detrito d_area d_eccentricita].
    split; [exact Ha|].
    apply Qle_trans with (9000 # Z.to_pos (10 ^ Z.of_nat 4))%Q;
      [vm_compute; discriminate|].
    apply py_round_ge. eapply Qle_trans; [|exact He]. vm_compute. discriminate.
  - apply Forall_forall. intros s Hs. apply in_map_iff in Hs.
    destruct Hs as (obj & <- & Hobj). apply filter_In in Hobj.
    destruct Hobj as [_ Hobj]. apply spec_is_Star_iff in Hobj.
    now destruct Hobj as (Ha & _).
  - rewrite !length_map. apply partition_count.
  - rewrite !length_map, partition_count. apply filter_length_le.
Qed.

(** X8. Every Debris that [classifica_oggetti] returns comes from a region
    of the mask: area, centroid and bounding box are the region's, and the
    stored eccentricity, orientation (degrees), length and width are within
    half a unit of their last decimal place of the region's values. *)
Theorem classifica_oggetti_traces_region :
  forall (maschera : ndarray Z) (d : detrito),
    In d (fst (classifica maschera)) ->
    exists obj,
      In obj (regionprops_label maschera) /\
      d_area d = area obj /\ d_centroid d = centroid obj /\ d_bbox d = bbox obj /\
      (Qabs (d_eccentricita d - eccentricity obj) <= 1 # 20000)%Q /\
      (Qabs (d_orientazione d - np_degrees (orientation obj)) <= 1 # 200)%Q /\
      (Qabs (d_lunghezza d - major_axis_length obj) <= 1 # 200)%Q /\
      (Qabs (d_larghezza d - minor_axis_length obj) <= 1 # 200)%Q.
Proof.
  intros maschera d Hd. rewrite classifica_oggetti_closed in Hd. cbn [fst] in Hd.
  apply in_map_iff in Hd. destruct Hd as (obj & <- & Hobj).
  apply filter_In in Hobj. destruct Hobj as [Hin _]. exists obj.
  split; [exact Hin|]. cbn. repeat (split; [reflexivity|]).
  split; [apply (py_round_close (eccentricity obj) 4)|].
  split; [apply (py_round_close (np_degrees (orientation obj)) 2)|].
  split; [apply (py_round_close (major_axis_length obj) 2)|].
  apply (py_round_close (minor_axis_length obj) 2).
Qed.

Unset Implicit Arguments.

(** ** The batch driver on a valid sequence *)

(** The residual of a frame against a background of its own shape. *)
Definition residuo_di (fnd : ndarray Q) (frame : ndarray Z) : ndarray Q :=
  mk_ndarray (shape frame)
    (map (fun p => clip0 (inject_Z (nth p (data frame) 0%Z) - nth p (data fnd) 0))
         (seq 0 (size frame))).

Definition detriti_di (fnd : ndarray Q) (frame : ndarray Z) : list detrito :=
  fst (classifica (fst (fst (sogliatura (residuo_di fnd frame) SIGMA_SOGLIA)))).

Definition sigma_di (fnd : ndarray Q) (frame : ndarray Z) : Q :=
  snd (sogliatura (residuo_di fnd frame) SIGMA_SOGLIA).

(** The timestamp text of frame [i], when there is one. *)
Definition etichetta (timestamps : option (list datetime)) (i : nat) : string :=
  match timestamp_of isoformat timestamps i with
  | Ok s => s
  | Raise _ => EmptyString
  end.

(** The records of the frames from index [i] on, frame by frame. *)
Fixpoint rilevamenti_attesi (timestamps : option (list datetime))
  (fnd : ndarray Q) (i : nat) (frames : list (ndarray Z)) : list rilevamento :=
  match frames with
  | [] => []
  | frame :: rest =>
      map (fun d => rilevamento_batch i (etichetta timestamps i) d (sigma_di fnd frame))
          (detriti_di fnd frame)
      ++ rilevamenti_attesi timestamps fnd (S i) rest
  end.

(** The three stage calls made for each frame. *)
Definition tre_chiamate (frames : list (ndarray Z)) : list call :=
  flat_map (fun _ => [CResiduo; CSoglia; CClassifica]) frames.

(** The timestamps, when given, reach the last frame. *)
Definition timestamps_cover (timestamps : option (list datetime)) (n : nat) : Prop :=
  match timestamps with
  | None | Some [] => True
  | Some l => (n <= length l)%nat
  end.

Lemma timestamps_cover_Ok (timestamps : option (list datetime)) (n i : nat) :
  timestamps_cover timestamps n -> (i < n)%nat ->
  timestamp_of isoformat timestamps i = Ok (etichetta timestamps i).
Proof.
  unfold timestamps_cover, etichetta, timestamp_of.
  destruct timestamps as [[|d l]|]; intros Hc Hi; try reflexivity.
  destruct (nth_error (d :: l) i) eqn:E; [reflexivity|].
  apply nth_error_None in E. lia.
Qed.

Lemma rileva_same_shape (frame : ndarray Z) (fnd : ndarray Q) (t : list call) :
  shape frame = shape fnd ->
  rileva frame fnd t
  = (t ++ [CResiduo; CSoglia; CClassifica],
     Ok (classifica (fst (fst (sogliatura (residuo_di fnd frame) SIGMA_SOGLIA))),
         snd (fst (sogliatura (residuo_di fnd frame) SIGMA_SOGLIA)),
         sigma_di fnd frame)).
Proof.
  intros Hsh. apply detect_trace. now apply sottrai_fondo_same_shape_eq.
Qed.

Lemma processa_ciclo_step (timestamps : option (list datetime)) (fnd : ndarray Q)
  (i : nat) (frame : ndarray Z) (rest : list (ndarray Z))
  (acc : list rilevamento) (t : list call) :
  shape frame = shape fnd ->
  processa_ciclo timestamps fnd i (frame :: rest) acc t
  = match detriti_di fnd frame with
    | [] => processa_ciclo timestamps fnd (S i) rest acc
              (t ++ [CResiduo; CSoglia; CClassifica])
    | _ =>
        match timestamp_of isoformat timestamps i with
        | Ok ts =>
            processa_ciclo timestamps fnd (S i) rest
              (acc ++ map (fun d => rilevamento_batch i ts d (sigma_di fnd frame))
                          (detriti_di fnd frame))
              (t ++ [CResiduo; CSoglia; CClassifica])
        | Raise e => (t ++ [CResiduo; CSoglia; CClassifica], Raise e)
        end
    end.
Proof.
  intros Hsh. cbn [processa_loop]. unfold bind at 1.
  rewrite (rileva_same_shape frame fnd t Hsh). unfold detriti_di.
  destruct (classifica _) as [detriti stelle]. cbn [fst].
  destruct detriti as [|d0 detriti']; [reflexivity|].
  unfold bind, lift. now destruct (timestamp_of isoformat timestamps i).
Qed.

Lemma processa_ciclo_closed (timestamps : option (list datetime))
  (fnd : ndarray Q) (n : nat) (rest : list (ndarray Z)) :
  forall i acc t,
    same_resolution (shape fnd) rest ->
    timestamps_cover timestamps n -> (i + length rest <= n)%nat ->
    processa_ciclo timestamps fnd i rest acc t
    = (t ++ tre_chiamate rest,
       Ok (acc ++ rilevamenti_attesi timestamps fnd i rest)).
Proof.
  induction rest as [|frame rest IH]; intros i acc t Hsame Hc Hn.
  - cbn. unfold ret. now rewrite !app_nil_r.
  - inversion Hsame as [|? ? Hf Hrest]; subst.
    rewrite (processa_ciclo_step timestamps fnd i frame rest acc t Hf). cbn [length] in Hn.
    cbn [rilevamenti_attesi tre_chiamate flat_map].
    destruct (detriti_di fnd frame) as [|d0 ds] eqn:Ed.
    + rewrite IH by (auto; lia). cbn [map app]. now rewrite <- app_assoc.
    + rewrite (@timestamps_cover_Ok timestamps n i Hc) by lia.
      rewrite IH by (auto; lia). now rewrite <- !app_assoc.
Qed.

(** X9. On a non-empty sequence of frames of one resolution with at least
    one pixel, and with timestamps that are absent, empty or at least as many
    as the frames, [processa_sequenza] returns: it calls the background
    builder once, then residual, threshold and classifier once per frame in
    that order, and gives the median background together with one record per
    Debris, frame after frame. *)
Theorem processa_sequenza_total :
  forall (sh : nat * nat) (frames : list (ndarray Z))
         (timestamps : option (list datetime)) (t : list call),
    frames <> [] -> same_resolution sh frames -> (0 < fst sh * snd sh)%nat ->
    timestamps_cover timestamps (length frames) ->
    processa frames timestamps t
    = (t ++ CFondo :: tre_chiamate frames,
       Ok (rilevamenti_attesi timestamps (fondo_atteso sh frames) 0 frames,
           fondo_atteso sh frames)) /\
    length (tre_chiamate frames) = (3 * length frames)%nat /\
    length (rilevamenti_attesi timestamps (fondo_atteso sh frames) 0 frames)
    = list_sum (map (fun f => length (detriti_di (fondo_atteso sh frames) f)) frames).
Proof.
  intros sh frames timestamps t Hne Hsame Hpos Hc. split; [|split].
  - unfold processa_sequenza, bind, invoke.
    rewrite (calcola_fondo_mediano_ok Hne Hsame Hpos).
    rewrite (@processa_ciclo_closed timestamps (fondo_atteso sh frames)
               (length frames) frames 0 [] (t ++ [CFondo])); auto.
    unfold ret. cbn [app]. now rewrite <- app_assoc.
  - unfold tre_chiamate. clear. induction frames as [|f fs IH]; [reflexivity|].
    cbn [flat_map length app]. rewrite IH. lia.
  - generalize 0%nat as i. generalize (fondo_atteso sh frames) as fnd.
    clear. intros fnd. induction frames as [|f fs IH]; intros i; [reflexivity|].
    cbn [rilevamenti_attesi map list_sum]. rewrite length_app, length_map.
    now rewrite IH.
Qed.

Lemma processa_ciclo_quiet (timestamps : option (list datetime))
  (fnd : ndarray Q) (pre : list (ndarray Z)) :
  forall i rest acc t,
    same_resolution (shape fnd) pre ->
    Forall (fun f => detriti_di fnd f = []) pre ->
    processa_ciclo timestamps fnd i (pre ++ rest) acc t
    = processa_ciclo timestamps fnd (i + length pre) rest acc
        (t ++ tre_chiamate pre).
Proof.
  induction pre as [|frame pre IH]; intros i rest acc t Hsame Hq.
  - cbn. now rewrite Nat.add_0_r, app_nil_r.
  - inversion Hsame as [|? ? Hf Hrest]; subst.
    inversion Hq as [|? ? Hd Hq']; subst. cbn [app].
    rewrite (processa_ciclo_step timestamps fnd i frame (pre ++ rest) acc t Hf).
    rewrite Hd, IH by assumption. cbn [length tre_chiamate flat_map].
    f_equal; [lia | now rewrite <- app_assoc].
Qed.

(** X10. The timestamps are read only for a frame that holds Debris.  On a
    valid sequence without any Debris [processa_sequenza] returns no record
    whatever the timestamps are; and when the first frame holding Debris
    lies beyond the end of a non-empty timestamp list, it raises IndexError
    right after classifying that frame. *)
Theorem processa_sequenza_timestamps :
  forall (sh : nat * nat) (frames : list (ndarray Z)) (t : list call),
    frames <> [] -> same_resolution sh frames -> (0 < fst sh * snd sh)%nat ->
    (Forall (fun f => detriti_di (fondo_atteso sh frames) f = []) frames ->
     forall timestamps,
       processa frames timestamps t
       = (t ++ CFondo :: tre_chiamate frames, Ok ([], fondo_atteso sh frames))) /\
    (forall pre frame post l,
       frames = pre ++ frame :: post ->
       Forall (fun f => detriti_di (fondo_atteso sh frames) f = []) pre ->
       detriti_di (fondo_atteso sh frames) frame <> [] ->
       l <> [] -> (length l <= length pre)%nat ->
       processa frames (Some l) t
       = (t ++ CFondo :: tre_chiamate (pre ++ [frame]), Raise IndexError)).
Proof.
  intros sh frames t Hne Hsame Hpos. split.
  - intros Hq timestamps. unfold processa_sequenza, bind, invoke.
    rewrite (calcola_fondo_mediano_ok Hne Hsame Hpos).
    rewrite <- (app_nil_r frames) at 2.
    rewrite processa_ciclo_quiet by assumption.
    cbn [processa_loop]. unfold ret. now rewrite <- app_assoc.
  - intros pre frame post l Hfr Hq Hd Hl Hlen.
    unfold processa_sequenza, bind, invoke.
    rewrite (calcola_fondo_mediano_ok Hne Hsame Hpos).
    set (fnd := fondo_atteso sh frames) in *.
    assert (Hsame' : same_resolution (shape fnd) (pre ++ frame :: post))
      by (rewrite <- Hfr; exact Hsame).
    apply Forall_app in Hsame'. destruct Hsame' as [Hpre Hpost].
    inversion Hpost as [|? ? Hf _]; subst frames.
    rewrite processa_ciclo_quiet by assumption.
    rewrite (processa_ciclo_step (Some l) fnd (0 + length pre) frame post []
               ((t ++ [CFondo]) ++ tre_chiamate pre) Hf).
    destruct (detriti_di fnd frame) as [|d0 ds]; [congruence|].
    unfold timestamp_of. destruct l as [|d1 l']; [congruence|].
    destruct (nth_error (d1 :: l') (0 + length pre)) eqn:E.
    + assert (Hsome : nth_error (d1 :: l') (0 + length pre) <> None) by congruence.
      apply nth_error_Some in Hsome. cbn [Nat.add] in Hsome. lia.
    + unfold tre_chiamate. rewrite flat_map_app. cbn [flat_map app].
      now rewrite <- !app_assoc.
Qed.

(** ** The synthetic frame labels *)

Definition leggi_indice (s : string) : nat :=
  match NilEmpty.uint_of_string s with
  | Some d => Nat.of_uint d
  | None => O
  end.

Lemma leggi_zeros (k : nat) (s : string) :
  leggi_indice (append (zeros k) s) = leggi_indice s.
Proof.
  induction k as [|k IH]; [reflexivity|]. unfold leggi_indice in *.
  cbn [zeros append NilEmpty.uint_of_string].
  destruct (NilEmpty.uint_of_string (append (zeros k) s)) as [d|] eqn:E;
    destruct (NilEmpty.uint_of_string s) as [d'|] eqn:E'; cbn in *; auto.
Qed.

Lemma leggi_zero_pad (width i : nat) : leggi_indice (zero_pad width i) = i.
Proof.
  unfold zero_pad. rewrite leggi_zeros. unfold leggi_indice, NilZero.string_of_uint.
  pose proof (DecimalNat.Unsigned.of_to i) as Hof.
  destruct (Nat.to_uint i) as [|d|d|d|d|d|d|d|d|d|d] eqn:E;
    try (rewrite NilEmpty.usu; exact Hof).
  cbn. cbn in Hof. exact Hof.
Qed.

(** X11. Without timestamps, and with an empty timestamp list alike, frame
    [i] is labelled [frame_] followed by its index in decimal, zero-padded;
    the index can be read back from the label, so two frames never share a
    label. *)
Theorem timestamp_of_labels :
  forall i j : nat,
    timestamp_of isoformat None i = Ok (append "frame_" (zero_pad 4 i)) /\
    timestamp_of isoformat (Some []) i = timestamp_of isoformat None i /\
    leggi_indice (zero_pad 4 i) = i /\
    (timestamp_of isoformat None i = timestamp_of isoformat None j -> i = j).
Proof.
  intros i j. split; [reflexivity|]. split; [reflexivity|].
  split; [apply leggi_zero_pad|].
  unfold timestamp_of. intros H. injection H as H.
  rewrite <- (leggi_zero_pad 4 i), <- (leggi_zero_pad 4 j). now rewrite H.
Qed.

(** ** Live mode: the camera and the calibration *)

Local Abbreviation scansione := (scansiona regionprops_label np_degrees isoformat).
Local Abbreviation giro := (ciclo regionprops_label np_degrees isoformat).
Local Abbreviation sessione := (live_main regionprops_label np_degrees isoformat).

Lemma acquisisci_n_spec (n : nat) :
  forall (cap : camera) (acc : list (ndarray Z)),
    con_pixel (firstn n cap) ->
    acquisisci_n n cap acc
    = if Nat.leb n (length cap)
      then Ok (acc ++ firstn n cap, skipn n cap)
      else Raise RuntimeError.
Proof.
  induction n as [|n IH]; intros cap acc Hpx.
  - cbn. now rewrite app_nil_r.
  - destruct cap as [|g cap']; [reflexivity|].
    cbn [firstn] in Hpx. inversion Hpx as [|? ? Hg Hpx']; subst.
    cbn [acquisisci_n length Nat.leb firstn skipn].
    rewrite (@acquisisci_frame_pixel g cap' Hg). cbn [rbind fst snd].
    rewrite (IH _ _ Hpx'). destruct (Nat.leb n (length cap')); [|reflexivity].
    now rewrite <- app_assoc.
Qed.

Lemma acquisisci_n_Ok_inv (n : nat) :
  forall (cap : camera) (acc frames : list (ndarray Z)) (cap' : camera),
    acquisisci_n n cap acc = Ok (frames, cap') ->
    exists l, frames = acc ++ l /\ cap = l ++ cap' /\
              length l = n /\ con_pixel l.
Proof.
  induction n as [|n IH]; intros cap acc frames cap' H.
  - cbn in H. inversion H; subst. exists []. rewrite app_nil_r.
    repeat split. constructor.
  - destruct cap as [|g cap0]; [discriminate|].
    cbn [acquisisci_n acquisisci_frame] in H.
    destruct (Nat.eqb_spec (size g) 0) as [Hz | Hg]; [discriminate|].
    cbn [rbind fst snd] in H.
    destruct (IH _ _ _ _ H) as (l & Hf & Hc & Hl & Hpx).
    exists (g :: l). rewrite Hf, Hc, <- app_assoc. cbn [length app].
    repeat split; [now rewrite Hl | now constructor].
Qed.

Lemma acquisisci_n_vuoto (n : nat) :
  forall (good : list (ndarray Z)) (gray : ndarray Z) (rest : camera)
         (acc : list (ndarray Z)),
    con_pixel good -> size gray = O -> (length good < n)%nat ->
    acquisisci_n n (good ++ gray :: rest) acc = Raise Cv2Error.
Proof.
  induction n as [|n IH]; intros good gray rest acc Hpx Hz Hlt; [lia|].
  destruct good as [|g good].
  - cbn [app acquisisci_n acquisisci_frame]. now rewrite Hz.
  - inversion Hpx as [|? ? Hg Hpx']; subst. cbn [length] in Hlt.
    cbn [app acquisisci_n].
    rewrite (@acquisisci_frame_pixel g (good ++ gray :: rest) Hg).
    cbn [rbind fst snd]. apply IH; [assumption | assumption | lia].
Qed.

Lemma con_pixel_firstn (n : nat) (cap : camera) :
  con_pixel cap -> con_pixel (firstn n cap).
Proof.
  intros H. unfold con_pixel in *. rewrite <- (firstn_skipn n cap) in H.
  now apply Forall_app in H.
Qed.

Lemma calibra_short (cap : camera) (t : list call) :
  con_pixel cap -> (length cap < N_FRAME_CALIBRAZIONE)%nat ->
  calibra cap t = (t, Raise RuntimeError).
Proof.
  intros Hpx H. unfold calibra, bind, lift.
  rewrite acquisisci_n_spec by (now apply con_pixel_firstn).
  destruct (Nat.leb_spec N_FRAME_CALIBRAZIONE (length cap)); [lia | reflexivity].
Qed.

Lemma calibra_Ok_inv (cap : camera) (t t' : list call) fnd buf cap' :
  calibra cap t = (t', Ok (fnd, buf, cap')) ->
  cap = buf ++ cap' /\ length buf = N_FRAME_CALIBRAZIONE /\
  t' = t ++ [CFondo] /\ calcola_fondo_mediano buf = Ok fnd /\ con_pixel buf.
Proof.
  unfold calibra, bind, lift, invoke, ret.
  destruct (acquisisci_n N_FRAME_CALIBRAZIONE cap []) as [[frames_cal cap0] | e]
    eqn:Ea; [|discriminate].
  apply acquisisci_n_Ok_inv in Ea. destruct Ea as (l & Hf & Hc & Hl & Hpx).
  cbn [app] in Hf. subst frames_cal.
  destruct (calcola_fondo_mediano l) as [f | e] eqn:E; [|discriminate].
  rewrite deque_new_short
    by (rewrite Hl; unfold N_FRAME_CALIBRAZIONE, BUFFER_SIZE; lia).
  intros H. injection H as Ht Hf Hb Hc'. subst t' f buf cap'.
  repeat split; assumption.
Qed.

(** X12. On a camera whose next 50 frames have one resolution and pixels,
    calibration returns: it takes exactly those frames, which become the
    buffer, calls the background builder once on them, and its background
    is at every pixel the median of the 50 samples; the camera is left after
    them.  With fewer than 50 frames left, all with pixels, it raises
    RuntimeError before any background is computed, and so does the whole
    session; a frame without pixels among the first 50 raises [cv2.error]
    instead.  Whenever calibration returns it has taken exactly 50 frames
    with pixels and called the builder once.  A scanning step on an
    exhausted camera raises RuntimeError before any detection. *)
Theorem calibra_camera :
  forall (cap : camera) (t : list call),
    (forall sh, (50 <= length cap)%nat ->
       same_resolution sh (firstn 50 cap) -> (0 < fst sh * snd sh)%nat ->
       exists fnd,
         calibra cap t
         = (t ++ [CFondo], Ok (fnd, firstn 50 cap, skipn 50 cap)) /\
         calcola_fondo_mediano (firstn 50 cap) = Ok fnd /\
         shape fnd = sh /\
         forall p, (p < fst sh * snd sh)%nat ->
           is_median (pixel_samples p (firstn 50 cap)) (nth p (data fnd) 0)) /\
    (con_pixel cap -> (length cap < 50)%nat ->
     calibra cap t = (t, Raise RuntimeError) /\
     forall ticks session_dir,
       sessione cap ticks session_dir t = (t, Raise RuntimeError)) /\
    (forall good gray rest,
       cap = good ++ gray :: rest -> con_pixel good -> size gray = O ->
       (length good < 50)%nat ->
       calibra cap t = (t, Raise Cv2Error)) /\
    (forall t' fnd buf cap',
       calibra cap t = (t', Ok (fnd, buf, cap')) ->
       cap = buf ++ cap' /\ length buf = 50%nat /\
       t' = t ++ [CFondo] /\ calcola_fondo_mediano buf = Ok fnd /\
       con_pixel buf) /\
    (forall st ts, scansione st [] ts t = (t, Raise RuntimeError)).
Proof.
  intros cap t. split; [|split; [|split; [|split]]].
  - intros sh Hle Hsame Hpos.
    assert (Hlen : length (firstn 50 cap) = N_FRAME_CALIBRAZIONE)
      by (rewrite length_firstn; unfold N_FRAME_CALIBRAZIONE; lia).
    pose proof (@calibra_ok sh (firstn 50 cap) (skipn 50 cap) t Hlen Hsame Hpos)
      as Hrun.
    rewrite firstn_skipn in Hrun.
    assert (Hne : firstn 50 cap <> [])
      by (intro E; rewrite E in Hlen; discriminate Hlen).
    exists (fondo_atteso sh (firstn 50 cap)). split; [exact Hrun|].
    split; [now apply calcola_fondo_mediano_ok|]. split; [reflexivity|].
    intros p Hp. rewrite (@nth_fondo_atteso sh (firstn 50 cap) p Hp).
    apply np_median_is_median. unfold pixel_samples.
    destruct (firstn 50 cap); [congruence | discriminate].
  - intros Hpx Hlt. pose proof (calibra_short cap t Hpx Hlt) as Hc.
    split; [exact Hc|]. intros ticks session_dir.
    unfold live_main. now apply bind_Raise.
  - intros good gray rest -> Hpx Hz Hlt. unfold calibra, bind, lift.
    now rewrite acquisisci_n_vuoto.
  - intros t' fnd buf cap' H. now apply calibra_Ok_inv in H.
  - intros st ts. reflexivity.
Qed.

(** ** Live mode: what a run of the loop keeps *)

Lemma scansiona_Ok_inv (st : live_state) (cap : camera) (ts : datetime)
  (t t' : list call) (st' : live_state) (cap' : camera) :
  scansione st cap ts t = (t', Ok (st', cap')) ->
  exists gray,
    cap = gray :: cap' /\
    n_frame st' = S (n_frame st) /\
    buffer st' = deque_append BUFFER_SIZE (buffer st) gray /\
    exists nuovi, tutti_rilevamenti st' = tutti_rilevamenti st ++ nuovi.
Proof.
  intros H. unfold scansiona in H. apply bind_Ok_inv in H.
  destruct H as ([g c] & t1 & Ha & H).
  unfold lift in Ha. destruct cap as [|g0 cap0]; [discriminate|].
  cbn [acquisisci_frame] in Ha.
  destruct (Nat.eqb (size g0) 0); [discriminate|]. inversion Ha; subst.
  apply bind_Ok_inv in H.
  destruct H as ([[[detriti stelle] soglia] sigma] & t2 & _ & H).
  apply bind_Ok_inv in H. destruct H as (f' & t3 & _ & H).
  unfold ret in H. inversion H; subst. exists g.
  cbn [n_frame buffer tutti_rilevamenti]. repeat (split; [reflexivity|]).
  destruct detriti; [exists []; now rewrite app_nil_r | eexists; reflexivity].
Qed.

Lemma comando_Ok_inv (st : live_state) (cap : camera) (k : Z)
  (t t' : list call) (st' : live_state) (cap' : camera) (b : bool) :
  comando st cap k t = (t', Ok (st', cap', b)) ->
  n_frame st' = n_frame st /\
  tutti_rilevamenti st' = tutti_rilevamenti st /\
  ((Z.land k 255 <> ord "r" /\ st' = st /\ cap' = cap) \/
   (Z.land k 255 = ord "r" /\ cap = buffer st' ++ cap' /\
    length (buffer st') = N_FRAME_CALIBRAZIONE)).
Proof.
  unfold comando.
  destruct (Z.eqb_spec (Z.land k 255) (ord "q")) as [Eq | Nq].
  { unfold ret. intros H. inversion H; subst. repeat (split; [reflexivity|]).
    left. rewrite Eq. split; [discriminate | auto]. }
  destruct (Z.eqb_spec (Z.land k 255) (ord "s")) as [Es | Ns].
  { unfold ret. intros H. inversion H; subst. repeat (split; [reflexivity|]).
    left. rewrite Es. split; [discriminate | auto]. }
  destruct (Z.eqb_spec (Z.land k 255) (ord "r")) as [Er | Nr].
  - intros H. apply bind_Ok_inv in H.
    destruct H as ([[f0 b0] c0] & t1 & Hc & H).
    apply calibra_Ok_inv in Hc. destruct Hc as (Hcap & Hlen & _).
    unfold ret in H. inversion H; subst. cbn [n_frame tutti_rilevamenti buffer].
    repeat (split; [reflexivity|]). right. auto.
  - unfold ret. intros H. inversion H; subst. repeat (split; [reflexivity|]).
    left. auto.
Qed.

Lemma giro_step_inv (tk : tick datetime) (rest : list (tick datetime))
  (st : live_state) (cap : camera) (t t' : list call)
  (st' : live_state) (cap' : camera) (b : bool) :
  giro (tk :: rest) st cap t = (t', Ok (st', cap', b)) ->
  exists st0 cap0 t0 st1 cap1 t1 esci,
    scansione st cap (now tk) t = (t0, Ok (st0, cap0)) /\
    comando st0 cap0 (key tk) t0 = (t1, Ok (st1, cap1, esci)) /\
    ((esci = true /\ st' = st1 /\ cap' = cap1 /\ b = true) \/
     (esci = false /\ giro rest st1 cap1 t1 = (t', Ok (st', cap', b)))).
Proof.
  intros H. cbn [ciclo] in H. apply bind_Ok_inv in H.
  destruct H as ([[st1 cap1] esci] & t1 & Hit & H).
  unfold iterazione in Hit. apply bind_Ok_inv in Hit.
  destruct Hit as ([st0 cap0] & t0 & Hsc & Hcmd).
  exists st0, cap0, t0, st1, cap1, t1, esci. split; [exact Hsc|].
  split; [exact Hcmd|]. destruct esci.
  - left. unfold ret in H. inversion H; subst. auto.
  - right. auto.
Qed.

(** X13. However long the loop runs and however often it recalibrates, a
    buffer that holds at most 100 frames still holds at most 100, and the
    camera has only moved forward: what it still holds is what it held
    before without the frames taken, at least one per frame counted. *)
Theorem ciclo_buffer_bounded :
  forall (ticks : list (tick datetime)) (st : live_state) (cap : camera)
         (t t' : list call) (st' : live_state) (cap' : camera) (b : bool),
    giro ticks st cap t = (t', Ok (st', cap', b)) ->
    (length (buffer st) <= 100)%nat ->
    (length (buffer st') <= 100)%nat /\
    exists used, cap = used ++ cap' /\
                 (n_frame st' - n_frame st <= length used)%nat.
Proof.
  induction ticks as [|tk rest IH]; intros st cap t t' st' cap' b H Hlen.
  - cbn in H. unfold ret in H. inversion H; subst. split; [exact Hlen|].
    exists []. split; [reflexivity | simpl; lia].
  - apply giro_step_inv in H.
    destruct H as (st0 & cap0 & t0 & st1 & cap1 & t1 & esci & Hsc & Hcmd & Hrest).
    apply scansiona_Ok_inv in Hsc.
    destruct Hsc as (gray & Hcap & Hn0 & Hb0 & _).
    apply comando_Ok_inv in Hcmd. destruct Hcmd as (Hn1 & _ & Hk).
    assert (Hlen0 : (length (buffer st0) <= 100)%nat)
      by (rewrite Hb0; now apply deque_append_length).
    assert (Hlen1 : (length (buffer st1) <= 100)%nat).
    { destruct Hk as [(_ & -> & _) | (_ & _ & Hl)]; [exact Hlen0|].
      rewrite Hl. unfold N_FRAME_CALIBRAZIONE. lia. }
    assert (Hused1 : exists used1, cap = used1 ++ cap1 /\
                                   (n_frame st1 - n_frame st <= length used1)%nat).
    { destruct Hk as [(_ & _ & ->) | (_ & Hc & Hl)].
      - exists [gray]. split; [exact Hcap | simpl; lia].
      - exists (gray :: buffer st1). split; [rewrite Hcap, Hc; reflexivity|].
        simpl. lia. }
    destruct Hused1 as (used1 & Hu1 & Hc1).
    destruct Hrest as [(_ & -> & -> & _) | (_ & Hgo)].
    + split; [exact Hlen1|]. exists used1. auto.
    + destruct (IH _ _ _ _ _ _ _ Hgo Hlen1) as (Hl' & used2 & Hu2 & Hc2).
      split; [exact Hl'|]. exists (used1 ++ used2).
      split; [rewrite Hu1, Hu2; now rewrite app_assoc|].
      rewrite length_app. lia.
Qed.

(** X14. Across any run of the loop the session list only grows: the
    detections held before are a prefix of those held after.  The frame
    counter rises by one per turn, so it ends between its start and its
    start plus the number of turns, and exactly at the latter when the loop
    was not left by the quit key. *)
Theorem ciclo_list_and_counter :
  forall (ticks : list (tick datetime)) (st : live_state) (cap : camera)
         (t t' : list call) (st' : live_state) (cap' : camera) (b : bool),
    giro ticks st cap t = (t', Ok (st', cap', b)) ->
    (exists nuovi, tutti_rilevamenti st' = tutti_rilevamenti st ++ nuovi) /\
    (n_frame st <= n_frame st' <= n_frame st + length ticks)%nat /\
    (b = false -> n_frame st' = (n_frame st + length ticks)%nat) /\
    (b = true -> (n_frame st < n_frame st')%nat).
Proof.
  induction ticks as [|tk rest IH]; intros st cap t t' st' cap' b H.
  - cbn in H. unfold ret in H. inversion H; subst.
    split; [exists []; now rewrite app_nil_r|]. cbn [length].
    split; [lia|]. split; [intros; lia | discriminate].
  - apply giro_step_inv in H.
    destruct H as (st0 & cap0 & t0 & st1 & cap1 & t1 & esci & Hsc & Hcmd & Hrest).
    apply scansiona_Ok_inv in Hsc.
    destruct Hsc as (gray & _ & Hn0 & _ & nuovi0 & Hr0).
    apply comando_Ok_inv in Hcmd. destruct Hcmd as (Hn1 & Hr1 & _).
    cbn [length].
    destruct Hrest as [(_ & -> & _ & ->) | (_ & Hgo)].
    + split; [exists nuovi0; now rewrite Hr1|].
      split; [lia|]. split; [discriminate | intros; lia].
    + destruct (IH _ _ _ _ _ _ _ Hgo) as ((nuovi1 & Hr2) & Hb1 & Hb2 & Hb3).
      split; [exists (nuovi0 ++ nuovi1); rewrite Hr2, Hr1, Hr0; now rewrite app_assoc|].
      split; [lia|]. split; [intros Hf; specialize (Hb2 Hf); lia|].
      intros Ht. specialize (Hb3 Ht). lia.
Qed.

Lemma skipn_S_tl {A : Type} (k : nat) (l : list A) :
  skipn (S k) l = tl (skipn k l).
Proof.
  revert l. induction k as [|k IH]; intros l.
  - now destruct l.
  - destruct l as [|x l]; [reflexivity|]. cbn [skipn]. rewrite <- IH.
    reflexivity.
Qed.

(** Appending to the last [maxlen] items of a list gives the last [maxlen]
    items of the longer list. *)
Lemma deque_append_new {A : Type} (maxlen : nat) (l : list A) (x : A) :
  deque_append maxlen (deque_new l maxlen) x = deque_new (l ++ [x]) maxlen.
Proof.
  unfold deque_append, deque_new. rewrite !length_app, length_skipn. cbn [length].
  destruct (Nat.ltb_spec maxlen (length l - (length l - maxlen) + 1)) as [H | H].
  - replace (length l + 1 - maxlen)%nat with (S (length l - maxlen)) by lia.
    rewrite skipn_S_tl. f_equal. rewrite skipn_app.
    replace (length l - maxlen - length l)%nat with O by lia. reflexivity.
  - replace (length l + 1 - maxlen)%nat with O by lia.
    replace (length l - maxlen)%nat with O by lia. reflexivity.
Qed.

Lemma giro_window (ticks : list (tick datetime)) :
  forall (st : live_state) (cap : camera) (t t' : list call)
         (st' : live_state) (cap' : camera) (b : bool) (L : list (ndarray Z)),
    Forall (fun tk => Z.land (key tk) 255 <> ord "r") ticks ->
    giro ticks st cap t = (t', Ok (st', cap', b)) ->
    buffer st = deque_new L BUFFER_SIZE ->
    exists used,
      cap = used ++ cap' /\
      n_frame st' = (n_frame st + length used)%nat /\
      buffer st' = deque_new (L ++ used) BUFFER_SIZE.
Proof.
  induction ticks as [|tk rest IH]; intros st cap t t' st' cap' b L Hk H HL.
  - cbn in H. unfold ret in H. inversion H; subst. exists [].
    rewrite app_nil_r. cbn [length app]. auto.
  - inversion Hk as [|? ? Hk0 Hk']; subst.
    apply giro_step_inv in H.
    destruct H as (st0 & cap0 & t0 & st1 & cap1 & t1 & esci & Hsc & Hcmd & Hrest).
    apply scansiona_Ok_inv in Hsc.
    destruct Hsc as (gray & Hcap & Hn0 & Hb0 & _).
    apply comando_Ok_inv in Hcmd. destruct Hcmd as (_ & _ & Hcase).
    destruct Hcase as [(_ & -> & ->) | (Hr & _)]; [|contradiction].
    assert (HL1 : buffer st0 = deque_new (L ++ [gray]) BUFFER_SIZE)
      by (rewrite Hb0, HL; apply deque_append_new).
    destruct Hrest as [(_ & -> & -> & _) | (_ & Hgo)].
    + exists [gray]. cbn [length]. split; [exact Hcap|]. split; [lia | exact HL1].
    + destruct (IH _ _ _ _ _ _ _ _ Hk' Hgo HL1) as (used & Hu & Hn & Hb).
      exists (gray :: used). cbn [length].
      split; [rewrite Hcap, Hu; reflexivity|]. split; [lia|].
      rewrite Hb. now rewrite <- app_assoc.
Qed.

(** X15. As long as no recalibration is requested, the buffer is the window
    of the most recent 100 frames: after a run of the loop it holds the last
    100 of the frames it held before followed by the frames taken from the
    camera since, one for each frame counted. *)
Theorem ciclo_buffer_window :
  forall (ticks : list (tick datetime)) (st : live_state) (cap : camera)
         (t t' : list call) (st' : live_state) (cap' : camera) (b : bool),
    Forall (fun tk => Z.land (key tk) 255 <> ord "r") ticks ->
    (length (buffer st) <= 100)%nat ->
    giro ticks st cap t = (t', Ok (st', cap', b)) ->
    exists used,
      cap = used ++ cap' /\
      n_frame st' = (n_frame st + length used)%nat /\
      buffer st' = skipn (length (buffer st ++ used) - 100) (buffer st ++ used).
Proof.
  intros ticks st cap t t' st' cap' b Hk Hlen H.
  assert (HL : buffer st = deque_new (buffer st) BUFFER_SIZE)
    by (symmetry; now apply deque_new_short).
  destruct (giro_window ticks st cap t t' st' cap' b (buffer st) Hk H HL)
    as (used & Hu & Hn & Hb).
  exists used. auto.
Qed.

End Oltre.

(** * The acquisition module

    [src/payload/acquisition.py]: the preview of a recorded sequence, the
    acquisition loop that feeds the batch driver, and the session metadata. *)

(** The exceptions this module can meet: those of the pipeline and of the
    camera, and the two of the metadata code. *)
Inductive errore : Type :=
| Python (e : exn)
| TypeError
| ZeroDivisionError.

Inductive esito (A : Type) : Type :=
| Fatto (a : A)
| Fallito (e : errore).
Arguments Fatto {A} a.
Arguments Fallito {A} e.

Definition ebind {A B : Type} (m : esito A) (f : A -> esito B) : esito B :=
  match m with
  | Fatto a => f a
  | Fallito e => Fallito e
  end.

(** [cv2.imwrite(filename, img)]: OpenCV refuses an image without pixels
    with [cv2.error]; otherwise the file is taken to be written, and it is
    returned as the pair of its name and content. *)
Definition cv2_imwrite (filename : string) (img : ndarray Z)
  : esito (string * ndarray Z) :=
  if Nat.eqb (size img) 0 then Fallito (Python Cv2Error)
  else Fatto (filename, img).

(** [a.astype(np.uint8)] on a float: the fraction is dropped (truncation
    toward zero).  For a value outside 0..255 the C conversion is undefined;
    the embedding reduces it modulo 256. *)
Definition astype_uint8 (q : Q) : Z :=
  Z.modulo (Z.quot (Qnum q) (Z.pos (Qden q))) 256.

(** [genera_preview]: the median of the stack as an 8-bit image, and the
    file it is written to. *)
Definition genera_preview (frames : list (ndarray Z)) (session_dir : string)
  : esito (ndarray Z * (string * ndarray Z)) :=
  match np_stack frames with
  | Raise e => Fallito (Python e)
  | Ok (sh, planes) =>
      let stack := map astype_float planes in
      let mediana := mk_ndarray sh (map astype_uint8 (np_median_axis0 sh stack)) in
      let preview_path := path_join session_dir "preview_mediana.png" in
      ebind (cv2_imwrite preview_path mediana) (fun scritto =>
        Fatto (mediana, scritto))
  end.

Lemma astype_uint8_floor (q : Q) :
  (0 <= q)%Q -> (q <= 255)%Q -> astype_uint8 q = Qfloor q.
Proof.
  intros H0 H255. unfold astype_uint8.
  assert (Hn : (0 <= Qnum q)%Z).
  { unfold Qle in H0. simpl in H0. lia. }
  assert (Hq : Z.quot (Qnum q) (Z.pos (Qden q)) = Qfloor q).
  { unfold Qfloor. destruct q as [n d]. simpl in *.
    apply Z.quot_div_nonneg; lia. }
  rewrite Hq. apply Z.mod_small. split.
  - rewrite <- (Qfloor_Z 0). now apply Qfloor_resp_le.
  - apply Z.le_lt_trans with (Qfloor 255).
    + now apply Qfloor_resp_le.
    + reflexivity.
Qed.

(** X17. [genera_preview] raises ValueError on an empty or mismatched
    collection and [cv2.error] on frames without pixels.  On a non-empty
    collection of frames of one resolution with at least one pixel it
    returns, and writes to [preview_mediana.png], an image of that
    resolution; for 8-bit frames each of its pixels is the median of the
    pixel's samples with the fraction dropped: an integer in 0..255 that is
    at most the median and less than one below it, and the integer part of
    the background [calcola_fondo_mediano] gives there. *)
Theorem genera_preview_floor :
  forall (sh : nat * nat) (frames : list (ndarray Z)) (session_dir : string),
    (genera_preview [] session_dir = Fallito (Python ValueError)) /\
    (mismatched frames ->
     genera_preview frames session_dir = Fallito (Python ValueError)) /\
    (frames <> [] -> same_resolution sh frames -> (fst sh * snd sh = 0)%nat ->
     genera_preview frames session_dir = Fallito (Python Cv2Error)) /\
    (frames <> [] -> same_resolution sh frames -> (0 < fst sh * snd sh)%nat ->
     exists mediana,
       genera_preview frames session_dir
       = Fatto (mediana, (path_join session_dir "preview_mediana.png", mediana)) /\
       shape mediana = sh /\
       length (data mediana) = (fst sh * snd sh)%nat /\
       forall p, (p < fst sh * snd sh)%nat ->
         (forall f, In f frames -> (0 <= nth p (data f) 0 <= 255)%Z) ->
         let m := np_median (pixel_samples p frames) in
         let v := nth p (data mediana) 0%Z in
         (0 <= v <= 255)%Z /\ (inject_Z v <= m)%Q /\ (m < inject_Z v + 1)%Q /\
         (forall fnd, calcola_fondo_mediano frames = Ok fnd ->
                      v = Qfloor (nth p (data fnd) 0))).
Proof.
  intros sh frames session_dir. split; [reflexivity|]. split; [|split].
  - intros Hm. unfold genera_preview. now rewrite (np_stack_mismatched Hm).
  - intros Hne Hsame Hz. unfold genera_preview. rewrite (np_stack_same Hne Hsame).
    unfold cv2_imwrite, size. cbn [shape]. now rewrite Hz.
  - intros Hne Hsame Hpos. unfold genera_preview. rewrite (np_stack_same Hne Hsame).
    unfold cv2_imwrite, size. cbn [shape ebind].
    destruct (Nat.eqb_spec (fst sh * snd sh) 0) as [Hz | _]; [lia|].
    cbn [ebind]. eexists. split; [reflexivity|]. cbn [shape data].
    split; [reflexivity|].
    split; [unfold np_median_axis0; now rewrite !length_map, length_seq|].
    intros p Hp Hr. set (m := np_median (pixel_samples p frames)).
    set (v := nth p _ 0%Z).
    assert (Ev : v = astype_uint8 m).
    { unfold v, m, np_median_axis0. rewrite map_map.
      rewrite (nth_map_seq (fun q => astype_uint8 (np_median (column q _))) 0%Z Hp).
      now rewrite column_astype. }
    assert (Hb : (inject_Z 0 <= m /\ m <= inject_Z 255)%Q).
    { apply np_median_bounds.
      - unfold pixel_samples. destruct frames; [congruence | discriminate].
      - unfold pixel_samples. apply Forall_forall. intros x Hx.
        apply in_map_iff in Hx. destruct Hx as (f & <- & Hf).
        destruct (Hr f Hf) as [H1 H2]. split; now rewrite <- Zle_Qle. }
    destruct Hb as [Hb0 Hb255].
    assert (Ef : v = Qfloor m) by (rewrite Ev; now apply astype_uint8_floor).
    split; [|split; [|split]].
    + rewrite Ef. split.
      * rewrite <- (Qfloor_Z 0). now apply Qfloor_resp_le.
      * rewrite <- (Qfloor_Z 255). now apply Qfloor_resp_le.
    + rewrite Ef. apply Qfloor_le.
    + rewrite Ef. pose proof (Qlt_floor m) as Hlt.
      rewrite inject_Z_plus in Hlt. exact Hlt.
    + intros fnd Hf.
      rewrite (calcola_fondo_mediano_ok Hne Hsame Hpos) in Hf.
      inversion Hf; subst fnd. rewrite (nth_fondo_atteso _ _ Hp). exact Ef.
Qed.

(** [d[k] = v] on a Python [dict]: the value of an existing key is replaced
    where it stands, a new key is added at the end. *)
Fixpoint dict_set (k : string) (v : pyval) (d : rilevamento) : rilevamento :=
  match d with
  | [] => [(k, v)]
  | (k', v') :: d' =>
      if String.eqb k k' then (k', v) :: d' else (k', v') :: dict_set k v d'
  end.

(** [a / b] on numbers. *)
Definition py_truediv (a b : Q) : esito Q :=
  if Qeq_bool b 0 then Fallito ZeroDivisionError else Fatto (a / b).

(** The encoder of [json.dump] without a [default]: a value that is not
    native raises TypeError. *)
Definition json_encode_strict (v : pyval) : esito json :=
  match v with
  | PyStr s => Fatto (JString s)
  | PyNum (PyInt z) => Fatto (JInt z)
  | PyNum (PyFloat q) => Fatto (JFloat q)
  | PyNum (NpInt _) => Fallito TypeError
  | PyNum (NpFloat32 _) => Fallito TypeError
  end.

Fixpoint json_dump_object (d : rilevamento) : esito (list (string * json)) :=
  match d with
  | [] => Fatto []
  | (k, v) :: d' =>
      ebind (json_encode_strict v) (fun j =>
      ebind (json_dump_object d') (fun doc => Fatto ((k, j) :: doc)))
  end.

Section Acquisizione.

Variable regionprops_label : ndarray Z -> list RegionProps.
Variable np_degrees : Q -> Q.
Variable datetime : Type.
Variable isoformat : datetime -> string.

(** [t.strftime("%H%M%S_%f")]. *)
Variable strftime_ora : datetime -> string.

(** [(b - a).total_seconds()]. *)
Variable total_seconds : datetime -> datetime -> Q.

Unset Implicit Arguments.

(** The name of the file of frame [i]. *)
Definition nome_frame (frames_dir : string) (i : nat) (t_start : datetime)
  : string :=
  path_join frames_dir
    (append "frame_"
       (append (zero_pad 4 i) (append "_" (append (strftime_ora t_start) ".png")))).

(** The [for i in range(n_frame)] loop of [acquisisci_sequenza].  [orologio i]
    is the reading of [utcnow()] at turn [i]; the files written are collected
    in order, and stay written when a later turn raises. *)
Fixpoint acquisisci_loop (orologio : nat -> datetime) (frames_dir : string)
  (n i : nat) (cap : camera) (frames : list (ndarray Z))
  (timestamps : list datetime) (scritti : list (string * ndarray Z))
  : list (string * ndarray Z)
    * esito (list (ndarray Z) * list datetime * camera) :=
  match n with
  | O => (scritti, Fatto (frames, timestamps, cap))
  | S n' =>
      let t_start := orologio i in
      match acquisisci_frame cap with
      | Raise e => (scritti, Fallito (Python e))
      | Ok (gray, cap') =>
          let filename := nome_frame frames_dir i t_start in
          match cv2_imwrite filename gray with
          | Fallito e => (scritti, Fallito e)
          | Fatto scritto =>
              acquisisci_loop orologio frames_dir n' (S i) cap'
                (frames ++ [gray]) (timestamps ++ [t_start])
                (scritti ++ [scritto])
          end
      end
  end.

Definition acquisisci_sequenza (orologio : nat -> datetime) (cap : camera)
  (frames_dir : string) (n_frame : nat)
  : list (string * ndarray Z)
    * esito (list (ndarray Z) * list datetime * camera) :=
  acquisisci_loop orologio frames_dir n_frame 0 cap [] [] [].

(** [aggiorna_metadata]: the metadata as the call leaves it, the dictionary
    being updated in place, and the file [metadata.json] written from it or
    the exception raised. *)
Definition aggiorna_metadata (session_dir : string) (metadata : rilevamento)
  (n_frame_acquisiti : Z) (timestamps : list datetime)
  : rilevamento * esito (string * list (string * json)) :=
  let m1 := dict_set "n_frame_acquisiti" (PyNum (PyInt n_frame_acquisiti)) metadata in
  let scrivi (m2 : rilevamento) :=
    (m2, ebind (json_dump_object m2) (fun doc =>
           Fatto (path_join session_dir "metadata.json", doc))) in
  match timestamps with
  | t0 :: (_ :: _) as resto =>
      let durata := total_seconds t0 (last resto t0) in
      match (if Qgtb durata 0
             then ebind (py_truediv (inject_Z n_frame_acquisiti) durata)
                        (fun q => Fatto (PyNum (PyFloat (py_round q 2))))
             else Fatto (PyNum (PyInt 0))) with
      | Fallito e => (m1, Fallito e)
      | Fatto fps =>
          scrivi (dict_set "durata_reale_sec"
                    (PyNum (PyFloat (py_round durata 3)))
                    (dict_set "fps_reale" fps m1))
      end
  | _ =>
      scrivi (dict_set "durata_reale_sec" (PyNum (PyInt 0))
                (dict_set "fps_reale" (PyNum (PyInt 0)) m1))
  end.

(** The file of each frame taken from index [i] on. *)
Fixpoint file_attesi (orologio : nat -> datetime) (frames_dir : string)
  (i : nat) (frames : list (ndarray Z)) : list (string * ndarray Z) :=
  match frames with
  | [] => []
  | gray :: rest =>
      (nome_frame frames_dir i (orologio i), gray)
      :: file_attesi orologio frames_dir (S i) rest
  end.

Lemma acquisisci_loop_closed (orologio : nat -> datetime) (frames_dir : string)
  (n : nat) :
  forall i cap frames timestamps scritti,
    con_pixel (firstn n cap) ->
    acquisisci_loop orologio frames_dir n i cap frames timestamps scritti
    = if Nat.leb n (length cap)
      then (scritti ++ file_attesi orologio frames_dir i (firstn n cap),
            Fatto (frames ++ firstn n cap,
                   timestamps ++ map orologio (seq i n),
                   skipn n cap))
      else (scritti ++ file_attesi orologio frames_dir i cap,
            Fallito (Python RuntimeError)).
Proof.
  induction n as [|n IH]; intros i cap frames timestamps scritti Hpx.
  - cbn. now rewrite !app_nil_r.
  - destruct cap as [|gray cap'].
    + cbn. now rewrite app_nil_r.
    + cbn [firstn] in Hpx. inversion Hpx as [|? ? Hg Hpx']; subst.
      cbn [acquisisci_loop length Nat.leb firstn skipn seq map file_attesi].
      rewrite (@acquisisci_frame_pixel gray cap' Hg).
      unfold cv2_imwrite. destruct (Nat.eqb_spec (size gray) 0) as [Hz | _];
        [contradiction|].
      rewrite (IH _ _ _ _ _ Hpx'). destruct (Nat.leb n (length cap'));
        now rewrite <- !app_assoc.
Qed.

Lemma acquisisci_loop_vuoto (orologio : nat -> datetime) (frames_dir : string)
  (n : nat) :
  forall i good gray rest frames timestamps scritti,
    con_pixel good -> size gray = O -> (length good < n)%nat ->
    acquisisci_loop orologio frames_dir n i (good ++ gray :: rest)
                    frames timestamps scritti
    = (scritti ++ file_attesi orologio frames_dir i good,
       Fallito (Python Cv2Error)).
Proof.
  induction n as [|n IH];
    intros i good gray rest frames timestamps scritti Hpx Hz Hlt; [lia|].
  destruct good as [|g good].
  - cbn [app acquisisci_loop acquisisci_frame file_attesi]. rewrite Hz.
    cbn [Nat.eqb]. now rewrite app_nil_r.
  - inversion Hpx as [|? ? Hg Hpx']; subst. cbn [length] in Hlt.
    cbn [app acquisisci_loop file_attesi].
    rewrite (@acquisisci_frame_pixel g (good ++ gray :: rest) Hg).
    unfold cv2_imwrite. destruct (Nat.eqb_spec (size g) 0) as [Hz' | _];
      [contradiction|].
    rewrite IH by (assumption || lia). now rewrite <- app_assoc.
Qed.

Lemma file_attesi_length (orologio : nat -> datetime) (frames_dir : string)
  (frames : list (ndarray Z)) :
  forall i, length (file_attesi orologio frames_dir i frames) = length frames.
Proof.
  induction frames as [|g rest IH]; intros i; [reflexivity|].
  cbn [file_attesi length]. now rewrite IH.
Qed.

Lemma file_attesi_nth (orologio : nat -> datetime) (frames_dir : string)
  (l : list (ndarray Z)) :
  forall j i gray,
    nth_error l i = Some gray ->
    nth_error (file_attesi orologio frames_dir j l) i
    = Some (nome_frame frames_dir (j + i)%nat (orologio (j + i)%nat), gray).
Proof.
  induction l as [|g l IH]; intros j i gray E; [now destruct i|].
  destruct i as [|i]; cbn [nth_error file_attesi] in *.
  - inversion E; subst. now rewrite Nat.add_0_r.
  - rewrite (IH (S j) i gray E). now rewrite Nat.add_succ_r.
Qed.

Lemma file_attesi_snd (orologio : nat -> datetime) (frames_dir : string)
  (l : list (ndarray Z)) :
  forall j, map snd (file_attesi orologio frames_dir j l) = l.
Proof.
  induction l as [|g l IH]; intros j; [reflexivity|].
  cbn [file_attesi map snd]. now rewrite IH.
Qed.

(** X18. On a camera whose frames have pixels, [acquisisci_sequenza] for
    [n] frames returns, when the camera holds at least [n], the next [n]
    frames in order with one clock reading each, leaves the camera after
    them, and has written one file per frame, the file of frame [i] holding
    frame [i]; when the camera holds fewer than [n] frames it raises
    RuntimeError after having written one file for each frame the camera
    could supply.  When one of the first [n] frames has no pixels, the
    grayscale conversion of [acquisisci_frame] raises [cv2.error] there: the
    frames before it have been written, that frame and the later ones have
    not. *)
Theorem acquisisci_sequenza_frames :
  forall (orologio : nat -> datetime) (cap : camera) (frames_dir : string)
         (n : nat),
    (con_pixel cap -> (n <= length cap)%nat ->
     exists scritti frames timestamps,
       acquisisci_sequenza orologio cap frames_dir n
       = (scritti, Fatto (frames, timestamps, skipn n cap)) /\
       cap = frames ++ skipn n cap /\
       length frames = n /\ length timestamps = n /\ length scritti = n /\
       (forall i, (i < n)%nat ->
          nth_error timestamps i = Some (orologio i) /\
          exists gray,
            nth_error frames i = Some gray /\
            nth_error scritti i
            = Some (nome_frame frames_dir i (orologio i), gray))) /\
    (con_pixel cap -> (length cap < n)%nat ->
     exists scritti,
       acquisisci_sequenza orologio cap frames_dir n
       = (scritti, Fallito (Python RuntimeError)) /\
       map snd scritti = cap) /\
    (forall good gray rest,
       cap = good ++ gray :: rest -> con_pixel good -> size gray = O ->
       (length good < n)%nat ->
       exists scritti,
         acquisisci_sequenza orologio cap frames_dir n
         = (scritti, Fallito (Python Cv2Error)) /\
         map snd scritti = good).
Proof.
  intros orologio cap frames_dir n. unfold acquisisci_sequenza.
  split; [|split].
  - intros Hpx Hle.
    rewrite acquisisci_loop_closed by (now apply con_pixel_firstn). cbn [app].
    destruct (Nat.leb_spec n (length cap)) as [_ | Hlt]; [|lia].
    do 3 eexists. split; [reflexivity|].
    split; [symmetry; apply firstn_skipn|].
    assert (Hlen : length (firstn n cap) = n) by (rewrite length_firstn; lia).
    split; [exact Hlen|]. split; [now rewrite length_map, length_seq|].
    split; [now rewrite file_attesi_length|].
    intros i Hi. split.
    + rewrite nth_error_map, nth_error_seq.
      destruct (Nat.ltb_spec i n); [reflexivity | lia].
    + destruct (nth_error (firstn n cap) i) as [gray|] eqn:E.
      * exists gray. split; [reflexivity|].
        exact (file_attesi_nth orologio frames_dir (firstn n cap) 0 i gray E).
      * apply nth_error_None in E. lia.
  - intros Hpx Hlt.
    rewrite acquisisci_loop_closed by (now apply con_pixel_firstn). cbn [app].
    destruct (Nat.leb_spec n (length cap)) as [Hle | _]; [lia|].
    eexists. split; [reflexivity|]. apply file_attesi_snd.
  - intros good gray rest -> Hpx Hz Hlt.
    rewrite acquisisci_loop_vuoto by assumption. cbn [app].
    eexists. split; [reflexivity|]. apply file_attesi_snd.
Qed.

Lemma rilevamenti_attesi_In (timestamps : option (list datetime))
  (fnd : ndarray Q) (frames : list (ndarray Z)) :
  forall i r,
    In r (rilevamenti_attesi regionprops_label np_degrees datetime isoformat
            timestamps fnd i frames) ->
    exists j d sigma,
      (i <= j < i + length frames)%nat /\
      r = rilevamento_batch j (etichetta datetime isoformat timestamps j) d sigma.
Proof.
  induction frames as [|frame rest IH]; intros i r Hr; [contradiction|].
  cbn [rilevamenti_attesi] in Hr. apply in_app_or in Hr. destruct Hr as [Hr | Hr].
  - apply in_map_iff in Hr. destruct Hr as (d & <- & _).
    exists i, d, (sigma_di fnd frame). cbn [length]. split; [lia | reflexivity].
  - destruct (IH (S i) r Hr) as (j & d & sigma & Hj & ->).
    exists j, d, sigma. cbn [length]. split; [lia | reflexivity].
Qed.

(** X19. What [acquisisci_sequenza] returns can be handed to
    [processa_sequenza] as it is: for at least one frame, all of one
    resolution with at least one pixel, the batch driver returns, never
    running past the timestamps, and every record carries the index of its
    frame and the ISO text of the clock reading taken when that frame was
    acquired. *)
Theorem acquisisci_then_processa :
  forall (orologio : nat -> datetime) (cap : camera) (frames_dir : string)
         (n : nat) (sh : nat * nat) (t : list call),
    (0 < n)%nat -> (n <= length cap)%nat ->
    same_resolution sh (firstn n cap) -> (0 < fst sh * snd sh)%nat ->
    exists scritti frames timestamps cap' t' rilevamenti fnd,
      acquisisci_sequenza orologio cap frames_dir n
      = (scritti, Fatto (frames, timestamps, cap')) /\
      processa_sequenza regionprops_label np_degrees isoformat
                        frames (Some timestamps) t
      = (t', Ok (rilevamenti, fnd)) /\
      calcola_fondo_mediano frames = Ok fnd /\
      Forall (fun r => exists i,
                (i < n)%nat /\
                dict_get "frame_index" r = Some (PyNum (PyInt (Z.of_nat i))) /\
                dict_get "timestamp" r = Some (PyStr (isoformat (orologio i))))
             rilevamenti.
Proof.
  intros orologio cap frames_dir n sh t Hn Hle Hsame Hpos.
  unfold acquisisci_sequenza.
  assert (Hpx : con_pixel (firstn n cap))
    by exact (@same_resolution_con_pixel sh (firstn n cap) Hsame Hpos).
  rewrite acquisisci_loop_closed by exact Hpx. cbn [app].
  destruct (Nat.leb_spec n (length cap)) as [_ | Hlt]; [|lia].
  set (frames := firstn n cap) in *.
  set (timestamps := map orologio (seq 0 n)).
  assert (Hlen : length frames = n) by (unfold frames; rewrite length_firstn; lia).
  assert (Hne : frames <> []) by (destruct frames; [simpl in Hlen; lia | discriminate]).
  assert (Hcov : timestamps_cover datetime (Some timestamps) (length frames)).
  { unfold timestamps_cover, timestamps. destruct (map orologio (seq 0 n)) eqn:E;
      [exact I|]. rewrite <- E, length_map, length_seq. lia. }
  do 7 eexists. split; [reflexivity|].
  assert (Hrun : processa_sequenza regionprops_label np_degrees isoformat
                   frames (Some timestamps) t
                 = (t ++ CFondo :: tre_chiamate frames,
                    Ok (rilevamenti_attesi regionprops_label np_degrees datetime
                          isoformat (Some timestamps) (fondo_atteso sh frames)
                          0 frames,
                        fondo_atteso sh frames))).
  { unfold processa_sequenza, bind, invoke.
    rewrite (calcola_fondo_mediano_ok Hne Hsame Hpos).
    rewrite (processa_ciclo_closed regionprops_label np_degrees datetime isoformat
               (Some timestamps) (fondo_atteso sh frames) (length frames)
               frames 0 [] (t ++ [CFondo])); auto.
    unfold ret. cbn [app]. now rewrite <- app_assoc. }
  split; [exact Hrun|].
  split; [now apply calcola_fondo_mediano_ok|].
  apply Forall_forall. intros r Hr.
  apply rilevamenti_attesi_In in Hr. destruct Hr as (j & d & sigma & Hj & ->).
  exists j. rewrite Hlen in Hj. split; [lia|]. split; [reflexivity|].
  cbn. f_equal. f_equal. unfold etichetta, timestamp_of, timestamps.
  destruct (map orologio (seq 0 n)) as [|d0 l] eqn:E.
  - apply (f_equal (@length _)) in E. rewrite length_map, length_seq in E.
    simpl in E. lia.
  - rewrite <- E, nth_error_map, nth_error_seq.
    destruct (Nat.ltb_spec j n); [reflexivity | lia].
Qed.

(** ** Session metadata *)

Lemma dict_get_set_same (k : string) (v : pyval) (d : rilevamento) :
  dict_get k (dict_set k v d) = Some v.
Proof.
  induction d as [|[k' v'] d IH]; cbn [dict_set dict_get].
  - now rewrite String.eqb_refl.
  - destruct (String.eqb_spec k k') as [-> | Hne]; cbn [dict_get].
    + now rewrite String.eqb_refl.
    + destruct (String.eqb_spec k k'); [contradiction | exact IH].
Qed.

Lemma dict_get_set_other (k k' : string) (v : pyval) (d : rilevamento) :
  k <> k' -> dict_get k (dict_set k' v d) = dict_get k d.
Proof.
  intros Hne. induction d as [|[k2 v2] d IH]; cbn [dict_set dict_get].
  - destruct (String.eqb_spec k k'); [contradiction | reflexivity].
  - destruct (String.eqb_spec k' k2) as [-> | H2]; cbn [dict_get].
    + destruct (String.eqb_spec k k2); [contradiction | reflexivity].
    + now rewrite IH.
Qed.

Lemma dict_set_native (k : string) (v : pyval) (d : rilevamento) :
  json_native v ->
  Forall (fun kv => json_native (snd kv)) d ->
  Forall (fun kv => json_native (snd kv)) (dict_set k v d).
Proof.
  intros Hv. induction 1 as [|[k' v'] d Hx Hd IH]; cbn [dict_set].
  - now repeat constructor.
  - destruct (String.eqb k k'); constructor; auto.
Qed.

Lemma dict_set_In_other (k k' : string) (v v' : pyval) (d : rilevamento) :
  k <> k' -> In (k, v) d -> In (k, v) (dict_set k' v' d).
Proof.
  intros Hne. induction d as [|[k2 v2] d IH]; [contradiction|].
  intros [E | Hin]; cbn [dict_set].
  - inversion E; subst. destruct (String.eqb_spec k' k); [congruence | now left].
  - destruct (String.eqb k' k2); right; auto.
Qed.

Lemma json_dump_object_native (d : rilevamento) :
  Forall (fun kv => json_native (snd kv)) d ->
  exists doc,
    json_dump_object d = Fatto doc /\
    map (fun kj => (fst kj, json_decode (snd kj))) doc = d.
Proof.
  induction 1 as [|[k v] d Hx Hd (doc & E & R)].
  - now exists [].
  - cbn [json_dump_object]. cbn [snd] in Hx.
    destruct v as [[z | q | z | q] | s]; cbn in Hx |- *; try contradiction;
      rewrite E; cbn [ebind]; eexists; (split; [reflexivity|]);
      cbn [map fst snd json_decode]; now rewrite R.
Qed.

Lemma json_dump_object_foreign (d : rilevamento) (k : string) (v : pyval) :
  In (k, v) d -> ~ json_native v -> json_dump_object d = Fallito TypeError.
Proof.
  intros Hin Hv. induction d as [|[k' v'] d IH]; [contradiction|].
  cbn [json_dump_object].
  assert (Hd : forall j, ebind (json_dump_object d)
                           (fun doc => Fatto ((k', j) :: doc)) = Fallito TypeError
                         \/ In (k, v) [(k', v')]).
  { intros j. destruct Hin as [E | Hin]; [right; now left|].
    left. now rewrite (IH Hin). }
  destruct v' as [[z | q | z | q] | s]; cbn [json_encode_strict ebind]; try reflexivity.
  - destruct (Hd (JInt z)) as [E | [E | []]]; [exact E|].
    inversion E; subst. exfalso. now apply Hv.
  - destruct (Hd (JFloat q)) as [E | [E | []]]; [exact E|].
    inversion E; subst. exfalso. now apply Hv.
  - destruct (Hd (JString s)) as [E | [E | []]]; [exact E|].
    inversion E; subst. exfalso. now apply Hv.
Qed.

(** X20. [aggiorna_metadata] never divides by zero.  It leaves the metadata
    with the frame count, an actual rate and an actual duration, and every
    other entry as it was; with at most one timestamp the rate and the
    duration are the integer 0, with more the duration is the time from the
    first to the last timestamp rounded to 3 digits and the rate is the
    integer 0 unless that time is positive.  When every value of the
    metadata is an [int], a [float] or a [str] the file [metadata.json] is
    written and reads back to the metadata as left; a foreign value under
    another key makes [json.dump] raise TypeError, the metadata having been
    updated all the same. *)
Theorem aggiorna_metadata_entries :
  forall (session_dir : string) (metadata : rilevamento) (n : Z)
         (timestamps : list datetime),
    let uscita := aggiorna_metadata session_dir metadata n timestamps in
    let m' := fst uscita in
    snd uscita <> Fallito ZeroDivisionError /\
    dict_get "n_frame_acquisiti" m' = Some (PyNum (PyInt n)) /\
    (exists fps durata,
       dict_get "fps_reale" m' = Some fps /\
       dict_get "durata_reale_sec" m' = Some durata /\
       json_native fps /\ json_native durata /\
       ((length timestamps <= 1)%nat ->
        fps = PyNum (PyInt 0) /\ durata = PyNum (PyInt 0)) /\
       (forall t0 t1 resto, timestamps = t0 :: resto ++ [t1] ->
          durata = PyNum (PyFloat (py_round (total_seconds t0 t1) 3)) /\
          ((total_seconds t0 t1 <= 0)%Q -> fps = PyNum (PyInt 0)) /\
          ((0 < total_seconds t0 t1)%Q ->
           fps = PyNum (PyFloat (py_round (inject_Z n / total_seconds t0 t1) 2))))) /\
    (forall k, k <> "n_frame_acquisiti"%string -> k <> "fps_reale"%string ->
               k <> "durata_reale_sec"%string ->
               dict_get k m' = dict_get k metadata) /\
    (Forall (fun kv => json_native (snd kv)) metadata ->
     exists doc,
       snd uscita = Fatto (path_join session_dir "metadata.json", doc) /\
       map (fun kj => (fst kj, json_decode (snd kj))) doc = m') /\
    (forall k v, In (k, v) metadata -> ~ json_native v ->
                 k <> "n_frame_acquisiti"%string -> k <> "fps_reale"%string ->
                 k <> "durata_reale_sec"%string ->
                 snd uscita = Fallito TypeError).
Proof.
  intros session_dir metadata n timestamps.
  assert (Hgen : forall fps durata,
    json_native fps -> json_native durata ->
    let m2 := dict_set "durata_reale_sec" durata
                (dict_set "fps_reale" fps
                   (dict_set "n_frame_acquisiti" (PyNum (PyInt n)) metadata)) in
    let out := ebind (json_dump_object m2) (fun doc =>
                 Fatto (path_join session_dir "metadata.json", doc)) in
    out <> Fallito ZeroDivisionError /\
    dict_get "n_frame_acquisiti" m2 = Some (PyNum (PyInt n)) /\
    dict_get "fps_reale" m2 = Some fps /\
    dict_get "durata_reale_sec" m2 = Some durata /\
    (forall k, k <> "n_frame_acquisiti"%string -> k <> "fps_reale"%string ->
               k <> "durata_reale_sec"%string ->
               dict_get k m2 = dict_get k metadata) /\
    (Forall (fun kv => json_native (snd kv)) metadata ->
     exists doc,
       out = Fatto (path_join session_dir "metadata.json", doc) /\
       map (fun kj => (fst kj, json_decode (snd kj))) doc = m2) /\
    (forall k v, In (k, v) metadata -> ~ json_native v ->
                 k <> "n_frame_acquisiti"%string -> k <> "fps_reale"%string ->
                 k <> "durata_reale_sec"%string ->
                 out = Fallito TypeError)).
  { intros fps durata Hf Hd m2 out.
    assert (Hdump : forall d, json_dump_object d <> Fallito ZeroDivisionError).
    { induction d as [|[k v] d IH]; [discriminate|]. cbn [json_dump_object].
      destruct v as [[z | q | z | q] | s]; cbn [json_encode_strict ebind];
        try discriminate;
        (destruct (json_dump_object d) as [doc | e]; cbn [ebind];
         [discriminate | intro E; apply IH; exact E]). }
    split; [|split; [|split; [|split; [|split; [|split]]]]].
    - unfold out. destruct (json_dump_object m2) as [doc | e] eqn:E;
        cbn [ebind]; [discriminate|].
      intro E'. apply (Hdump m2). rewrite E. now inversion E'.
    - unfold m2. rewrite !dict_get_set_other by discriminate.
      apply dict_get_set_same.
    - unfold m2. rewrite dict_get_set_other by discriminate.
      apply dict_get_set_same.
    - apply dict_get_set_same.
    - intros k H1 H2 H3. unfold m2. now rewrite !dict_get_set_other.
    - intros Hall. unfold out.
      destruct (@json_dump_object_native m2) as (doc & E & R).
      { unfold m2. repeat apply dict_set_native; auto. exact I. }
      rewrite E. cbn [ebind]. now exists doc.
    - intros k v Hin Hv H1 H2 H3. unfold out.
      rewrite (@json_dump_object_foreign m2 k v); [reflexivity | | exact Hv].
      unfold m2. repeat apply dict_set_In_other; auto. }
  cbv zeta. unfold aggiorna_metadata.
  destruct timestamps as [|t0 [|t1 resto]].
  - destruct (Hgen (PyNum (PyInt 0)) (PyNum (PyInt 0)) I I)
      as (G1 & G2 & G3 & G4 & G5 & G6 & G7).
    cbn [fst snd]. split; [exact G1|]. split; [exact G2|].
    split; [|split; [exact G5 | split; [exact G6 | exact G7]]].
    exists (PyNum (PyInt 0)), (PyNum (PyInt 0)).
    split; [exact G3|]. split; [exact G4|]. split; [exact I|]. split; [exact I|].
    split; [auto|]. intros ? ? ? E. discriminate.
  - destruct (Hgen (PyNum (PyInt 0)) (PyNum (PyInt 0)) I I)
      as (G1 & G2 & G3 & G4 & G5 & G6 & G7).
    cbn [fst snd]. split; [exact G1|]. split; [exact G2|].
    split; [|split; [exact G5 | split; [exact G6 | exact G7]]].
    exists (PyNum (PyInt 0)), (PyNum (PyInt 0)).
    split; [exact G3|]. split; [exact G4|]. split; [exact I|]. split; [exact I|].
    split; [auto|]. intros ? ? r E. destruct r; discriminate.
  - set (ultimo := last (t1 :: resto) t0).
    set (durata := total_seconds t0 ultimo).
    assert (Hlast : forall a b r, t0 :: t1 :: resto = a :: r ++ [b] ->
                                  a = t0 /\ b = ultimo).
    { intros a b r E. inversion E as [[Ea Er]]. split; [reflexivity|].
      unfold ultimo. rewrite Er. now rewrite last_last. }
    unfold Qgtb, py_truediv.
    destruct (Qle_bool durata 0) eqn:Ed; cbn [negb].
    + destruct (Hgen (PyNum (PyInt 0)) (PyNum (PyFloat (py_round durata 3))) I I)
        as (G1 & G2 & G3 & G4 & G5 & G6 & G7).
      cbn [fst snd]. split; [exact G1|]. split; [exact G2|].
      split; [|split; [exact G5 | split; [exact G6 | exact G7]]].
      exists (PyNum (PyInt 0)), (PyNum (PyFloat (py_round durata 3))).
      split; [exact G3|]. split; [exact G4|]. split; [exact I|]. split; [exact I|].
      split; [cbn [length]; lia|].
      intros a b r E. destruct (Hlast a b r E) as [-> ->]. fold durata.
      split; [reflexivity|]. split; [reflexivity|].
      intros Hpos. apply Qle_bool_iff in Ed. exfalso.
      exact (Qlt_irrefl _ (Qlt_le_trans _ _ _ Hpos Ed)).
    + assert (Hpos : (0 < durata)%Q).
      { apply Qnot_le_lt. intro H. apply Qle_bool_iff in H. congruence. }
      assert (Hz : Qeq_bool durata 0 = false).
      { apply not_true_is_false. intro H. apply Qeq_bool_iff in H.
        rewrite H in Hpos. exact (Qlt_irrefl _ Hpos). }
      rewrite Hz. cbn [ebind].
      destruct (Hgen (PyNum (PyFloat (py_round (inject_Z n / durata) 2)))
                     (PyNum (PyFloat (py_round durata 3))) I I)
        as (G1 & G2 & G3 & G4 & G5 & G6 & G7).
      cbn [fst snd]. split; [exact G1|]. split; [exact G2|].
      split; [|split; [exact G5 | split; [exact G6 | exact G7]]].
      do 2 eexists.
      split; [exact G3|]. split; [exact G4|]. split; [exact I|]. split; [exact I|].
      split; [cbn [length]; lia|].
      intros a b r E. destruct (Hlast a b r E) as [-> ->]. fold durata.
      split; [reflexivity|]. split; [|reflexivity].
      intros Hle. exfalso. exact (Qlt_irrefl _ (Qlt_le_trans _ _ _ Hpos Hle)).
Qed.

(** ** Opening a session *)

Definition DURATA_SECONDI : Z := 30.
Definition FPS_TARGET : Z := 10.
Definition N_FRAME_TOTALI : Z := DURATA_SECONDI * FPS_TARGET.
Definition SAVE_DIR : string := "../data/sessions".

(** [t.strftime("%Y%m%d_%H%M%S")]. *)
Variable strftime_sessione : datetime -> string.

(** [os.path.join(a, b)] for any [b]: an absolute second component
    discards the first.  With a relative one it is [path_join]. *)
Definition os_path_join (a b : string) : string :=
  match b with
  | String "/" _ => b
  | _ => path_join a b
  end.

(** [crea_sessione]: the two directories, the metadata, and the file
    [metadata.json] written from it.  [adesso1] and [adesso2] are the two
    readings of [utcnow()] the function takes. *)
Definition crea_sessione (adesso1 adesso2 : datetime)
  : esito (string * string * rilevamento * (string * list (string * json))) :=
  let timestamp := strftime_sessione adesso1 in
  let session_dir := os_path_join SAVE_DIR timestamp in
  let frames_dir := os_path_join session_dir "frames" in
  let metadata :=
    [ ("session_id", PyStr timestamp);
      ("data_ora_utc", PyStr (isoformat adesso2));
      ("fps_target", PyNum (PyInt FPS_TARGET));
      ("durata_secondi", PyNum (PyInt DURATA_SECONDI));
      ("n_frame_target", PyNum (PyInt N_FRAME_TOTALI));
      ("risoluzione", PyStr "1920x1080");
      ("note", PyStr EmptyString) ]%string in
  ebind (json_dump_object metadata) (fun doc =>
    Fatto (session_dir, frames_dir, metadata,
           (os_path_join session_dir "metadata.json", doc))).

(** The shape of what [aggiorna_metadata] leaves: three assignments of
    native values, then the dump. *)
Lemma aggiorna_metadata_assigns (session_dir : string) (metadata : rilevamento)
  (n : Z) (timestamps : list datetime) :
  exists fps durata,
    json_native fps /\ json_native durata /\
    aggiorna_metadata session_dir metadata n timestamps
    = (let m2 := dict_set "durata_reale_sec" durata
                   (dict_set "fps_reale" fps
                      (dict_set "n_frame_acquisiti" (PyNum (PyInt n)) metadata)) in
       (m2, ebind (json_dump_object m2) (fun doc =>
              Fatto (path_join session_dir "metadata.json", doc)))).
Proof.
  unfold aggiorna_metadata. destruct timestamps as [|t0 [|t1 resto]].
  - exists (PyNum (PyInt 0)), (PyNum (PyInt 0)). now repeat split.
  - exists (PyNum (PyInt 0)), (PyNum (PyInt 0)). now repeat split.
  - set (durata := total_seconds t0 _). unfold py_truediv, Qgtb.
    destruct (Qle_bool durata 0) eqn:Ed; cbn [negb].
    + exists (PyNum (PyInt 0)), (PyNum (PyFloat (py_round durata 3))).
      now repeat split.
    + assert (Hz : Qeq_bool durata 0 = false).
      { apply not_true_is_false. intro H. apply Qeq_bool_iff in H.
        assert (Hle : Qle_bool durata 0 = true)
          by (apply Qle_bool_iff; rewrite H; apply Qle_refl).
        congruence. }
      rewrite Hz. cbn [ebind].
      exists (PyNum (PyFloat (py_round (inject_Z n / durata) 2))),
             (PyNum (PyFloat (py_round durata 3))).
      now repeat split.
Qed.

(** X21. [crea_sessione] always returns: the session directory is named
    after the first clock reading, the frames directory lies in it, and the
    seven entries of the metadata are written to [metadata.json] and read
    back as they are.  [aggiorna_metadata] on that metadata, with any frame
    count and timestamps, never raises: it writes the same file again, and
    leaves the seven entries as they were, followed by the frame count, the
    actual rate and the actual duration. *)
Theorem crea_sessione_then_aggiorna :
  forall (adesso1 adesso2 : datetime) (n : Z) (timestamps : list datetime),
    exists session_dir frames_dir metadata doc m' doc',
      crea_sessione adesso1 adesso2
      = Fatto (session_dir, frames_dir, metadata,
               (path_join session_dir "metadata.json", doc)) /\
      session_dir = os_path_join SAVE_DIR (strftime_sessione adesso1) /\
      frames_dir = path_join session_dir "frames" /\
      map (fun kj => (fst kj, json_decode (snd kj))) doc = metadata /\
      dict_get "session_id" metadata = Some (PyStr (strftime_sessione adesso1)) /\
      dict_get "data_ora_utc" metadata = Some (PyStr (isoformat adesso2)) /\
      aggiorna_metadata session_dir metadata n timestamps
      = (m', Fatto (path_join session_dir "metadata.json", doc')) /\
      map (fun kj => (fst kj, json_decode (snd kj))) doc' = m' /\
      firstn 7 m' = metadata /\
      keys m'
      = [ "session_id"; "data_ora_utc"; "fps_target"; "durata_secondi";
          "n_frame_target"; "risoluzione"; "note";
          "n_frame_acquisiti"; "fps_reale"; "durata_reale_sec" ]%string.
Proof.
  intros adesso1 adesso2 n timestamps.
  set (session_dir := os_path_join SAVE_DIR (strftime_sessione adesso1)).
  set (metadata :=
    [ ("session_id", PyStr (strftime_sessione adesso1));
      ("data_ora_utc", PyStr (isoformat adesso2));
      ("fps_target", PyNum (PyInt FPS_TARGET));
      ("durata_secondi", PyNum (PyInt DURATA_SECONDI));
      ("n_frame_target", PyNum (PyInt N_FRAME_TOTALI));
      ("risoluzione", PyStr "1920x1080");
      ("note", PyStr EmptyString) ]%string).
  destruct (aggiorna_metadata_assigns session_dir metadata n timestamps)
    as (fps & durata & Hf & Hd & Hrun).
  cbv zeta in Hrun.
  set (m2 := dict_set "durata_reale_sec" durata _) in Hrun.
  assert (Em2 : m2 = metadata ++ [ ("n_frame_acquisiti", PyNum (PyInt n));
                                   ("fps_reale", fps);
                                   ("durata_reale_sec", durata) ]%string)
    by reflexivity.
  assert (Hnat : Forall (fun kv => json_native (snd kv)) m2).
  { rewrite Em2. unfold metadata. repeat constructor; assumption. }
  destruct (json_dump_object_native m2 Hnat) as (doc' & E' & R').
  rewrite E' in Hrun. cbn [ebind] in Hrun.
  exists session_dir, (path_join session_dir "frames"), metadata.
  eexists. exists m2, doc'.
  split; [reflexivity|]. split; [reflexivity|]. split; [reflexivity|].
  split; [reflexivity|]. split; [reflexivity|]. split; [reflexivity|].
  split; [exact Hrun|]. split; [exact R'|].
  split; rewrite Em2; reflexivity.
Qed.

End Acquisizione.

(** ** The further properties at work on the scene *)

Definition orologio_scena (i : nat) : string :=
  append "2025-03-01T21:45:0" (zero_pad 1 i).

Definition ora_testo (s : string) : string := s.

Definition stato_scena : live_state := mk_live cielo_f [cielo] 0 [].

Example giro_scia :
  exists t' st',
    ciclo regionprops_riga gradi iso_testo
          [mk_tick "2025-03-01T21:45:00.000000"%string (ord "q")]
          stato_scena [scia] []
    = (t', Ok (st', [], true)).
Proof. do 2 eexists. vm_compute. reflexivity. Qed.

Lemma calcola_fondo_mediano_range_witness :
  exists fnd,
    calcola_fondo_mediano [cielo; cielo; scia] = Ok fnd /\
    (inject_Z 100 <= nth 12 (data fnd) 0 /\ nth 12 (data fnd) 0 <= inject_Z 190)%Q.
Proof.
  apply (@calcola_fondo_mediano_range (1, 40)%nat [cielo; cielo; scia] 12 100 190).
  - discriminate.
  - repeat constructor.
  - vm_compute. lia.
  - intros f [<- | [<- | [<- | []]]]; vm_compute; split; discriminate.
Defined.

Lemma calcola_fondo_mediano_order_witness :
  exists fnd fnd',
    calcola_fondo_mediano [cielo; scia; cielo] = Ok fnd /\
    calcola_fondo_mediano [scia; cielo; cielo] = Ok fnd' /\
    shape fnd = shape fnd' /\
    (nth 12 (data fnd) 0 == nth 12 (data fnd') 0)%Q.
Proof.
  apply (@calcola_fondo_mediano_order (1, 40)%nat [cielo; scia; cielo]
           [scia; cielo; cielo] 12).
  - discriminate.
  - repeat constructor.
  - apply perm_swap.
  - vm_compute. lia.
Defined.

Lemma sottrai_fondo_broadcast_witness :
  sottrai_fondo cielo (mk_ndarray (2, 3)%nat (repeat 100%Q 6)) = Raise ValueError.
Proof.
  apply (proj1 (proj2 (sottrai_fondo_broadcast cielo
                         (mk_ndarray (2, 3)%nat (repeat 100%Q 6))))).
  intros [_ H]. unfold broadcastable in H. cbn in H. lia.
Defined.

Lemma sogliatura_at_most_half_witness :
  (2 * flagged (fst (fst (sogliatura residuo_scia SIGMA_SOGLIA)))
   <= length (data residuo_scia))%nat.
Proof. apply sogliatura_at_most_half. vm_compute. discriminate. Defined.

Lemma sogliatura_uniform_witness :
  let '(maschera, soglia, sigma) :=
    sogliatura (mk_ndarray (1, 3)%nat [5; 5; 5]%Q) SIGMA_SOGLIA in
  (sigma == 0)%Q /\ (soglia == 5)%Q /\
  Forall (fun v => v = 0%Z) (data maschera) /\ flagged maschera = O.
Proof.
  apply (@sogliatura_uniform (mk_ndarray (1, 3)%nat [5; 5; 5]%Q) SIGMA_SOGLIA 5).
  - discriminate.
  - repeat (constructor; [reflexivity|]). constructor.
Defined.

Lemma dark_frame_flags_nothing_witness :
  exists residuo,
    sottrai_fondo (mk_ndarray (1, 2)%nat [3; 4]%Z) (mk_ndarray (1, 2)%nat [5; 4]%Q)
    = Ok residuo /\
    Forall (fun x => x == 0)%Q (data residuo) /\
    flagged (fst (fst (sogliatura residuo SIGMA_SOGLIA))) = O.
Proof.
  apply (@dark_frame_flags_nothing (mk_ndarray (1, 2)%nat [3; 4]%Z)
           (mk_ndarray (1, 2)%nat [5; 4]%Q) SIGMA_SOGLIA).
  - reflexivity.
  - intros p Hp. destruct p as [|[|p]]; [vm_compute; discriminate ..|].
    cbv in Hp. lia.
Defined.

Lemma classifica_oggetti_floors_witness :
  let '(detriti, stelle) :=
    classifica_oggetti regionprops_riga gradi
      (fst (fst (sogliatura residuo_scia SIGMA_SOGLIA))) in
  Forall (fun d => 15 <= num (d_area d) /\ 0.90 <= d_eccentricita d)%Q detriti /\
  Forall (fun s => 3 <= num (s_area s))%Q stelle /\
  (length detriti + length stelle
   = length (filter (fun obj => Qle_bool 3 (num (area obj)))
                    (regionprops_riga (fst (fst (sogliatura residuo_scia SIGMA_SOGLIA))))))%nat /\
  (length detriti + length stelle
   <= length (regionprops_riga (fst (fst (sogliatura residuo_scia SIGMA_SOGLIA)))))%nat.
Proof.
  exact (classifica_oggetti_floors regionprops_riga gradi
           (fst (fst (sogliatura residuo_scia SIGMA_SOGLIA)))).
Defined.

Lemma classifica_oggetti_traces_region_witness :
  exists obj,
    In obj (regionprops_riga (fst (fst (sogliatura residuo_scia SIGMA_SOGLIA)))) /\
    area obj = PyFloat (16 # 1) /\
    (Qabs ((1844 # 100) - major_axis_length obj) <= 1 # 200)%Q.
Proof.
  destruct (@classifica_oggetti_traces_region regionprops_riga gradi
              (fst (fst (sogliatura residuo_scia SIGMA_SOGLIA)))
              (mk_detrito (0, 35 # 2)%Q (0, 10, 1, 26)%Z (PyFloat (16 # 1))
                          (10000 # 10000) (9000 # 100) (1844 # 100) (0 # 100)))
    as (obj & Hin & Ha & _ & _ & _ & _ & Hl & _).
  - vm_compute. left. reflexivity.
  - exists obj. split; [exact Hin|]. split; [symmetry; exact Ha | exact Hl].
Defined.

Lemma processa_sequenza_total_witness :
  processa_sequenza regionprops_riga gradi iso_testo [cielo; cielo; scia] None []
  = ([] ++ CFondo :: tre_chiamate [cielo; cielo; scia],
     Ok (rilevamenti_attesi regionprops_riga gradi string iso_testo None
           (fondo_atteso (1, 40)%nat [cielo; cielo; scia]) 0 [cielo; cielo; scia],
         fondo_atteso (1, 40)%nat [cielo; cielo; scia])).
Proof.
  apply (processa_sequenza_total regionprops_riga gradi string iso_testo
           (1, 40)%nat [cielo; cielo; scia] None []).
  - discriminate.
  - repeat constructor.
  - vm_compute. lia.
  - exact I.
Defined.

Lemma processa_sequenza_timestamps_witness :
  processa_sequenza regionprops_riga gradi iso_testo [cielo; cielo; scia]
                    (Some ["2025-03-01T21:45:00"%string]) []
  = ([] ++ CFondo :: tre_chiamate ([cielo; cielo] ++ [scia]), Raise IndexError).
Proof.
  apply (proj2 (processa_sequenza_timestamps regionprops_riga gradi string iso_testo
                  (1, 40)%nat [cielo; cielo; scia] []
                  ltac:(discriminate) ltac:(repeat constructor)
                  ltac:(vm_compute; lia))
           [cielo; cielo] scia [] ["2025-03-01T21:45:00"%string]).
  - reflexivity.
  - repeat (constructor; [vm_compute; reflexivity|]). constructor.
  - vm_compute. discriminate.
  - discriminate.
  - simpl. lia.
Defined.

Lemma timestamp_of_labels_witness :
  timestamp_of iso_testo None 7 = Ok "frame_0007"%string /\
  (timestamp_of iso_testo None 7 = timestamp_of iso_testo None 7 -> 7 = 7)%nat.
Proof.
  destruct (timestamp_of_labels string iso_testo 7 7) as (H1 & _ & _ & H4).
  split; [exact H1 | exact H4].
Defined.

Lemma calibra_camera_witness :
  exists fnd,
    calibra (repeat cielo 50 ++ [scia]) []
    = ([CFondo], Ok (fnd, repeat cielo 50, [scia])) /\
    is_median (pixel_samples 12 (repeat cielo 50)) (nth 12 (data fnd) 0).
Proof.
  destruct (proj1 (calibra_camera regionprops_riga gradi string iso_testo
                     (repeat cielo 50 ++ [scia]) []) (1, 40)%nat)
    as (fnd & Hrun & _ & _ & Hmed).
  - simpl. lia.
  - repeat constructor.
  - vm_compute. lia.
  - exists fnd. split; [exact Hrun|]. apply (Hmed 12%nat). vm_compute. lia.
Defined.

Lemma ciclo_buffer_bounded_witness :
  exists t' st',
    ciclo regionprops_riga gradi iso_testo
          [mk_tick "2025-03-01T21:45:00.000000"%string (ord "q")]
          stato_scena [scia] []
    = (t', Ok (st', [], true)) /\
    (length (buffer st') <= 100)%nat.
Proof.
  destruct giro_scia as (t' & st' & Hrun). exists t', st'.
  split; [exact Hrun|].
  apply (ciclo_buffer_bounded regionprops_riga gradi string iso_testo
           _ _ _ _ _ _ _ _ Hrun).
  simpl. lia.
Defined.

Lemma ciclo_list_and_counter_witness :
  exists t' st',
    ciclo regionprops_riga gradi iso_testo
          [mk_tick "2025-03-01T21:45:00.000000"%string (ord "q")]
          stato_scena [scia] []
    = (t', Ok (st', [], true)) /\
    (n_frame stato_scena < n_frame st')%nat.
Proof.
  destruct giro_scia as (t' & st' & Hrun). exists t', st'.
  split; [exact Hrun|].
  apply (ciclo_list_and_counter regionprops_riga gradi string iso_testo
           _ _ _ _ _ _ _ _ Hrun).
  reflexivity.
Defined.

Lemma ciclo_buffer_window_witness :
  exists t' st' used,
    ciclo regionprops_riga gradi iso_testo
          [mk_tick "2025-03-01T21:45:00.000000"%string (ord "q")]
          stato_scena [scia] []
    = (t', Ok (st', [], true)) /\
    [scia] = used ++ [] /\
    buffer st' = skipn (length ([cielo] ++ used) - 100) ([cielo] ++ used).
Proof.
  destruct giro_scia as (t' & st' & Hrun).
  destruct (ciclo_buffer_window regionprops_riga gradi string iso_testo
              [mk_tick "2025-03-01T21:45:00.000000"%string (ord "q")]
              stato_scena [scia] [] t' st' [] true)
    as (used & Hu & _ & Hb).
  - repeat constructor. vm_compute. discriminate.
  - simpl. lia.
  - exact Hrun.
  - exists t', st', used. split; [exact Hrun|]. split; [exact Hu | exact Hb].
Defined.

Lemma genera_preview_floor_witness :
  exists mediana,
    genera_preview [cielo; scia] "sessione"
    = Fatto (mediana, (path_join "sessione" "preview_mediana.png", mediana)) /\
    shape mediana = (1, 40)%nat.
Proof.
  destruct (proj2 (proj2 (proj2 (genera_preview_floor (1, 40)%nat [cielo; scia]
                                   "sessione"))))
    as (mediana & Hrun & Hsh & _).
  - discriminate.
  - repeat constructor.
  - vm_compute. lia.
  - exists mediana. split; assumption.
Defined.

Lemma acquisisci_sequenza_frames_witness :
  exists scritti frames timestamps,
    acquisisci_sequenza string ora_testo orologio_scena [cielo; scia; cielo] "frames"%string 2
    = (scritti, Fatto (frames, timestamps, [cielo])) /\
    length frames = 2%nat /\ length scritti = 2%nat.
Proof.
  destruct (proj1 (acquisisci_sequenza_frames string ora_testo orologio_scena
                     [cielo; scia; cielo] "frames"%string 2))
    as (scritti & frames & timestamps & Hrun & _ & Hf & _ & Hs & _).
  - repeat constructor; discriminate.
  - simpl. lia.
  - exists scritti, frames, timestamps. repeat split; assumption.
Defined.

Lemma acquisisci_then_processa_witness :
  exists scritti frames timestamps cap' t' rilevamenti fnd,
    acquisisci_sequenza string ora_testo orologio_scena [cielo; cielo; scia] "frames"%string 3
    = (scritti, Fatto (frames, timestamps, cap')) /\
    processa_sequenza regionprops_riga gradi iso_testo frames (Some timestamps) []
    = (t', Ok (rilevamenti, fnd)).
Proof.
  destruct (acquisisci_then_processa regionprops_riga gradi string iso_testo
              ora_testo orologio_scena [cielo; cielo; scia] "frames"%string 3
              (1, 40)%nat [])
    as (scritti & frames & timestamps & cap' & t' & ril & fnd & H1 & H2 & _).
  - lia.
  - simpl. lia.
  - repeat constructor.
  - vm_compute. lia.
  - exists scritti, frames, timestamps, cap', t', ril, fnd. split; assumption.
Defined.

Lemma aggiorna_metadata_entries_witness :
  let secondi := fun a b : Z => inject_Z (b - a) in
  let uscita :=
    aggiorna_metadata Z secondi "sessione" [("note"%string, PyStr "cielo")] 3
                      [0; 1; 2]%Z in
  exists doc,
    snd uscita = Fatto (path_join "sessione" "metadata.json", doc) /\
    map (fun kj => (fst kj, json_decode (snd kj))) doc = fst uscita.
Proof.
  intros secondi uscita.
  destruct (aggiorna_metadata_entries Z secondi "sessione"
              [("note"%string, PyStr "cielo")] 3 [0; 1; 2]%Z)
    as (_ & _ & _ & _ & Hscritto & _).
  apply Hscritto. repeat constructor.
Defined.

Lemma crea_sessione_then_aggiorna_witness :
  exists session_dir frames_dir metadata doc m' doc',
    crea_sessione string iso_testo ora_testo
                  "2025-03-01T21:45:00"%string "2025-03-01T21:45:01"%string
    = Fatto (session_dir, frames_dir, metadata,
             (path_join session_dir "metadata.json", doc)) /\
    aggiorna_metadata string (fun _ _ => 1%Q) session_dir metadata 3
                      (map orologio_scena (seq 0 3))
    = (m', Fatto (path_join session_dir "metadata.json", doc')) /\
    length m' = 10%nat.
Proof.
  destruct (crea_sessione_then_aggiorna string iso_testo (fun _ _ => 1%Q) ora_testo
              "2025-03-01T21:45:00"%string "2025-03-01T21:45:01"%string 3
              (map orologio_scena (seq 0 3)))
    as (session_dir & frames_dir & metadata & doc & m' & doc'
        & H1 & _ & _ & _ & _ & _ & H2 & _ & _ & Hk).
  exists session_dir, frames_dir, metadata, doc, m', doc'.
  split; [exact H1|]. split; [exact H2|].
  apply (f_equal (@length string)) in Hk. unfold keys in Hk.
  rewrite length_map in Hk. exact Hk.
Defined.
